(** * LightAutoML: regularization path, Optuna tuner and dataset concatenation

    A shallow embedding of
    - [lightautoml/ml_algo/linear_sklearn.py]  ([LinearL1CD], [LinearLBFGS]),
    - [lightautoml/ml_algo/tuning/optuna.py]   ([OptunaTuner]),
    - [lightautoml/dataset/utils.py]           ([roles_parser],
      [get_common_concat], [concatenate]),
    - [lightautoml/pipelines/features/base.py] ([TabularDataFeatures]),
    together with the properties of these functions.

    Python numbers that are only compared and passed on (scores,
    coefficients, strengths, time budgets) are modelled by their exact value
    in [Q]; where the code does float arithmetic (the floor division of the
    tuner's callback, the conversion [1 / (2 * x)] of the strengths) floats
    are binary64 floats. Exceptions are modelled by the [result] type;
    objects that are mutated in place by an explicit store. *)

From Stdlib Require Import QArith Qround Qabs Lqa Qfield Sorted.
From Stdlib Require PrimFloat FloatOps SpecFloat FloatAxioms.
From stdpp Require Import base option list strings gmap.

Open Scope Z_scope.

(** ** Python exceptions and results *)

Inductive exn : Type :=
  | ValueError
  | AttributeError
  | TypeError
  | AssertionError
  | ZeroDivisionError
  | OverflowError
  | OptunaError
  | OtherError (tag : nat).

Inductive result (A : Type) : Type :=
  | Ok (a : A)
  | Raise (e : exn).
Arguments Ok {A} a.
Arguments Raise {A} e.

Definition is_raise {A} (r : result A) : bool :=
  match r with Ok _ => false | Raise _ => true end.

Definition exn_eqb (a b : exn) : bool :=
  match a, b with
  | ValueError, ValueError | AttributeError, AttributeError
  | TypeError, TypeError | AssertionError, AssertionError
  | ZeroDivisionError, ZeroDivisionError | OverflowError, OverflowError
  | OptunaError, OptunaError => true
  | OtherError n, OtherError m => Nat.eqb n m
  | _, _ => false
  end.

(** [copy.deepcopy] on an immutable value. *)
Definition deepcopy {A : Type} (x : A) : A := x.

(** ** Float helpers *)

(** A float score that may be [-np.inf]. *)
Inductive fscore : Type :=
  | NegInf
  | Fin (q : Q).

(** [a >= b] on scores. *)
Definition fge (a b : fscore) : bool :=
  match a, b with
  | _, NegInf => true
  | NegInf, Fin _ => false
  | Fin x, Fin y => Qle_bool y x
  end.

Definition Qsum (l : list Q) : Q := fold_right Qplus (0 # 1)%Q l.

(** The mean of a non-empty list, as an exact number. *)
Definition Qmean (l : list Q) : Q :=
  (Qsum l / inject_Z (Z.of_nat (length l)))%Q.

(** ** Python floats

    A Python [float] is a binary64 float: the kernel's primitive floats,
    with their correctly rounded [+], [-], [*] and [/]. *)

Module PyFloat.

Import PrimFloat.

(** The float nearest to the fraction [m / d] of two integers (ties to
    even; an infinity beyond the range): what a literal, the conversion of
    an [int] and the true division of two ints give. *)
Definition nearest (m : Z) (d : positive) : float :=
  match m with
  | Z0 => zero
  | Zpos p =>
      FloatOps.SF2Prim
        (SpecFloat.SFdiv FloatOps.prec FloatOps.emax
           (SpecFloat.S754_finite false p 0) (SpecFloat.S754_finite false d 0))
  | Zneg p =>
      FloatOps.SF2Prim
        (SpecFloat.SFdiv FloatOps.prec FloatOps.emax
           (SpecFloat.S754_finite true p 0) (SpecFloat.S754_finite false d 0))
  end.

Definition of_Z (z : Z) : float := nearest z 1.
Definition of_Q (q : Q) : float := nearest (Qnum q) (Qden q).

Definition signed (s : bool) (m : positive) : Z := if s then Zneg m else Zpos m.

(** The exact value of a finite float. *)
Definition to_Q (f : float) : Q :=
  match FloatOps.Prim2SF f with
  | SpecFloat.S754_finite s m e =>
      if 0 <=? e then inject_Z (signed s m * 2 ^ e)
      else Qmake (signed s m) (2 ^ Z.to_pos (- e))
  | _ => (0 # 1)%Q
  end.

(** The value of a decimal literal: that of the float nearest to it. *)
Definition literal (q : Q) : Q := to_Q (of_Q q).

(** The comparison of the [int] [z] with the float [f], which Python makes
    on the exact values; [None] for a NaN. *)
Definition int_compare (z : Z) (f : float) : option comparison :=
  match FloatOps.Prim2SF f with
  | SpecFloat.S754_nan => None
  | SpecFloat.S754_infinity s => Some (if s then Gt else Lt)
  | SpecFloat.S754_zero _ => Some (z ?= 0)
  | SpecFloat.S754_finite s m e =>
      Some (if 0 <=? e then z ?= signed s m * 2 ^ e
            else z * 2 ^ (- e) ?= signed s m)
  end.

(** C's [fmod]: the exact remainder, with the sign of [x]. *)
Definition fmod (x y : float) : float :=
  match FloatOps.Prim2SF x, FloatOps.Prim2SF y with
  | SpecFloat.S754_nan, _ | _, SpecFloat.S754_nan => nan
  | SpecFloat.S754_infinity _, _ => nan
  | _, SpecFloat.S754_zero _ => nan
  | _, SpecFloat.S754_infinity _ => x
  | SpecFloat.S754_zero _, _ => x
  | SpecFloat.S754_finite sx mx ex, SpecFloat.S754_finite _ my ey =>
      let e := Z.min ex ey in
      let r := Z.rem (Zpos mx * 2 ^ (ex - e))%Z (Zpos my * 2 ^ (ey - e))%Z in
      match r with
      | Z0 => if sx then neg_zero else zero
      | _ =>
          FloatOps.SF2Prim
            (SpecFloat.binary_normalize FloatOps.prec FloatOps.emax
               (if sx then (- r)%Z else r) e false)
      end
  end.

(** C's [floor]. *)
Definition floor (x : float) : float :=
  match FloatOps.Prim2SF x with
  | SpecFloat.S754_finite s m e =>
      if (0 <=? e)%Z then x
      else
        match (signed s m / 2 ^ (- e))%Z with
        | Z0 => zero
        | n => of_Z n
        end
  | _ => x
  end.

(** [vx // wx] on floats, for [wx != 0.0], as CPython computes it
    ([float_divmod]): the quotient of [vx - fmod(vx, wx)] by [wx], moved
    down by one when the remainder and [wx] differ in sign, and snapped to
    the nearest integral value. *)
Definition floor_div (vx wx : float) : float :=
  let mod_ := fmod vx wx in
  let div := ((vx - mod_) / wx)%float in
  let div :=
    if negb (mod_ =? 0)%float && negb (Bool.eqb (wx <? 0)%float (mod_ <? 0)%float)
    then (div - 1)%float else div in
  if negb (div =? 0)%float then
    let floordiv := floor div in
    if (0.5 <? div - floordiv)%float then (floordiv + 1)%float else floordiv
  else if get_sign (vx / wx)%float then neg_zero else zero.

End PyFloat.

(** A Python number: an [int] or a [float]. *)
Inductive pynum : Type :=
  | Int (z : Z)
  | Float (f : PrimFloat.float).

(** [a < b] and [a <= b] on numbers: exact, and false when a NaN is
    compared. *)
Definition num_lt (a b : pynum) : bool :=
  match a, b with
  | Int x, Int y => (x <? y)%Z
  | Int x, Float g =>
      match PyFloat.int_compare x g with Some Lt => true | _ => false end
  | Float f, Int y =>
      match PyFloat.int_compare y f with Some Gt => true | _ => false end
  | Float f, Float g => PrimFloat.ltb f g
  end.

Definition num_le (a b : pynum) : bool :=
  match a, b with
  | Int x, Int y => (x <=? y)%Z
  | Int x, Float g =>
      match PyFloat.int_compare x g with Some Lt | Some Eq => true | _ => false end
  | Float f, Int y =>
      match PyFloat.int_compare y f with Some Gt | Some Eq => true | _ => false end
  | Float f, Float g => PrimFloat.leb f g
  end.

(** [min(a, b)]: the first argument unless the second is smaller. *)
Definition num_min (a b : pynum) : pynum := if num_lt b a then b else a.

(** [x // y] for a number [x], given by its exact value, and a float [y]:
    [x] is made a float first, which fails for an [int] beyond the range of
    floats. *)
Definition floordiv (x : Q) (y : PrimFloat.float) : result PrimFloat.float :=
  let vx := PyFloat.of_Q x in
  if PrimFloat.is_infinity vx then Raise OverflowError
  else if PrimFloat.eqb y PrimFloat.zero then Raise ZeroDivisionError
  else Ok (PyFloat.floor_div vx y).

(** A sequence, which is a tuple or a list. *)
Inductive sequence : Type :=
  | PyTuple (elts : list Q)
  | PyList (elts : list Q).

Definition items (s : sequence) : list Q :=
  match s with PyTuple l | PyList l => l end.

(** ** lightautoml/ml_algo/linear_sklearn.py *)

Module LinearSklearn.

(** The sklearn estimators built by [_infer_params]. *)
Inductive estimator_class : Type := LogisticRegression | Lasso | ElasticNet.

Inductive penalty_kind : Type := PenL1 | PenElasticnet.

Record estimator : Type := mkEstimator {
  klass : estimator_class;
  warm_start : bool;
  penalty : option penalty_kind;
  tol : Q;
  max_iter : Z;
  solver : option string;
  l1_ratio : option Q;
  C : Q;
  alpha : Q;
  coef_ : option (list Q)
}.

Inductive pname : Type := P_C | P_alpha | P_l1_ratio.

(** The constructor arguments of each class: [set_params] accepts exactly
    these names. *)
Definition has_param (k : estimator_class) (pn : pname) : bool :=
  match k, pn with
  | LogisticRegression, P_C => true
  | LogisticRegression, P_l1_ratio => true
  | LogisticRegression, P_alpha => false
  | ElasticNet, P_alpha => true
  | ElasticNet, P_l1_ratio => true
  | ElasticNet, P_C => false
  | Lasso, P_alpha => true
  | Lasso, P_l1_ratio => false
  | Lasso, P_C => false
  end.

Definition with_param (pn : pname) (v : Q) (m : estimator) : estimator :=
  match pn with
  | P_C =>
      mkEstimator (klass m) (warm_start m) (penalty m) (tol m) (max_iter m)
        (solver m) (l1_ratio m) v (alpha m) (coef_ m)
  | P_alpha =>
      mkEstimator (klass m) (warm_start m) (penalty m) (tol m) (max_iter m)
        (solver m) (l1_ratio m) (C m) v (coef_ m)
  | P_l1_ratio =>
      mkEstimator (klass m) (warm_start m) (penalty m) (tol m) (max_iter m)
        (solver m) (Some v) (C m) (alpha m) (coef_ m)
  end.

(** [model.set_params] with one keyword: sklearn raises [ValueError] for a name
    that is not a parameter of the estimator. *)
Definition set_params (pn : pname) (v : Q) (m : estimator) : result estimator :=
  if has_param (klass m) pn then Ok (with_param pn v m) else Raise ValueError.

Definition with_coef (c : list Q) (m : estimator) : estimator :=
  mkEstimator (klass m) (warm_start m) (penalty m) (tol m) (max_iter m)
    (solver m) (l1_ratio m) (C m) (alpha m) (Some c).

Definition coefs (m : estimator) : list Q :=
  match coef_ m with Some c => c | None => [] end.

(** [np.allclose(model.coef_, 0)]: [|x| <= atol + rtol * |0|] with the
    default [atol = 1e-8], a float. *)
Definition allclose0 (c : list Q) : bool :=
  forallb (fun x => Qle_bool (Qabs x) (PyFloat.literal (1 # 100000000))) c.

(** [(model.coef_ != 0).all()] *)
Definition all_nonzero (c : list Q) : bool :=
  forallb (fun x => negb (Qeq_bool x (0 # 1))) c.

(** [self.params] of [LinearL1CD]. *)
Record params : Type := mkParams {
  p_tol : Q;
  p_max_iter : Z;
  p_cs : list Q;
  p_early_stopping : Z;
  p_l1_ratios : sequence;
  p_solver : string
}.

(** [l1_ratios == (1,)]: a tuple never equals a list. *)
Definition is_pure_l1 (l1_ratios : sequence) : bool :=
  match l1_ratios with
  | PyTuple [x] => Qeq_bool x (1 # 1)
  | _ => false
  end.

(** [_infer_params]: the estimator, [cs], [l1_ratios] and [early_stopping]. *)
Definition _infer_params (task_name : string) (p : params)
  : result (estimator * list Q * sequence * Z) :=
  let l1_ratios := p_l1_ratios p in
  let early_stopping := p_early_stopping p in
  let cs := p_cs p in
  if bool_decide (task_name = "binary") || bool_decide (task_name = "multiclass") then
    let model :=
      if is_pure_l1 l1_ratios then
        mkEstimator LogisticRegression true (Some PenL1) (p_tol p) (p_max_iter p)
          (Some (p_solver p)) None (1 # 1) (1 # 1) None
      else
        mkEstimator LogisticRegression true (Some PenElasticnet) (p_tol p)
          (p_max_iter p) (Some (p_solver p)) None (1 # 1) (1 # 1) None in
    Ok (model, cs, l1_ratios, early_stopping)
  else if bool_decide (task_name = "reg") then
    let model :=
      if is_pure_l1 l1_ratios then
        mkEstimator Lasso true None (p_tol p) (p_max_iter p) None None
          (1 # 1) (1 # 1) None
      else
        mkEstimator ElasticNet true None (p_tol p) (p_max_iter p) None
          (Some (1 # 2)%Q) (1 # 1) (1 # 1) None in
    Ok (model, cs, l1_ratios, early_stopping)
  else Raise AttributeError.

(** [sorted(l1_ratios, reverse=True)]: a stable descending sort. *)
Fixpoint insert_desc (x : Q) (l : list Q) : list Q :=
  match l with
  | [] => [x]
  | y :: l' => if Qle_bool y x then x :: y :: l' else y :: insert_desc x l'
  end.

Definition sorted_desc (l : list Q) : list Q := fold_right insert_desc [] l.

(** What the search does that a caller can observe: the calls of
    [model.fit], each with the estimator as it is handed to the solver
    (hyperparameters and, [warm_start] being set, the coefficients of the
    previous fit), and the calls of [warnings.warn]. *)
Inductive event : Type :=
  | EvFit (m : estimator)
  | EvWarn (l1_ratio : Q).

Definition is_warn (ev : event) : bool :=
  match ev with EvWarn _ => true | EvFit _ => false end.

Definition is_fit (ev : event) : bool :=
  match ev with EvFit _ => true | EvWarn _ => false end.

Definition warnings (tr : list event) : list event := filter is_warn tr.
Definition fit_calls (tr : list event) : list event := filter is_fit tr.

(** A computation that appends to the trace and may raise. *)
Definition M (A : Type) : Type := list event -> list event * result A.

Definition ret {A} (a : A) : M A := fun tr => (tr, Ok a).

Definition bind {A B} (c : M A) (k : A -> M B) : M B :=
  fun tr =>
    match c tr with
    | (tr', Ok a) => k a tr'
    | (tr', Raise e) => (tr', Raise e)
    end.

Definition lift {A} (r : result A) : M A := fun tr => (tr, r).

Definition emit (ev : event) : M unit := fun tr => (tr ++ [ev], Ok tt).

Notation "x <- c1 ;; c2" := (bind c1 (fun x => c2))
  (at level 100, c1 at next level, right associativity).

Section Search.

(** The sklearn optimiser behind [model.fit(train.data, train_target,
    train_weight)] on the fold's training data (target and weights as
    [fw_func] of lines 173-174 returns them): from the estimator's
    hyperparameters and current coefficients to the new coefficients, or
    an exception. *)
Variable solve : estimator -> result (list Q).

(** [_predict_w_model_type(model, valid.data)] and
    [metric(valid_target, pred, valid_weight)]. *)
Variable Pred : Type.
Variable predict : estimator -> Pred.
Variable metric : Pred -> Q.

(** [self.timer.time_limit_exceeded()], as a function of what has been
    done so far. *)
Variable time_limit_exceeded : list event -> bool.

(** [self.task.losses['sklearn'].bw_func] *)
Variable bw_func : option Pred -> result (option Pred).

Definition timer_check : M bool := fun tr => (tr, Ok (time_limit_exceeded tr)).

(** [model.fit(...)]: the estimator keeps its hyperparameters and gets
    new coefficients. *)
Definition fit (m : estimator) : M estimator :=
  _ <- emit (EvFit m) ;;
  c <- lift (solve m) ;;
  ret (with_coef c m).

(** Lines 200-203:
    [try: set_params(C=c)  except ValueError: set_params(alpha=c)]. *)
Definition set_strength (c : Q) (m : estimator) : result estimator :=
  match set_params P_C c m with
  | Ok m' => Ok m'
  | Raise ValueError => set_params P_alpha c m
  | Raise e => Raise e
  end.

(** Lines 186-189:
    [try: set_params(l1_ratio=l1_ratio)  except ValueError: pass]. *)
Definition set_l1_ratio_or_pass (l1 : Q) (m : estimator) : result estimator :=
  match set_params P_l1_ratio l1 m with
  | Ok m' => Ok m'
  | Raise ValueError => Ok m
  | Raise e => Raise e
  end.

(** The variables of the inner loop. *)
Record inner_state : Type := mkInner {
  model : estimator;
  c_best_score : fscore;
  c_best_pred : option Pred;
  c_best_model : option estimator;
  es : Z
}.

(** Lines 220-226. *)
Definition update_c_best (score : Q) (pred : Pred) (m : estimator)
    (st : inner_state) : inner_state :=
  if fge (Fin score) (c_best_score st) then
    mkInner m (Fin score) (Some (deepcopy pred)) (Some (deepcopy m)) 0
  else
    mkInner m (c_best_score st) (c_best_pred st) (c_best_model st) (es st + 1).

(** Lines 198-239: [for n, c in enumerate(cs)], from index [n] on; [len]
    is [len(cs)]. *)
Fixpoint inner_loop (l1 : Q) (early_stopping : Z) (len : nat) (n : nat)
    (cs : list Q) (st : inner_state) : M inner_state :=
  match cs with
  | [] => ret st
  | c :: rest =>
      m0 <- lift (set_strength c (model st)) ;;
      m <- fit m0 ;;
      let st1 := mkInner m (c_best_score st) (c_best_pred st)
                   (c_best_model st) (es st) in
      let zero := allclose0 (coefs m) in
      if zero && negb (Nat.eqb n (len - 1)) then
        (* print; continue *)
        inner_loop l1 early_stopping len (S n) rest st1
      else
        _ <- (if zero then emit (EvWarn l1) else ret tt) ;;
        let pred := predict m in
        let score := metric pred in
        let st2 := update_c_best score pred m st1 in
        if (early_stopping <=? es st2)%Z then ret st2
        else
          exceeded <- timer_check ;;
          if (exceeded : bool) then ret st2
          else if all_nonzero (coefs m) then ret st2
          else inner_loop l1 early_stopping len (S n) rest st2
  end.

(** The variables of the outer loop. *)
Record outer_state : Type := mkOuter {
  o_model : estimator;
  best_score : fscore;
  best_pred : option Pred;
  best_model : option estimator
}.

(** Lines 241-244. *)
Definition update_best (ist : inner_state) (st : outer_state) : outer_state :=
  if fge (c_best_score ist) (best_score st) then
    mkOuter (model ist) (c_best_score ist) (deepcopy (c_best_pred ist))
      (deepcopy (c_best_model ist))
  else
    mkOuter (model ist) (best_score st) (best_pred st) (best_model st).

(** Lines 184-248: [for l1_ratio in sorted(l1_ratios, reverse=True)].
    [set_params(l1_ratio=...)] is applied to the estimator of the previous
    iteration, and [model] is then rebound to a fresh copy of [_model]:
    the estimator that was given the ratio is dropped. *)
Fixpoint outer_loop (_model : estimator) (cs : list Q) (early_stopping : Z)
    (l1_ratios : list Q) (st : outer_state) : M outer_state :=
  match l1_ratios with
  | [] => ret st
  | l1 :: rest =>
      _dropped <- lift (set_l1_ratio_or_pass l1 (o_model st)) ;;
      let model0 := deepcopy _model in
      ist <- inner_loop l1 early_stopping (length cs) 0 cs
               (mkInner model0 NegInf None None 0) ;;
      let st' := update_best ist st in
      exceeded <- timer_check ;;
      if (exceeded : bool) then ret st'
      else outer_loop _model cs early_stopping rest st'
  end.

(** Lines 176-248: the two loops, from the estimator of [_infer_params]. *)
Definition path_search (_model : estimator) (cs l1_ratios : list Q)
    (early_stopping : Z) : M outer_state :=
  outer_loop _model cs early_stopping (sorted_desc l1_ratios)
    (mkOuter (deepcopy _model) NegInf None None).

(** [LinearL1CD.fit_predict_single_fold]: the trace, and
    [(best_model, val_pred)] or the exception. *)
Definition fit_predict_single_fold (task_name : string) (p : params)
  : list event * result (option estimator * option Pred) :=
  (inf <- lift (_infer_params task_name p) ;;
   let '(_model, cs, l1_ratios, early_stopping) := inf in
   st <- path_search _model cs (items l1_ratios) early_stopping ;;
   val_pred <- lift (bw_func (best_pred st)) ;;
   ret (best_model st, val_pred)) [].

End Search.

Arguments mkInner {Pred}.
Arguments model {Pred}.
Arguments c_best_score {Pred}.
Arguments c_best_pred {Pred}.
Arguments c_best_model {Pred}.
Arguments es {Pred}.
Arguments mkOuter {Pred}.
Arguments o_model {Pred}.
Arguments best_score {Pred}.
Arguments best_pred {Pred}.
Arguments best_model {Pred}.
Arguments update_c_best {Pred}.
Arguments update_best {Pred}.
Arguments timer_check time_limit_exceeded tr : simpl never.
Arguments fit solve m tr : simpl never.
Arguments inner_loop solve {Pred}.
Arguments outer_loop solve {Pred}.
Arguments path_search solve {Pred}.
Arguments fit_predict_single_fold solve {Pred}.

(** What lines 200-203 leave in the estimator: [C] where the class has it,
    [alpha] otherwise. *)
Definition strength_set (c : Q) (m : estimator) : estimator :=
  with_param (if has_param (klass m) P_C then P_C else P_alpha) c m.

(** The [l1_ratio] of the estimators [_infer_params] builds: it passes none,
    so sklearn's default stands ([0.5] for [ElasticNet], [None] for
    [LogisticRegression]; [Lasso] has no such parameter). *)
Definition default_l1_ratio (k : estimator_class) : option Q :=
  match k with ElasticNet => Some (1 # 2)%Q | _ => None end.

(** The task names [_infer_params] accepts. *)
Definition supported (task : string) : Prop :=
  task = "binary" \/ task = "multiclass" \/ task = "reg".

(** Predicates on traces and results. *)
Section Predicates.

Variable solve : estimator -> result (list Q).
Variable Pred : Type.
Variable predict : estimator -> Pred.

(** The estimator handed to the solver has class [k] and ratio [r]. *)
Definition fit_with (k : estimator_class) (r : option Q) (ev : event) : Prop :=
  match ev with
  | EvFit m => klass m = k /\ l1_ratio m = r
  | EvWarn _ => True
  end.

(** The solver returned from this call. *)
Definition fit_ok (ev : event) : Prop :=
  match ev with
  | EvFit m => is_raise (solve m) = false
  | EvWarn _ => True
  end.

(** Either every call of the solver returned, or the run ended in the
    call that raised. *)
Definition outcome_ok {A} (x : list event * result A) : Prop :=
  match x with
  | (tr, Ok _) => Forall fit_ok tr
  | (tr, Raise e) =>
      exists tr0 m,
        tr = tr0 ++ [EvFit m] /\ Forall fit_ok tr0 /\ solve m = Raise e
  end.

(** The best model is a fitted all-zero model, kept with its
    predictions. *)
Definition degenerate_best (om : option estimator) (op : option Pred) : Prop :=
  exists m, om = Some m /\ allclose0 (coefs m) = true /\ op = Some (predict m).

End Predicates.

Arguments degenerate_best {Pred}.

End LinearSklearn.

(** ** lightautoml/ml_algo/tuning/optuna.py *)

Module OptunaTuning.

(** [direction] of the study. *)
Inductive direction : Type := Maximize | Minimize.

(** Python's [max(a, b)] and [min(a, b)]: the first argument unless the
    second is strictly larger (smaller). *)
Definition pymax (a b : Q) : Q := if Qle_bool b a then a else b.
Definition pymin (a b : Q) : Q := if Qle_bool a b then a else b.

Section Tuner.

(** A dict of hyperparameters, the predictions dataset, a
    [TrainValidIterator], and whatever else an [MLAlgo] holds (its
    models, timer, task). *)
Variables Params Preds Iterator AlgoRest : Type.

(** The attributes of an [MLAlgo] that the tuner reads or writes. *)
Record ml_algo : Type := mkAlgo {
  params : Params;
  is_fitted : bool;
  mean_trial_time : option PrimFloat.float;
  rest : AlgoRest
}.

Definition with_params (p : Params) (a : ml_algo) : ml_algo :=
  mkAlgo p (is_fitted a) (mean_trial_time a) (rest a).

Definition with_mean_trial_time (t : PrimFloat.float) (a : ml_algo) : ml_algo :=
  mkAlgo (params a) (is_fitted a) (Some t) (rest a).

(** One row of [study.trials]. *)
Record frozen_trial : Type := mkTrial {
  number : nat;
  t_params : Params;
  value : Q;
  duration : Q
}.

(** [OptunaTuner]'s attributes. *)
Record tuner : Type := mkTuner {
  timeout : Q;
  n_trials : Z;
  estimated_n_trials : pynum;
  tuner_direction : direction;
  _fit_on_holdout : bool;
  random_state : Z;
  study : list frozen_trial;
  _best_params : option Params
}.

(** [OptunaTuner.__init__] with its defaults
    [timeout=1000, n_trials=100, direction='maximize',
     fit_on_holdout=True, random_state=42]. *)
Definition init (timeout : Q) (n_trials : Z) (d : direction)
    (fit_on_holdout : bool) (random_state : Z) : tuner :=
  mkTuner timeout n_trials (Int n_trials) d fit_on_holdout random_state [] None.

Definition with_timeout (t : Q) (s : tuner) : tuner :=
  mkTuner t (n_trials s) (estimated_n_trials s) (tuner_direction s)
    (_fit_on_holdout s) (random_state s) (study s) (_best_params s).

Definition with_estimated_n_trials (n : pynum) (s : tuner) : tuner :=
  mkTuner (timeout s) (n_trials s) n (tuner_direction s)
    (_fit_on_holdout s) (random_state s) (study s) (_best_params s).

Definition with_study (st : list frozen_trial) (s : tuner) : tuner :=
  mkTuner (timeout s) (n_trials s) (estimated_n_trials s) (tuner_direction s)
    (_fit_on_holdout s) (random_state s) st (_best_params s).

Definition with_best_params (p : Params) (s : tuner) : tuner :=
  mkTuner (timeout s) (n_trials s) (estimated_n_trials s) (tuner_direction s)
    (_fit_on_holdout s) (random_state s) (study s) (Some p).

(** [_upd_timeout] *)
Definition _upd_timeout (s : tuner) (t : Q) : tuner :=
  with_timeout (pymin (timeout s) t) s.

(** The objects: [MLAlgo] instances live in a store and are referred to
    by their address; the tuner is [self]. *)
Record world : Type := mkWorld {
  heap : gmap nat ml_algo;
  self : tuner
}.

(** Collaborators that are not part of these files. *)

(** [ml_algo.timer.estimate_tuner_time(n_folds)] *)
Variable estimate_tuner_time : ml_algo -> nat -> Q.
(** [len(train_valid_iterator)], [type(it) == HoldoutIterator] and
    [convert_to_holdout_iterator()] *)
Variable iter_len : Iterator -> nat.
Variable is_holdout : Iterator -> bool.
Variable convert_to_holdout_iterator : Iterator -> result Iterator.
(** [_ml_algo.trial_params_values(estimated_n_trials, train_valid_iterator,
    trial)]: what the sampler (seeded with [random_state]) suggests after
    the trials so far. *)
Variable trial_params_values :
  ml_algo -> pynum -> Iterator -> Z -> list frozen_trial -> Params.
(** [fit_predict(train_valid_iterator)]: the algo as it is afterwards and
    the predictions; and [score(output_dataset)]. *)
Variable fit_predict : ml_algo -> Iterator -> result (ml_algo * Preds).
Variable score : ml_algo -> Preds -> Q.
(** The wall-clock time trial [i] takes (optuna's
    [datetime_complete - datetime_start]). *)
Variable trial_duration : nat -> Q.
(** [study.trials_dataframe()['duration'].mean().total_seconds()]: the
    float pandas gives for the mean, in seconds, of the durations of the
    trials. *)
Variable duration_mean : list Q -> PrimFloat.float.

(** [deepcopy] of an object in the store: a new object with the same
    attributes. *)
Definition alloc (a : ml_algo) (h : gmap nat ml_algo) : nat * gmap nat ml_algo :=
  let l := fresh (dom h) in (l, <[l := a]> h).

(** The closure returned by [get_objective] (lines 65-74), called on the
    algo at [algo]; [est0] is the value [estimated_n_trials] had when
    [get_objective] was called. Returns the suggested parameters with the
    score. *)
Definition objective (algo : nat) (est0 : pynum) (it : Iterator) (seed : Z)
    (trials : list frozen_trial) (h : gmap nat ml_algo)
  : gmap nat ml_algo * result (Params * Q) :=
  match h !! algo with
  | None => (h, Raise AttributeError)
  | Some a =>
      let '(l, h1) := alloc (deepcopy a) h in
      let p := trial_params_values a est0 it seed trials in
      let a1 := with_params p a in
      let h2 := <[l := a1]> h1 in
      match fit_predict a1 it with
      | Raise e => (h2, Raise e)
      | Ok (a2, out) => (<[l := a2]> h2, Ok (p, score a2 out))
      end
  end.

(** [update_trial_time] (lines 147-156), the callback [fit] hands to
    [study.optimize]; [algo] is the tuner's copy of the algo. Line 155
    has stored the mean when the floor division of line 156 raises. *)
Definition update_trial_time (algo : nat) (w : world) : world * result unit :=
  let mean := duration_mean (map duration (study (self w))) in
  let h := alter (with_mean_trial_time mean) algo (heap w) in
  match floordiv (timeout (self w)) mean with
  | Raise e => (mkWorld h (self w), Raise e)
  | Ok q =>
      let est := num_min (Int (n_trials (self w))) (Float q) in
      (mkWorld h (with_estimated_n_trials est (self w)), Ok tt)
  end.

(** [optuna.study.Study.optimize(func, n_trials, timeout, callbacks)],
    the library's sequential loop: before each trial it stops if
    [n_trials] trials were run or if the time elapsed since the start
    reaches [timeout]; after a trial it calls the callbacks; an exception
    of the objective or of a callback ends the loop and propagates. Time
    passes in the trials only. [fuel] is the number of trials still
    allowed. *)
Fixpoint optimize_loop (algo : nat) (est0 : pynum) (it : Iterator)
    (timeout_arg : Q) (fuel : nat) (elapsed : Q) (w : world)
  : world * result unit :=
  match fuel with
  | O => (w, Ok tt)
  | S fuel' =>
      if Qle_bool timeout_arg elapsed then (w, Ok tt)
      else
        let trials := study (self w) in
        let i := length trials in
        match objective algo est0 it (random_state (self w)) trials (heap w) with
        | (h1, Raise e) => (mkWorld h1 (self w), Raise e)
        | (h1, Ok (p, v)) =>
            let t := mkTrial i p v (trial_duration i) in
            let w1 := mkWorld h1 (with_study (trials ++ [t]) (self w)) in
            match update_trial_time algo w1 with
            | (w2, Raise e) => (w2, Raise e)
            | (w2, Ok _) =>
                optimize_loop algo est0 it timeout_arg fuel'
                  (elapsed + trial_duration i)%Q w2
            end
        end
  end.

Definition optimize (algo : nat) (est0 : pynum) (it : Iterator)
    (n_trials_arg : Z) (timeout_arg : Q) (w : world) : world * result unit :=
  optimize_loop algo est0 it timeout_arg (Z.to_nat n_trials_arg) (0 # 1)%Q w.

(** [study.best_trial]: the library keeps the first trial that attains
    the best value (the largest for [Maximize], the smallest for
    [Minimize]) and raises [ValueError] when no trial is completed. *)
Definition better (d : direction) (a b : Q) : bool :=
  match d with
  | Maximize => negb (Qle_bool a b)
  | Minimize => negb (Qle_bool b a)
  end.

Fixpoint best_from (d : direction) (best : frozen_trial)
    (l : list frozen_trial) : frozen_trial :=
  match l with
  | [] => best
  | t :: l' =>
      best_from d (if better d (value t) (value best) then t else best) l'
  end.

Definition best_trial (d : direction) (trials : list frozen_trial)
  : result frozen_trial :=
  match trials with
  | [] => Raise ValueError
  | t :: l => Ok (best_from d t l)
  end.

(** Lines 160-186: the body of the [try]. [flg] is [flg_new_iterator]. *)
Definition tune (algo : nat) (it : Iterator) (flg : bool) (w : world)
  : world * result (option (nat * Preds)) :=
  let w0 := mkWorld (heap w) (with_study [] (self w)) in
  let est0 := estimated_n_trials (self w0) in
  match optimize algo est0 it (n_trials (self w0)) (timeout (self w0)) w0 with
  | (w1, Raise e) => (w1, Raise e)
  | (w1, Ok _) =>
      match best_trial (tuner_direction (self w1)) (study (self w1)) with
      | Raise e => (w1, Raise e)
      | Ok bt =>
          let s2 := with_best_params (t_params bt) (self w1) in
          match heap w1 !! algo with
          | None => (mkWorld (heap w1) s2, Raise AttributeError)
          | Some a =>
              let a1 := with_params (t_params bt) a in
              let h2 := <[algo := a1]> (heap w1) in
              match fit_predict a1 it with
              | Raise e => (mkWorld h2 s2, Raise e)
              | Ok (a2, preds_ds) =>
                  let w3 := mkWorld (<[algo := a2]> h2) s2 in
                  if flg then (w3, Ok None)
                  else (w3, Ok (Some (algo, preds_ds)))
              end
          end
      end
  end.

(** Lines 133-143 of [fit], on the caller's algo [a]: the timeout is
    clamped, the algo is copied, and the iterator is converted when the
    tuner fits on a holdout and is given something else. Returns the
    address of the copy, the iterator to tune on and
    [flg_new_iterator]. *)
Definition fit_setup (a : ml_algo) (it : Iterator) (w : world)
  : world * result (nat * Iterator * bool) :=
  let estimated_tuning_time := estimate_tuner_time a (iter_len it) in
  let estimated_tuning_time := pymax estimated_tuning_time (1 # 1) in
  let s1 := _upd_timeout (self w) estimated_tuning_time in
  let '(copy, h1) := alloc (deepcopy a) (heap w) in
  let w1 := mkWorld h1 s1 in
  if _fit_on_holdout s1 && negb (is_holdout it) then
    match convert_to_holdout_iterator it with
    | Ok it' => (w1, Ok (copy, it', true))
    | Raise e => (w1, Raise e)
    end
  else (w1, Ok (copy, it, false)).

(** [OptunaTuner.fit] on the algo at address [ml_algo]: [Ok None] is the
    tuple [(None, None)], [Ok (Some (l, preds))] the tuple of the algo at
    [l] and its predictions. *)
Definition fit (ml_algo : nat) (it : Iterator) (w : world)
  : world * result (option (nat * Preds)) :=
  match heap w !! ml_algo with
  | None => (w, Raise AttributeError)
  | Some a =>
      if is_fitted a then (w, Raise AssertionError)
      else
        match fit_setup a it w with
        | (w1, Raise e) => (w1, Raise e)
        | (w1, Ok (copy, it', flg_new_iterator)) =>
            match tune copy it' flg_new_iterator w1 with
            | (w2, Raise OptunaError) => (w2, Ok None)
            | (w2, Raise e) => (w2, Raise e)
            | (w2, Ok r) => (w2, Ok r)
            end
        end
  end.

End Tuner.

Arguments mkAlgo {Params AlgoRest}.
Arguments params {Params AlgoRest}.
Arguments is_fitted {Params AlgoRest}.
Arguments mean_trial_time {Params AlgoRest}.
Arguments rest {Params AlgoRest}.
Arguments with_params {Params AlgoRest}.
Arguments with_mean_trial_time {Params AlgoRest}.
Arguments mkTrial {Params}.
Arguments number {Params}.
Arguments t_params {Params}.
Arguments value {Params}.
Arguments duration {Params}.
Arguments mkTuner {Params}.
Arguments timeout {Params}.
Arguments n_trials {Params}.
Arguments estimated_n_trials {Params}.
Arguments tuner_direction {Params}.
Arguments _fit_on_holdout {Params}.
Arguments random_state {Params}.
Arguments study {Params}.
Arguments _best_params {Params}.
Arguments init {Params}.
Arguments with_timeout {Params}.
Arguments with_estimated_n_trials {Params}.
Arguments with_study {Params}.
Arguments with_best_params {Params}.
Arguments _upd_timeout {Params}.
Arguments mkWorld {Params AlgoRest}.
Arguments heap {Params AlgoRest}.
Arguments self {Params AlgoRest}.
Arguments alloc {Params AlgoRest}.
Arguments objective {Params Preds Iterator AlgoRest}.
Arguments update_trial_time {Params AlgoRest}.
Arguments optimize_loop {Params Preds Iterator AlgoRest}.
Arguments optimize {Params Preds Iterator AlgoRest}.
Arguments better d a b : simpl never.
Arguments best_from {Params}.
Arguments best_trial {Params}.
Arguments tune {Params Preds Iterator AlgoRest}.
Arguments fit_setup {Params Iterator AlgoRest}.
Arguments fit {Params Preds Iterator AlgoRest}.

(** The time elapsed when [k] more trials have run, [i0] trials having run
    before, as [optimize_loop] counts it. *)
Fixpoint elapsed_after (trial_duration : nat -> Q) (i0 k : nat) : Q :=
  match k with
  | O => (0 # 1)%Q
  | S k' => (trial_duration i0 + elapsed_after trial_duration (S i0) k')%Q
  end.

(** The settings of the tuner are the same in [s] and [s']. *)
Definition same_settings {Params} (s s' : tuner Params) : Prop :=
  timeout s' = timeout s /\ n_trials s' = n_trials s /\
  tuner_direction s' = tuner_direction s /\
  _fit_on_holdout s' = _fit_on_holdout s /\
  random_state s' = random_state s.

(** [bt] is the first of the trials that attains the best value. *)
Definition first_best {Params} (d : direction) (bt : frozen_trial Params)
    (trials : list (frozen_trial Params)) : Prop :=
  exists before after,
    trials = before ++ bt :: after /\
    (forall t, In t before -> better d (value bt) (value t) = true) /\
    (forall t, In t after -> better d (value t) (value bt) = false).

(** [est] is the value [update_trial_time] assigns for the trials of the
    study: [min(n_trials, timeout // mean)], the floor division being
    Python's on floats. *)
Definition estimate_of {Params} (duration_mean : list Q -> PrimFloat.float)
    (s : tuner Params) (est : pynum) : Prop :=
  exists q,
    floordiv (timeout s) (duration_mean (map duration (study s))) = Ok q /\
    est = num_min (Int (n_trials s)) (Float q).

(** The estimate as the specification words it: the time still remaining
    in the budget over the mean duration. *)
Definition spec_estimated_affordable_trials (timeout_ : Q) (durations : list Q) : Z :=
  Qfloor ((timeout_ - Qsum durations) / Qmean durations).

End OptunaTuning.

(** ** lightautoml/dataset/utils.py *)

Module DatasetUtils.

(** The classes of datasets: the two the function names, and any other
    subclass of [LAMLDataset]. *)
Inductive dataset_type : Type :=
  | NumpyDataset
  | CSRSparseDataset
  | OtherDataset (id : nat).

#[global] Instance dataset_type_eq_dec : EqDecision dataset_type.
Proof. solve_decision. Defined.

Definition dataset_type_code (k : dataset_type) : nat :=
  match k with
  | NumpyDataset => 0
  | CSRSparseDataset => 1
  | OtherDataset n => S (S n)
  end.

Definition dataset_type_of_code (n : nat) : dataset_type :=
  match n with
  | O => NumpyDataset
  | S O => CSRSparseDataset
  | S (S n) => OtherDataset n
  end.

#[global] Program Instance dataset_type_countable : Countable dataset_type :=
  inj_countable' dataset_type_code dataset_type_of_code _.
Next Obligation. by intros []. Qed.

Section Concat.

Variable Dataset : Type.
(** [type(x)] *)
Variable type_of : Dataset -> dataset_type.
(** [klass.concat(datasets)] *)
Variable concat : dataset_type -> list Dataset -> result Dataset.

(** [get_common_concat]: the class whose [concat] is returned. *)
Definition get_common_concat (datasets : list Dataset) : result dataset_type :=
  let dataset_types : gset dataset_type := list_to_set (map type_of datasets) in
  if bool_decide (size dataset_types = 1%nat) then
    match elements dataset_types with
    | klass :: _ => Ok klass
    | [] => Raise (OtherError 0)
    end
  else if bool_decide (dataset_types = {[NumpyDataset; CSRSparseDataset]}) then
    Ok CSRSparseDataset
  else Raise TypeError.

(** [concatenate]: the calls of a [concat] that were made, and the
    result. *)
Definition concatenate (datasets : list Dataset)
  : list (dataset_type * list Dataset) * result Dataset :=
  match get_common_concat datasets with
  | Raise e => ([], Raise e)
  | Ok conc => ([(conc, datasets)], concat conc datasets)
  end.

End Concat.

End DatasetUtils.

(** ** Concrete runs *)

(** Solvers, metrics and timers on which the regularization path is
    evaluated. A prediction is identified with the estimator that made
    it. *)
Module PathScenarios.

Import LinearSklearn.

Definition grid (cs l1_ratios : list Q) : params :=
  mkParams (1 # 1000) 100 cs 2 (PyTuple l1_ratios) "saga".

(** The penalty strength an estimator is configured with. *)
Definition strength (m : estimator) : Q :=
  if has_param (klass m) P_C then C m else alpha m.

(** A solver that keeps one coefficient, equal to the strength. *)
Definition solve_sparse (m : estimator) : result (list Q) :=
  Ok [strength m; 0 # 1]%Q.

(** A solver that shrinks every coefficient to zero. *)
Definition solve_null (m : estimator) : result (list Q) :=
  Ok [0 # 1; 0 # 1]%Q.

(** A solver that fails at strength [c]. *)
Definition solve_fail_at (c : Q) (m : estimator) : result (list Q) :=
  if Qeq_bool (strength m) c then Raise (OtherError 1) else solve_sparse m.

(** A solver whose coefficient is the mixing ratio it is given. *)
Definition solve_by_ratio (m : estimator) : result (list Q) :=
  Ok [match l1_ratio m with Some r => r | None => (1 # 1)%Q end; 0 # 1]%Q.

Definition predict_id (m : estimator) : estimator := m.

(** Score [0.5] at strength [10], [0.9] elsewhere. *)
Definition metric_table (m : estimator) : Q :=
  if Qeq_bool (strength m) (10 # 1) then (5 # 10)%Q else (9 # 10)%Q.

Definition no_time_limit (tr : list event) : bool := false.

Definition bw_id (p : option estimator) : result (option estimator) := Ok p.

(** [_model] of a binary task on the default parameters. *)
Definition binary_base : estimator :=
  mkEstimator LogisticRegression true (Some PenL1) (1 # 1000) 100
    (Some "saga") None (1 # 1) (1 # 1) None.

(** [_model] of a regression task with several ratios. *)
Definition elastic_base : estimator :=
  mkEstimator ElasticNet true None (1 # 1000) 100 None (Some (1 # 2)%Q)
    (1 # 1) (1 # 1) None.

End PathScenarios.

(** An algo whose parameters are a number, whose predictions are its
    parameters and whose score is a table; the sampler suggests the number
    of the trial. An iterator is identified with its being a holdout
    iterator. *)
Module TunerScenarios.

Import OptunaTuning.

Definition algo : Type := ml_algo nat unit.

Definition unfitted : algo := mkAlgo 0%nat false None tt.
Definition fitted : algo := mkAlgo 0%nat true None tt.

Definition fit_predict (a : algo) (it : bool) : result (algo * nat) :=
  Ok (mkAlgo (params a) true (mean_trial_time a) tt, params a).

(** Score [0.9] for the parameters [1] and [2], [0.5] for the others. *)
Definition score (a : algo) (preds : nat) : Q :=
  match preds with
  | 1%nat | 2%nat => (9 # 10)%Q
  | _ => (5 # 10)%Q
  end.

Definition sampler (a : algo) (est : pynum) (it : bool) (seed : Z)
    (trials : list (frozen_trial nat)) : nat :=
  length trials.

(** The first trial lasts 2, the others 1. *)
Definition first_slow (i : nat) : Q :=
  match i with O => (2 # 1)%Q | _ => (1 # 1)%Q end.

(** Every trial lasts 2. *)
Definition always_two (i : nat) : Q := (2 # 1)%Q.

(** Every trial lasts a tenth of a second. *)
Definition always_tenth (i : nat) : Q := (1 # 10)%Q.

(** The mean of the durations, rounded once to a float. *)
Definition mean_seconds (durations : list Q) : PrimFloat.float :=
  PyFloat.of_Q (Qmean durations).

(** A store with one algo, at address 7, and a tuner. *)
Definition world_of (a : algo) (timeout_ : Q) (n_trials_ : Z)
    (fit_on_holdout : bool) : world nat unit :=
  mkWorld {[ 7%nat := a ]} (init timeout_ n_trials_ Maximize fit_on_holdout 42).

Definition run_fit (trial_duration : nat -> Q) (it : bool) (w : world nat unit)
  : world nat unit * result (option (nat * nat)) :=
  fit (fun _ _ => (1000 # 1)%Q) (fun _ => 5%nat) (fun b => b)
    (fun _ => Ok true) sampler fit_predict score trial_duration mean_seconds
    7%nat it w.

Definition run_optimize (trial_duration : nat -> Q) (n_trials_ : Z)
    (w : world nat unit) : world nat unit * result unit :=
  optimize sampler fit_predict score trial_duration mean_seconds 7%nat
    (Int (n_trials (self w))) true n_trials_ (timeout (self w)) w.

End TunerScenarios.

(** Datasets that hold a number: dense, sparse, or of a third class;
    concatenation adds the numbers up in the class that was asked for. *)
Module ConcatScenarios.

Import DatasetUtils.

Inductive dataset : Type :=
  | Dense (n : nat)
  | Sparse (n : nat)
  | Frame (n : nat).

Definition tag (d : dataset) : dataset_type :=
  match d with
  | Dense _ => NumpyDataset
  | Sparse _ => CSRSparseDataset
  | Frame _ => OtherDataset 0
  end.

Definition content (d : dataset) : nat :=
  match d with Dense n | Sparse n | Frame n => n end.

Definition concat_tag (k : dataset_type) (ds : list dataset) : result dataset :=
  let total := fold_right Nat.add 0%nat (map content ds) in
  match k with
  | NumpyDataset => Ok (Dense total)
  | CSRSparseDataset => Ok (Sparse total)
  | OtherDataset _ => Ok (Frame total)
  end.

End ConcatScenarios.

(** ** Reading a trace of the regularization path *)

Module PathTrace.

Import LinearSklearn.

Section Trace.

Variable solve : estimator -> result (list Q).
Variable Pred : Type.
Variable predict : estimator -> Pred.
Variable metric : Pred -> Q.

(** The estimator after [model.fit] on [m0], when the solver returns. *)
Definition fitted (m0 : estimator) : option estimator :=
  match solve m0 with
  | Ok cf => Some (with_coef cf m0)
  | Raise _ => None
  end.

(** The estimator the last call of [model.fit] in [tr] left, [prev] when
    there is no call. *)
Fixpoint fitted_after (prev : option estimator) (tr : list event)
  : option estimator :=
  match tr with
  | [] => prev
  | EvFit m :: tr' => fitted_after (fitted m) tr'
  | EvWarn _ :: tr' => fitted_after prev tr'
  end.

(** Every call of [model.fit] in [tr] is made on [base] or on the
    estimator the call before it left ([prev] for the first call), with
    nothing changed but the strength, set to a value of [cs]. *)
Fixpoint warm_chain (base : estimator) (cs : list Q)
    (prev : option estimator) (tr : list event) : Prop :=
  match tr with
  | [] => True
  | EvWarn _ :: tr' => warm_chain base cs prev tr'
  | EvFit m :: tr' =>
      (exists c, In c cs /\
         (m = strength_set c base \/
          exists q, prev = Some q /\ m = strength_set c q)) /\
      warm_chain base cs (fitted m) tr'
  end.

(** The score of the fit recorded by [ev], when it returned coefficients
    that are not all zero, is at most [b]. *)
Definition scored_below (b : fscore) (ev : event) : Prop :=
  match ev with
  | EvFit m0 =>
      forall cf, solve m0 = Ok cf -> allclose0 cf = false ->
                 fge b (Fin (metric (predict (with_coef cf m0)))) = true
  | EvWarn _ => True
  end.

(** The best score, predictions and model are those of one fit of the
    trace, or there is none yet. *)
Definition best_of_run (tr : list event) (sc : fscore) (pred : option Pred)
    (best : option estimator) : Prop :=
  (sc = NegInf /\ pred = None /\ best = None) \/
  exists m0 cf,
    In (EvFit m0) tr /\ solve m0 = Ok cf /\
    best = Some (with_coef cf m0) /\
    sc = Fin (metric (predict (with_coef cf m0))) /\
    pred = Some (predict (with_coef cf m0)).

(** The estimator of the loop is [base] or what the last call of
    [model.fit] in [tr] left. *)
Definition warm_state (base : estimator) (m : estimator) (tr : list event) : Prop :=
  m = base \/ fitted_after None tr = Some m.

End Trace.

Arguments scored_below solve {Pred}.
Arguments best_of_run solve {Pred}.

End PathTrace.

(** A timer that reports the limit exceeded at every check. *)
Module PathScenariosMore.

Import LinearSklearn PathScenarios.

Definition always_exceeded (tr : list event) : bool := true.

(** The three fits of the run on strengths [10, 1, 0.1]. *)
Definition fit_10 : estimator :=
  with_coef [10 # 1; 0 # 1]%Q (with_param P_C (10 # 1) binary_base).
Definition fit_1 : estimator :=
  with_coef [1 # 1; 0 # 1]%Q (with_param P_C (1 # 1) fit_10).
Definition fit_01 : estimator :=
  with_coef [1 # 10; 0 # 1]%Q (with_param P_C (1 # 10) fit_1).

End PathScenariosMore.

(** ** lightautoml/dataset/utils.py: [roles_parser] *)

Module RolesParser.

(** A value of [init_roles]: one feature name, or a sequence of names. *)
Inductive feats : Type :=
  | One (f : string)
  | Many (fs : list string).

(** The names a value lists. *)
Definition names (v : feats) : list string :=
  match v with
  | One f => [f]
  | Many fs => fs
  end.

Section Parser.

(** A [ColumnRole] instance or a role name. *)
Variable Role : Type.

(** [roles_parser]: [init_roles] is the dict in its iteration order; the
    result is the dict [roles]. *)
Definition roles_parser (init_roles : list (Role * feats)) : gmap string Role :=
  fold_left
    (fun roles '(r, feat) =>
       match feat with
       | One f => <[f := r]> roles
       | Many fs => fold_left (fun roles f => <[f := r]> roles) fs roles
       end)
    init_roles ∅.

(** The names listed, each with its role, in the order of the loops. *)
Definition listing (init_roles : list (Role * feats)) : list (string * Role) :=
  flat_map (fun '(r, feat) => map (fun f => (f, r)) (names feat)) init_roles.

(** [roles[f] = r] for each pair, in order. *)
Definition assign_all (pairs : list (string * Role)) (roles : gmap string Role)
  : gmap string Role :=
  fold_left (fun roles '(f, r) => <[f := r]> roles) pairs roles.

End Parser.

Arguments roles_parser {Role}.
Arguments listing {Role}.
Arguments assign_all {Role}.

End RolesParser.

(** Datasets for [get_common_concat], in two orders, and a dict of
    roles. *)
Module UtilsScenarios.

Import DatasetUtils ConcatScenarios.

Definition mixed_a : list dataset := [Dense 1; Sparse 2].
Definition mixed_b : list dataset := [Sparse 5; Dense 1; Dense 7].

(** Roles in the old format: two numeric features, one category, and a
    feature listed twice. *)
Definition old_roles : list (string * RolesParser.feats) :=
  [("numeric", RolesParser.Many ["age"; "income"]);
   ("category", RolesParser.One "city");
   ("datetime", RolesParser.Many ["age"; "joined"])].

End UtilsScenarios.

(** ** Predicates on the tuner and its algos *)

Module TunerState.

Import OptunaTuning.

(** The estimate is within the number of trials asked for. *)
Definition bounded_estimate {Params} (s : tuner Params) : Prop :=
  num_le (estimated_n_trials s) (Int (n_trials s)) = true.

(** [a'] is [a] but for [mean_trial_time]. *)
Definition same_but_time {Params AlgoRest} (a a' : ml_algo Params AlgoRest) : Prop :=
  params a' = params a /\ is_fitted a' = is_fitted a /\ rest a' = rest a.

End TunerState.

(** ** lightautoml/ml_algo/linear_sklearn.py: parameters and prediction *)

Module LinearParams.

Import LinearSklearn.

(** The dict of parameters of [LinearL1CD], its numbers as Python holds
    them. *)
Record param_dict : Type := mkDict {
  d_tol : pynum;
  d_max_iter : Z;
  d_cs : list pynum;
  d_early_stopping : Z;
  d_l1_ratios : sequence;
  d_solver : string
}.

(** [_default_params] (lines 96-105): [1e-4] is the float nearest to one
    ten-thousandth, [1] is an int. *)
Definition _default_params : param_dict :=
  mkDict (Float (PyFloat.of_Q (1 # 1000))) 100
    [Float (PyFloat.of_Q (1 # 10000)); Float (PyFloat.of_Q (1 # 1000));
     Float (PyFloat.of_Q (1 # 100)); Float (PyFloat.of_Q (1 # 10));
     Int 1; Int 10; Int 100; Int 1000; Int 10000; Int 100000; Int 1000000]
    2 (PyTuple [1 # 1]%Q) "saga".

(** [x == 0] *)
Definition num_is_zero (x : pynum) : bool :=
  match x with
  | Int z => (z =? 0)%Z
  | Float f => PrimFloat.eqb f PrimFloat.zero
  end.

(** [1 / d] for an int [d] other than 0: the float nearest to the
    quotient. *)
Definition int_inverse (d : Z) : PrimFloat.float :=
  PyFloat.nearest (Z.sgn d) (Z.to_pos (Z.abs d)).

(** [lambda x: 1 / (2 * x)]: the product is an int for an int and a float
    for a float ([2] being made [2.0]); the division is a true division,
    which raises for a divisor equal to zero. *)
Definition half_inverse (x : pynum) : result pynum :=
  match x with
  | Int z =>
      let d := (2 * z)%Z in
      if (d =? 0)%Z then Raise ZeroDivisionError else Ok (Float (int_inverse d))
  | Float f =>
      let d := PrimFloat.mul (PyFloat.of_Z 2) f in
      if PrimFloat.eqb d PrimFloat.zero then Raise ZeroDivisionError
      else Ok (Float (PrimFloat.div (PyFloat.of_Z 1) d))
  end.

(** [list(map(f, xs))] for an [f] that may raise: the first exception
    ends it. *)
Fixpoint map_result {A B} (f : A -> result B) (xs : list A) : result (list B) :=
  match xs with
  | [] => Ok []
  | x :: xs' =>
      match f x with
      | Raise e => Raise e
      | Ok y =>
          match map_result f xs' with
          | Raise e => Raise e
          | Ok ys => Ok (y :: ys)
          end
      end
  end.

Definition with_cs (cs : list pynum) (p : param_dict) : param_dict :=
  mkDict (d_tol p) (d_max_iter p) cs (d_early_stopping p) (d_l1_ratios p)
    (d_solver p).

(** [LinearL1CD.init_params_on_input] (lines 133-143); [has_sklearn_loss]
    is ['sklearn' in task.losses]. *)
Definition init_params_on_input (default_params : param_dict) (task_name : string)
    (has_sklearn_loss : bool) : result param_dict :=
  let suggested_params := default_params in
  if negb has_sklearn_loss then Raise AssertionError
  else if bool_decide (task_name = "reg") then
    match map_result half_inverse (d_cs suggested_params) with
    | Raise e => Raise e
    | Ok cs => Ok (with_cs cs suggested_params)
    end
  else Ok suggested_params.

(** The method of the sklearn estimator that [_predict_w_model_type]
    calls, and what it keeps of the result. *)
Inductive predict_call : Type :=
  | PredictProbaColumn1
  | Predict
  | PredictProba.

(** [LinearL1CD._predict_w_model_type] (lines 145-159): which call is made
    for the task. *)
Definition _predict_w_model_type (task_name : string) : result predict_call :=
  if bool_decide (task_name = "binary") then Ok PredictProbaColumn1
  else if bool_decide (task_name = "reg") then Ok Predict
  else if bool_decide (task_name = "multiclass") then Ok PredictProba
  else Raise ValueError.

(** sklearn: classifiers have [predict_proba]; [Lasso] and [ElasticNet] have
    [predict] only. *)
Definition has_method (k : estimator_class) (c : predict_call) : bool :=
  match k, c with
  | LogisticRegression, _ => true
  | _, Predict => true
  | _, _ => false
  end.

End LinearParams.

(** ** [LinearLBFGS.init_params_on_input] *)

Module LbfgsParams.

(** A two-dimensional array of category codes, by its shape and cells. *)
Record array2 : Type := mkArray {
  n_rows : nat;
  n_cols : nat;
  cell : nat -> nat -> Z
}.

(** What [init_params_on_input] reads of the train dataset. *)
Record train_data : Type := mkTrain {
  features : list string;
  roles : gmap string string;
  data : array2;
  shape_1 : nat
}.

(** The keys [init_params_on_input] sets. *)
Record suggested : Type := mkSuggested {
  categorical_idx : list nat;
  embed_sizes : list Z;
  data_size : nat
}.

(** An [IndexError] and a [KeyError]. *)
Definition IndexError : exn := OtherError 1.
Definition KeyError : exn := OtherError 2.

(** A value as [np.int32] holds it. *)
Definition wrap32 (z : Z) : Z := (z + 2 ^ 31) mod 2 ^ 32 - 2 ^ 31.

(** Lines 54: the positions of the features whose role is named
    ['Category'], from position [n] on; [train.roles[x]] raises [KeyError]
    for a feature without role. *)
Fixpoint category_positions (roles_ : gmap string string) (n : nat)
    (feats : list string) : result (list nat) :=
  match feats with
  | [] => Ok []
  | x :: feats' =>
      match roles_ !! x with
      | None => Raise KeyError
      | Some name =>
          match category_positions roles_ (S n) feats' with
          | Raise e => Raise e
          | Ok idx =>
              if bool_decide (name = "Category") then Ok (n :: idx) else Ok idx
          end
      end
  end.

(** [data[:, idx]]: every index must be a column. *)
Definition select_columns (a : array2) (idx : list nat) : result (list nat) :=
  if forallb (fun j => Nat.ltb j (n_cols a)) idx then Ok idx else Raise IndexError.

(** [.max(axis=0)] of the selected columns: needs a row. *)
Definition column_max (a : array2) (j : nat) : Z :=
  fold_right Z.max (cell a 0 j) (map (fun i => cell a i j) (seq 1 (n_rows a - 1))).

Definition max_axis0 (a : array2) (idx : list nat) : result (list Z) :=
  if Nat.eqb (n_rows a) 0 then Raise ValueError
  else Ok (map (column_max a) idx).

(** [LinearLBFGS.init_params_on_input] (lines 50-62). *)
Definition init_params_on_input (train : train_data) : result suggested :=
  match category_positions (roles train) 0 (features train) with
  | Raise e => Raise e
  | Ok idx =>
      let embed :=
        if Nat.ltb 0 (length idx) then
          match select_columns (data train) idx with
          | Raise e => Raise e
          | Ok cols =>
              match max_axis0 (data train) cols with
              | Raise e => Raise e
              | Ok mx => Ok (map (fun v => wrap32 (wrap32 v + 1)) mx)
              end
          end
        else Ok [] in
      match embed with
      | Raise e => Raise e
      | Ok sizes => Ok (mkSuggested idx sizes (shape_1 train))
      end
  end.

End LbfgsParams.

(** A train dataset with three features, of which the first and the last
    are categories, and two rows. *)
Module LbfgsScenarios.

Import LbfgsParams.

Definition codes (i j : nat) : Z :=
  match i, j with
  | 0%nat, 0%nat => 3
  | 1%nat, 0%nat => 1
  | 0%nat, 2%nat => 0
  | 1%nat, 2%nat => 7
  | _, _ => 50
  end.

Definition small_train : train_data :=
  mkTrain ["city"; "age"; "shop"]
    (<["city" := "Category"]> (<["age" := "Numeric"]> (<["shop" := "Category"]> ∅)))
    (mkArray 2 3 codes) 3.

(** The same features with no row. *)
Definition no_rows : train_data :=
  mkTrain ["age"] (<["age" := "Numeric"]> ∅) (mkArray 0 1 codes) 1.

(** One category feature, and no row. *)
Definition no_rows_category : train_data :=
  mkTrain ["city"] (<["city" := "Category"]> ∅) (mkArray 0 1 codes) 1.

End LbfgsScenarios.

(** ** lightautoml/pipelines/features/base.py: [TabularDataFeatures] *)

Module FeaturesBase.

(** The value of a keyword argument of [get_columns_by_role]. *)
Inductive kwval : Type :=
  | KBool (b : bool)
  | KStr (s : string).

(** What [get_datetime_seasons] reads of a datetime role. *)
Record datetime_role : Type := mkDatetimeRole {
  seasonality : list string;
  country : option string
}.

(** The attributes of [TabularDataFeatures], with the defaults of
    [__init__] below. *)
Record settings : Type := mkSettings {
  multiclass_te : bool;
  top_intersections : Z;
  max_intersection_depth : Z;
  subsample : option Q;
  random_state : Z;
  ascending_by_cardinality : bool;
  max_bin_count : Z
}.

Definition default_settings : settings :=
  mkSettings false 5 3 (Some (10000 # 1)%Q) 42 false 10.

(** A [KeyError]. *)
Definition KeyError : exn := LbfgsParams.KeyError.

(** [l.remove(x)]: the first occurrence goes; [ValueError] when there is
    none. *)
Fixpoint list_remove (x : string) (l : list string) : result (list string) :=
  match l with
  | [] => Raise ValueError
  | y :: l' =>
      if bool_decide (y = x) then Ok l'
      else match list_remove x l' with
           | Ok r => Ok (y :: r)
           | Raise e => Raise e
           end
  end.

(** [l[:n]] *)
Definition slice_to (n : Z) (l : list string) : list string :=
  if 0 <=? n then firstn (Z.to_nat n) l
  else firstn (length l - Z.to_nat (- n)) l.

Section Builders.

(** A column role, and [NumericRole(np.float32)]. *)
Variable Role : Type.
Variable numeric_float32 : Role.

(** The transformers the builders put together. *)
Inductive transformer : Type :=
  | SequentialTransformer (steps : list transformer)
  | ColumnsSelector (keys : list string)
  | BaseDiff (base_names diff_names : list string)
  | DateSeasons (outp_role : Role)
  | ConvertDataset_NumpyDataset
  | ChangeRoles (r : Role)
  | FreqEncoder
  | OrdinalEncoder (subs : option Q) (random_state_ : Z)
  | LabelEncoder (subs : option Q) (random_state_ : Z)
  | QuantileBinning (nbins : Z)
  | CatIntersectstions (subs : option Q) (random_state_ : Z) (max_depth : Z).

(** The train dataset, and what is read of it. [get_columns_by_role] is
    [pipelines/utils.py]'s, with the role name and the keyword arguments;
    [roles_of] is [train.roles] on datetime columns. *)
Variable Train : Type.
Variable get_columns_by_role : Train -> string -> list (string * kwval) -> list string.
Variable roles_of : Train -> gmap string datetime_role.

(** Lines 437-447 of [get_top_categories]: the index of the frame once it
    is sorted by importance, then by cardinality; building the frame reads
    the data and may raise. *)
Variable sorted_by_importance : settings -> Train -> list string -> result (list string).

(** [get_cols_for_datetime] *)
Definition get_cols_for_datetime (train : Train) : list string * list string :=
  let base_dates := get_columns_by_role train "Datetime" [("base_date", KBool true)] in
  let datetimes :=
    get_columns_by_role train "Datetime" [("base_date", KBool false)] ++
    get_columns_by_role train "Datetime"
      [("base_date", KBool true); ("base_feats", KBool true)] in
  (base_dates, datetimes).

(** [get_datetime_diffs] *)
Definition get_datetime_diffs (train : Train) : option transformer :=
  let '(base_dates, datetimes) := get_cols_for_datetime train in
  if Nat.eqb (length datetimes) 0 || Nat.eqb (length base_dates) 0 then None
  else Some (SequentialTransformer
               [ColumnsSelector (datetimes ++ base_dates);
                BaseDiff base_dates datetimes]).

(** The condition of line 181: no seasonality and no country. *)
Definition unseasonal (r : datetime_role) : bool :=
  Nat.eqb (length (seasonality r)) 0 &&
  match country r with None => true | Some _ => false end.

(** Lines 180-182: [for col in copy(datetimes)], on the columns still to
    visit; [datetimes] is the list that is mutated. *)
Fixpoint drop_unseasonal (roles_ : gmap string datetime_role)
    (todo : list string) (datetimes : list string) : result (list string) :=
  match todo with
  | [] => Ok datetimes
  | col :: todo' =>
      match roles_ !! col with
      | None => Raise KeyError
      | Some r =>
          if unseasonal r then
            match list_remove col datetimes with
            | Raise e => Raise e
            | Ok datetimes' => drop_unseasonal roles_ todo' datetimes'
            end
          else drop_unseasonal roles_ todo' datetimes
      end
  end.

(** [get_datetime_seasons] *)
Definition get_datetime_seasons (train : Train) (outp_role : option Role)
  : result (option transformer) :=
  let '(_, datetimes) := get_cols_for_datetime train in
  match drop_unseasonal (roles_of train) datetimes datetimes with
  | Raise e => Raise e
  | Ok datetimes =>
      if Nat.eqb (length datetimes) 0 then Ok None
      else
        let outp_role :=
          match outp_role with None => numeric_float32 | Some r => r end in
        Ok (Some (SequentialTransformer
                    [ColumnsSelector datetimes; DateSeasons outp_role]))
  end.

(** [get_numeric_data] *)
Definition get_numeric_data (train : Train) (feats_to_select : option (list string))
    (prob : option bool) : option transformer :=
  let feats_to_select :=
    match feats_to_select with
    | Some fs => fs
    | None =>
        match prob with
        | None => get_columns_by_role train "Numeric" []
        | Some b => get_columns_by_role train "Numeric" [("prob", KBool b)]
        end
    end in
  if Nat.eqb (length feats_to_select) 0 then None
  else Some (SequentialTransformer
               [ColumnsSelector feats_to_select; ConvertDataset_NumpyDataset;
                ChangeRoles numeric_float32]).

(** [get_freq_encoding] *)
Definition get_freq_encoding (train : Train) (feats_to_select : option (list string))
  : option transformer :=
  let feats_to_select :=
    match feats_to_select with
    | Some fs => fs
    | None => get_columns_by_role train "Category" [("encoding_type", KStr "freq")]
    end in
  if Nat.eqb (length feats_to_select) 0 then None
  else Some (SequentialTransformer [ColumnsSelector feats_to_select; FreqEncoder]).

(** [get_ordinal_encoding] *)
Definition get_ordinal_encoding (self : settings) (train : Train)
    (feats_to_select : option (list string)) : option transformer :=
  let feats_to_select :=
    match feats_to_select with
    | Some fs => fs
    | None => get_columns_by_role train "Category" [("ordinal", KBool true)]
    end in
  if Nat.eqb (length feats_to_select) 0 then None
  else Some (SequentialTransformer
               [ColumnsSelector feats_to_select;
                OrdinalEncoder (subsample self) (random_state self)]).

(** [get_categorical_raw] *)
Definition get_categorical_raw (self : settings) (train : Train)
    (feats_to_select : option (list string)) : option transformer :=
  let feats_to_select :=
    match feats_to_select with
    | Some fs => fs
    | None =>
        flat_map
          (fun i => get_columns_by_role train "Category" [("encoding_type", KStr i)])
          ["auto"; "oof"; "int"; "ohe"]
    end in
  if Nat.eqb (length feats_to_select) 0 then None
  else Some (SequentialTransformer
               [ColumnsSelector feats_to_select;
                LabelEncoder (subsample self) (random_state self)]).

(** [get_binned_data] *)
Definition get_binned_data (self : settings) (train : Train)
    (feats_to_select : option (list string)) : option transformer :=
  let feats_to_select :=
    match feats_to_select with
    | Some fs => fs
    | None => get_columns_by_role train "Numeric" [("discretization", KBool true)]
    end in
  if Nat.eqb (length feats_to_select) 0 then None
  else Some (SequentialTransformer
               [ColumnsSelector feats_to_select; QuantileBinning (max_bin_count self)]).

(** [get_top_categories] *)
Definition get_top_categories (self : settings) (train : Train) (top_n : Z)
  : result (list string) :=
  if (max_intersection_depth self <=? 1) || (top_intersections self <=? 1) then Ok []
  else
    let cats := get_columns_by_role train "Category" [] in
    if Nat.eqb (length cats) 0 then Ok []
    else
      match sorted_by_importance self train cats with
      | Raise e => Raise e
      | Ok index => Ok (slice_to top_n index)
      end.

(** [get_categorical_intersections] *)
Definition get_categorical_intersections (self : settings) (train : Train)
    (feats_to_select : option (list string)) : result (option transformer) :=
  let build feats :=
    Ok (Some (SequentialTransformer
                [ColumnsSelector feats;
                 CatIntersectstions (subsample self) (random_state self)
                   (max_intersection_depth self)])) in
  match feats_to_select with
  | None =>
      let categories := get_columns_by_role train "Category" [] in
      if (length categories <=? 1)%nat then Ok None
      else if top_intersections self <? Z.of_nat (length categories) then
        match get_top_categories self train (top_intersections self) with
        | Raise e => Raise e
        | Ok top => build top
        end
      else build categories
  | Some feats =>
      if (length feats <=? 1)%nat then Ok None else build feats
  end.

(** The columns a pipeline starts by selecting. *)
Definition selected (t : transformer) : option (list string) :=
  match t with
  | SequentialTransformer (ColumnsSelector keys :: _) => Some keys
  | _ => None
  end.

(** The condition of line 181 on a column name; a column without role
    counts as without season. *)
Definition seasonal (roles_ : gmap string datetime_role) (col : string) : bool :=
  match roles_ !! col with
  | Some r => negb (unseasonal r)
  | None => false
  end.

End Builders.

Arguments SequentialTransformer {Role}.
Arguments ColumnsSelector {Role}.
Arguments BaseDiff {Role}.
Arguments DateSeasons {Role}.
Arguments ConvertDataset_NumpyDataset {Role}.
Arguments ChangeRoles {Role}.
Arguments FreqEncoder {Role}.
Arguments OrdinalEncoder {Role}.
Arguments LabelEncoder {Role}.
Arguments QuantileBinning {Role}.
Arguments CatIntersectstions {Role}.
Arguments selected {Role}.

End FeaturesBase.

(** Datasets and settings on which the builders are run. *)
Module FeaturesScenarios.
Import FeaturesBase.

Record toy_train : Type := mkToy {
  dates : list string;
  base : list string;
  base_feats_ : list string;
  cats : list string;
  nums : list string;
  date_roles : gmap string datetime_role
}.

Definition toy_columns (t : toy_train) (role : string) (kw : list (string * kwval))
  : list string :=
  if String.eqb role "Datetime" then
    match kw with
    | [(_, KBool false)] => dates t
    | [(_, KBool true)] => base t
    | _ => base_feats_ t
    end
  else if String.eqb role "Category" then cats t
  else nums t.

(** A ranking that lists the categories in reverse. *)
Definition toy_rank (s : settings) (t : toy_train) (l : list string)
  : result (list string) := Ok (rev l).

Definition with_season : datetime_role := mkDatetimeRole ["y"; "m"] None.
Definition with_country : datetime_role := mkDatetimeRole [] (Some "US").
Definition bare : datetime_role := mkDatetimeRole [] None.

Definition calendar : toy_train :=
  mkToy ["d1"; "d2"; "d3"] ["b"] ["d2"]
    ["c1"; "c2"; "c3"; "c4"] ["n1"]
    (<["d1" := bare]> (<["d2" := with_season]> (<["d3" := with_country]> ∅))).

(** [calendar], with a column the roles do not know. *)
Definition calendar_unknown : toy_train :=
  mkToy ["d1"; "d9"] ["b"] [] ["c1"] [] (<["d1" := bare]> ∅).

Definition top_two : settings := mkSettings false 2 3 (Some (10000 # 1)%Q) 42 false 10.
Definition top_one : settings := mkSettings false 1 3 (Some (10000 # 1)%Q) 42 false 10.

End FeaturesScenarios.

(** ** Ties on the regularization path *)

Module PathTies.

Import LinearSklearn.

Section Ties.

Variable solve : estimator -> result (list Q).
Variable Pred : Type.
Variable predict : estimator -> Pred.
Variable metric : Pred -> Q.

(** The score of the fit recorded by [ev], when it returned coefficients
    that are not all zero, is strictly below [b]. *)
Definition scored_strictly_below (b : fscore) (ev : event) : Prop :=
  match ev with
  | EvFit m0 =>
      forall cf, solve m0 = Ok cf -> allclose0 cf = false ->
                 fge (Fin (metric (predict (with_coef cf m0)))) b = false
  | EvWarn _ => True
  end.

(** The best score and model are those of a fit of [tr] after which
    every scored fit is strictly below that score, or there is none
    yet. *)
Definition last_best (tr : list event) (sc : fscore) (best : option estimator)
  : Prop :=
  (sc = NegInf /\ best = None) \/
  exists pre m0 cf post,
    tr = pre ++ EvFit m0 :: post /\ solve m0 = Ok cf /\
    best = Some (with_coef cf m0) /\
    sc = Fin (metric (predict (with_coef cf m0))) /\
    Forall (scored_strictly_below sc) post.

End Ties.

Arguments scored_strictly_below solve {Pred}.
Arguments last_best solve {Pred}.

End PathTies.

(** The run on strengths [10, 1, 0.1] for a regression. *)
Module TieScenarios.

Import LinearSklearn PathScenarios.

(** How strongly an estimator is regularized, as sklearn documents its
    parameters: [alpha] multiplies the penalty of [Lasso] and
    [ElasticNet]; [C] is the inverse of the regularization strength of
    [LogisticRegression]. *)
Definition regularization (m : estimator) : Q :=
  match klass m with
  | LogisticRegression => (/ C m)%Q
  | Lasso | ElasticNet => alpha m
  end.

(** [_model] of a regression task with the ratios [(1,)]. *)
Definition lasso_base : estimator :=
  mkEstimator Lasso true None (1 # 1000) 100 None None (1 # 1) (1 # 1) None.

(** The three fits of the run. *)
Definition lasso_10 : estimator :=
  with_coef [10 # 1; 0 # 1]%Q (with_param P_alpha (10 # 1) lasso_base).
Definition lasso_1 : estimator :=
  with_coef [1 # 1; 0 # 1]%Q (with_param P_alpha (1 # 1) lasso_10).
Definition lasso_01 : estimator :=
  with_coef [1 # 10; 0 # 1]%Q (with_param P_alpha (1 # 10) lasso_1).

End TieScenarios.

(** * Properties of the regularization path of [LinearL1CD] *)

Module PathSearchFacts.

Import LinearSklearn.

#[local] Arguments allclose0 : simpl never.
#[local] Arguments all_nonzero : simpl never.
#[local] Arguments update_c_best : simpl never.

Section Facts.
Variable solve : estimator -> result (list Q).
Variable Pred : Type.
Variable predict : estimator -> Pred.
Variable metric : Pred -> Q.
Variable time_limit_exceeded : list event -> bool.
Variable bw_func : option Pred -> result (option Pred).

Abbreviation inner_loop := (inner_loop solve predict metric time_limit_exceeded).
Abbreviation outer_loop := (outer_loop solve predict metric time_limit_exceeded).
Abbreviation path_search := (path_search solve predict metric time_limit_exceeded).
Abbreviation fit_predict_single_fold :=
  (fit_predict_single_fold solve predict metric time_limit_exceeded bw_func).

Lemma set_strength_total c m : set_strength c m = Ok (strength_set c m).
Proof. unfold set_strength, set_params, strength_set. by destruct (klass m). Qed.

Lemma l1_ratio_strength_set c m : l1_ratio (strength_set c m) = l1_ratio m.
Proof. unfold strength_set. by destruct (has_param _ _). Qed.

Lemma klass_strength_set c m : klass (strength_set c m) = klass m.
Proof. unfold strength_set. by destruct (has_param _ _). Qed.

(** One pass of the inner loop body, unfolded. *)
Lemma inner_loop_cons l1 stop len n c rest st tr :
  inner_loop l1 stop len n (c :: rest) st tr =
  let m0 := strength_set c (model st) in
  match solve m0 with
  | Raise e => (tr ++ [EvFit m0], Raise e)
  | Ok cf =>
      let m := with_coef cf m0 in
      let st1 := mkInner m (c_best_score st) (c_best_pred st) (c_best_model st)
                   (LinearSklearn.es st) in
      let tr1 := tr ++ [EvFit m0] in
      if allclose0 cf && negb (Nat.eqb n (len - 1)) then
        inner_loop l1 stop len (S n) rest st1 tr1
      else
        let tr2 := if allclose0 cf then tr1 ++ [EvWarn l1] else tr1 in
        let st2 := update_c_best (metric (predict m)) (predict m) m st1 in
        if (stop <=? LinearSklearn.es st2)%Z then (tr2, Ok st2)
        else if time_limit_exceeded tr2 then (tr2, Ok st2)
        else if all_nonzero cf then (tr2, Ok st2)
        else inner_loop l1 stop len (S n) rest st2 tr2
  end.
Proof.
  cbn [LinearSklearn.inner_loop]. unfold bind at 1, lift at 1.
  rewrite set_strength_total. unfold bind at 1.
  unfold fit, bind, lift, emit, ret.
  destruct (solve _) as [cf|e]; [|done]. cbv zeta.
  unfold coefs; cbn [coef_ with_coef].
  destruct (allclose0 cf); cbn [andb].
  - destruct (negb _); [done|].
    destruct (_ <=? _)%Z; [done|]. unfold timer_check.
    destruct (time_limit_exceeded _); [done|]. by destruct (all_nonzero cf).
  - destruct (_ <=? _)%Z; [done|]. unfold timer_check.
    destruct (time_limit_exceeded _); [done|]. by destruct (all_nonzero cf).
Qed.

Lemma set_l1_ratio_or_pass_total l1 m :
  exists m', set_l1_ratio_or_pass l1 m = Ok m'.
Proof.
  unfold set_l1_ratio_or_pass, set_params.
  destruct (has_param _ _); eauto.
Qed.

Lemma outer_loop_cons base cs stop l1 rest st tr :
  outer_loop base cs stop (l1 :: rest) st tr =
  match inner_loop l1 stop (length cs) 0 cs (mkInner base NegInf None None 0) tr with
  | (tr1, Raise e) => (tr1, Raise e)
  | (tr1, Ok ist) =>
      let st' := update_best ist st in
      if time_limit_exceeded tr1 then (tr1, Ok st')
      else outer_loop base cs stop rest st' tr1
  end.
Proof.
  cbn [LinearSklearn.outer_loop]. unfold bind at 1, lift at 1.
  destruct (set_l1_ratio_or_pass_total l1 (o_model st)) as [m' ->].
  unfold bind, deepcopy.
  destruct (inner_loop _ _ _ _ _ _ _) as [tr1 [ist|e]]; [|done].
  unfold timer_check. by destruct (time_limit_exceeded tr1).
Qed.

Lemma outer_loop_nil base cs stop st tr :
  outer_loop base cs stop [] st tr = (tr, Ok st).
Proof. done. Qed.

Lemma update_c_best_first s p m (st : inner_state Pred) :
  c_best_score st = NegInf ->
  update_c_best s p m st = mkInner m (Fin s) (Some p) (Some m) 0.
Proof. unfold update_c_best. by intros ->. Qed.

Lemma model_update_c_best s p m (st : inner_state Pred) :
  model (update_c_best s p m st) = m.
Proof. unfold update_c_best. by destruct (fge _ _). Qed.

(** *** The ratio the solver sees *)

Lemma inner_loop_fit_with k r l1 stop len cs :
  forall n st tr,
    klass (model st) = k -> l1_ratio (model st) = r ->
    Forall (fit_with k r) tr ->
    Forall (fit_with k r) (inner_loop l1 stop len n cs st tr).1.
Proof.
  induction cs as [|c rest IH]; intros n st tr Hk Hm Htr; [done|].
  rewrite inner_loop_cons. cbv zeta.
  assert (Hfit : Forall (fit_with k r) (tr ++ [EvFit (strength_set c (model st))])).
  { apply Forall_app; split; [done|]. constructor; [|done].
    cbn. by rewrite klass_strength_set, l1_ratio_strength_set. }
  destruct (solve _) as [cf|e]; [|done].
  assert (Hwarn : Forall (fit_with k r)
            ((tr ++ [EvFit (strength_set c (model st))]) ++ [EvWarn l1])).
  { apply Forall_app; split; [done|]. by constructor. }
  assert (Hk' : klass (with_coef cf (strength_set c (model st))) = k).
  { cbn. by rewrite klass_strength_set. }
  assert (Hm' : l1_ratio (with_coef cf (strength_set c (model st))) = r).
  { cbn. by rewrite l1_ratio_strength_set. }
  destruct (allclose0 cf); cbn [andb].
  - destruct (negb _); [by apply IH|].
    repeat case_match; try done.
    apply IH; [by rewrite model_update_c_best..|done].
  - repeat case_match; try done.
    apply IH; [by rewrite model_update_c_best..|done].
Qed.

Lemma outer_loop_fit_with base cs stop l1s :
  forall st tr,
    Forall (fit_with (klass base) (l1_ratio base)) tr ->
    Forall (fit_with (klass base) (l1_ratio base))
      (outer_loop base cs stop l1s st tr).1.
Proof.
  induction l1s as [|l1 rest IH]; intros st tr Htr; [done|].
  rewrite outer_loop_cons.
  pose proof (inner_loop_fit_with (klass base) (l1_ratio base) l1 stop
                (length cs) cs 0%nat
                (mkInner base NegInf None None 0) tr eq_refl eq_refl Htr) as Hin.
  destruct (inner_loop _ _ _ _ _ _ _) as [tr1 [ist|e]]; [|done].
  cbv zeta. destruct (time_limit_exceeded tr1); [done|]. by apply IH.
Qed.

Lemma infer_params_default_ratio task p base cs l1s stop :
  _infer_params task p = Ok (base, cs, l1s, stop) ->
  l1_ratio base = default_l1_ratio (klass base).
Proof.
  unfold _infer_params. intros H.
  repeat case_match; simplify_eq; done.
Qed.

(** *** Solver errors *)

Lemma inner_loop_outcome l1 stop len cs :
  forall n st tr,
    Forall (fit_ok solve) tr -> outcome_ok solve (inner_loop l1 stop len n cs st tr).
Proof.
  induction cs as [|c rest IH]; intros n st tr Htr; [done|].
  rewrite inner_loop_cons. cbv zeta.
  destruct (solve (strength_set c (model st))) as [cf|e] eqn:Hs.
  - assert (Hfit : Forall (fit_ok solve) (tr ++ [EvFit (strength_set c (model st))])).
    { apply Forall_app; split; [done|]. constructor; [|done]. cbn. by rewrite Hs. }
    assert (Hwarn : Forall (fit_ok solve)
              ((tr ++ [EvFit (strength_set c (model st))]) ++ [EvWarn l1])).
    { apply Forall_app; split; [done|]. by constructor. }
    destruct (allclose0 cf); cbn [andb].
    + destruct (negb _); [by apply IH|].
      repeat case_match; try done. by apply IH.
    + repeat case_match; try done. by apply IH.
  - cbn. eauto.
Qed.

Lemma outer_loop_outcome base cs stop l1s :
  forall st tr,
    Forall (fit_ok solve) tr -> outcome_ok solve (outer_loop base cs stop l1s st tr).
Proof.
  induction l1s as [|l1 rest IH]; intros st tr Htr; [done|].
  rewrite outer_loop_cons.
  pose proof (inner_loop_outcome l1 stop (length cs) cs 0%nat
                (mkInner base NegInf None None 0) tr Htr) as Hin.
  destruct (inner_loop _ _ _ _ _ _ _) as [tr1 [ist|e]]; [|done].
  cbv zeta. destruct (time_limit_exceeded tr1); [done|]. by apply IH.
Qed.

Lemma fit_ok_not_raise tr m e :
  Forall (fit_ok solve) tr -> In (EvFit m) tr -> solve m = Raise e -> False.
Proof.
  intros Hall Hin Hs. rewrite Forall_forall in Hall.
  apply list_elem_of_In in Hin. specialize (Hall _ Hin). cbn in Hall.
  by rewrite Hs in Hall.
Qed.

Lemma fit_predict_single_fold_eq task p :
  fit_predict_single_fold task p =
  match _infer_params task p with
  | Raise e => ([], Raise e)
  | Ok (base, cs, l1s, stop) =>
      match path_search base cs (items l1s) stop [] with
      | (tr, Raise e) => (tr, Raise e)
      | (tr, Ok st) =>
          match bw_func (best_pred st) with
          | Ok v => (tr, Ok (best_model st, v))
          | Raise e => (tr, Raise e)
          end
      end
  end.
Proof.
  unfold LinearSklearn.fit_predict_single_fold, bind, lift, ret.
  destruct (_infer_params task p) as [[[[base cs] l1s] stop]|e0]; [|done].
  destruct (path_search _ _ _ _ _) as [tr [st|e']]; [|done].
  by destruct (bw_func _).
Qed.

(** Whatever [l1_ratios] holds, every call of [model.fit] gets an
    estimator whose [l1_ratio] is the default of its class: line 187 sets
    the ratio on the estimator that line 191 replaces by a fresh copy of
    [_model]. *)
Lemma fit_never_sees_outer_value task p :
  Forall (fun ev => match ev with
                    | EvFit m => l1_ratio m = default_l1_ratio (klass m)
                    | EvWarn _ => True
                    end)
    (fit_predict_single_fold task p).1.
Proof.
  rewrite fit_predict_single_fold_eq.
  destruct (_infer_params task p) as [[[[base cs] l1s] stop]|e0] eqn:Hinf; [|done].
  pose proof (infer_params_default_ratio _ _ _ _ _ _ Hinf) as Hdef.
  pose proof (outer_loop_fit_with base cs stop (sorted_desc (items l1s))
                (mkOuter (deepcopy base) NegInf None None) [] (Forall_nil_2 _)) as Hout.
  unfold LinearSklearn.path_search.
  destruct (outer_loop _ _ _ _ _ _) as [tr r]. cbn [fst] in Hout.
  assert (Hall : Forall (fun ev => match ev with
                    | EvFit m => l1_ratio m = default_l1_ratio (klass m)
                    | EvWarn _ => True
                    end) tr).
  { eapply Forall_impl; [exact Hout|]. intros [m|l1]; [|done].
    cbn. intros [-> ->]. done. }
  destruct r as [st|e]; [|done]. by destruct (bw_func _).
Qed.

(** C5 (amended). An exception of the solver at any cell is not caught:
    if a call of [model.fit] made by the search raised [e], the search
    raised [e] and that call was the last thing it did, so no later cell
    was fitted, whether or not other cells had fitted before. *)
Theorem solver_error_aborts_search task p m e :
  In (EvFit m) (fit_predict_single_fold task p).1 ->
  solve m = Raise e ->
  (fit_predict_single_fold task p).2 = Raise e /\
  last (fit_predict_single_fold task p).1 = Some (EvFit m).
Proof.
  rewrite fit_predict_single_fold_eq.
  destruct (_infer_params task p) as [[[[base cs] l1s] stop]|e0]; [|done].
  pose proof (outer_loop_outcome base cs stop (sorted_desc (items l1s))
                (mkOuter (deepcopy base) NegInf None None) [] (Forall_nil_2 _)) as Hout.
  unfold LinearSklearn.path_search.
  destruct (outer_loop _ _ _ _ _ _) as [tr [st|e']]; cbn in Hout.
  - intros Hin Hs. exfalso.
    assert (Hin' : In (EvFit m) tr) by (by destruct (bw_func _)).
    eauto using fit_ok_not_raise.
  - destruct Hout as (tr0 & m' & -> & Hok & Hs'). cbn.
    intros Hin Hs. apply in_app_or in Hin as [Hin|[Heq|[]]].
    + exfalso. eauto using fit_ok_not_raise.
    + injection Heq as ->. rewrite Hs in Hs'. injection Hs' as ->.
      split; [done|]. by rewrite last_snoc.
Qed.

(** *** Sorting keeps the outer values *)

Lemma length_insert_desc x l : length (insert_desc x l) = S (length l).
Proof.
  induction l as [|y l IH]; [done|]. cbn. destruct (Qle_bool y x); cbn; lia.
Qed.

Lemma length_sorted_desc l : length (sorted_desc l) = length l.
Proof.
  induction l as [|x l IH]; [done|].
  change (sorted_desc (x :: l)) with (insert_desc x (sorted_desc l)).
  rewrite length_insert_desc, IH. done.
Qed.

(** *** Empty list of strengths *)

Lemma outer_loop_no_cells base stop l1s :
  forall st tr,
    best_score st = NegInf -> best_pred st = None -> best_model st = None ->
    exists st',
      outer_loop base [] stop l1s st tr = (tr, Ok st') /\
      best_pred st' = None /\ best_model st' = None.
Proof.
  induction l1s as [|l1 rest IH]; intros st tr Hs Hp Hm; [by exists st|].
  rewrite outer_loop_cons. cbn [LinearSklearn.inner_loop ret]. cbv zeta.
  unfold update_best. cbn [c_best_score c_best_pred c_best_model model].
  rewrite Hs. cbn [fge]. unfold deepcopy.
  destruct (time_limit_exceeded tr); [by eexists|]. by apply IH.
Qed.

Lemma infer_params_supported task p :
  supported task ->
  exists base, _infer_params task p = Ok (base, p_cs p, p_l1_ratios p, p_early_stopping p).
Proof.
  unfold _infer_params. intros [-> | [-> | ->]]; cbn; eauto.
Qed.

Lemma infer_params_unsupported task p :
  ~ supported task -> _infer_params task p = Raise AttributeError.
Proof.
  unfold _infer_params, supported. intros H.
  repeat case_bool_decide; cbn; try done; exfalso; eauto.
Qed.

(** C3 (amended). With an empty sequence of strengths the search calls the
    solver zero times and raises nothing of its own: on a supported task
    it ends with no best model and hands [None] to [bw_func], whose
    outcome it returns; on an unsupported task [_infer_params] raises
    [AttributeError]. *)
Theorem empty_cs_no_fit_no_check task p :
  p_cs p = [] ->
  (fit_predict_single_fold task p).1 = [] /\
  (supported task ->
   (fit_predict_single_fold task p).2 =
     match bw_func None with
     | Ok v => Ok (None, v)
     | Raise e => Raise e
     end) /\
  (~ supported task -> (fit_predict_single_fold task p).2 = Raise AttributeError).
Proof.
  intros Hcs. rewrite fit_predict_single_fold_eq.
  split; [|split].
  - destruct (_infer_params task p) as [[[[base cs] l1s] stop]|e0] eqn:Hinf; [|done].
    assert (cs = []) as ->.
    { unfold _infer_params in Hinf. repeat case_match; naive_solver. }
    unfold LinearSklearn.path_search.
    destruct (outer_loop_no_cells base stop (sorted_desc (items l1s))
                (mkOuter (deepcopy base) NegInf None None) [] eq_refl eq_refl eq_refl)
      as (st' & -> & Hp & Hm).
    by destruct (bw_func _).
  - intros Hsup. destruct (infer_params_supported task p Hsup) as [base ->].
    rewrite Hcs. unfold LinearSklearn.path_search.
    destruct (outer_loop_no_cells base (p_early_stopping p) (sorted_desc (items (p_l1_ratios p)))
                (mkOuter (deepcopy base) NegInf None None) [] eq_refl eq_refl eq_refl)
      as (st' & -> & -> & ->).
    by destruct (bw_func _).
  - intros Hno. by rewrite infer_params_unsupported.
Qed.

(** *** Every cell degenerate *)

Lemma warnings_app tr1 tr2 : warnings (tr1 ++ tr2) = warnings tr1 ++ warnings tr2.
Proof. apply filter_app. Qed.

Section AllDegenerate.
Hypothesis Hdeg : forall m, exists cf, solve m = Ok cf /\ allclose0 cf = true.

Lemma inner_loop_degenerate l1 stop len cs :
  forall n st tr,
    cs <> [] -> (n + length cs = len)%nat -> c_best_score st = NegInf ->
    exists tr' st',
      inner_loop l1 stop len n cs st tr = (tr', Ok st') /\
      warnings tr' = warnings tr ++ [EvWarn l1] /\
      (exists s, c_best_score st' = Fin s) /\
      degenerate_best predict (c_best_model st') (c_best_pred st').
Proof.
  induction cs as [|c rest IH]; intros n st tr Hne Hlen Hbest; [done|].
  rewrite inner_loop_cons. cbv zeta.
  destruct (Hdeg (strength_set c (model st))) as (cf & -> & Hz).
  rewrite Hz. cbn [andb].
  destruct rest as [|c2 rest].
  - assert (Nat.eqb n (len - 1) = true) as ->.
    { apply Nat.eqb_eq. cbn in Hlen. lia. }
    cbn [negb]. rewrite update_c_best_first by done.
    cbn [es inner_loop].
    exists ((tr ++ [EvFit (strength_set c (model st))]) ++ [EvWarn l1]).
    eexists. split; [by repeat case_match|].
    split; [by rewrite !warnings_app, app_nil_r|].
    split; [cbn; eauto|].
    eexists. cbn [c_best_model c_best_pred].
    split; [done|]. split; [|done].
    unfold coefs. cbn [coef_ with_coef]. exact Hz.
  - assert (Nat.eqb n (len - 1) = false) as ->.
    { apply Nat.eqb_neq. cbn in Hlen. lia. }
    cbn [negb].
    destruct (IH (S n) (mkInner (with_coef cf (strength_set c (model st)))
                      (c_best_score st) (c_best_pred st) (c_best_model st) (es st))
                (tr ++ [EvFit (strength_set c (model st))]))
      as (tr' & st' & -> & Hw & Hs & Hb); [done|cbn in *; lia|done|].
    exists tr', st'. split; [done|]. split; [|done].
    by rewrite Hw, warnings_app, app_nil_r.
Qed.

Lemma outer_loop_degenerate base cs stop l1s :
  forall st tr,
    cs <> [] ->
    best_score st = NegInf \/ degenerate_best predict (best_model st) (best_pred st) ->
    exists k tr' st',
      outer_loop base cs stop l1s st tr = (tr', Ok st') /\
      (k <= length l1s)%nat /\ (l1s <> [] -> 1 <= k)%nat /\
      warnings tr' = warnings tr ++ map EvWarn (firstn k l1s) /\
      (l1s <> [] -> degenerate_best predict (best_model st') (best_pred st')) /\
      ((forall t, time_limit_exceeded t = false) -> k = length l1s).
Proof.
  induction l1s as [|l1 rest IH]; intros st tr Hne Hinv.
  - exists 0%nat, tr, st. cbn. rewrite app_nil_r. done.
  - rewrite outer_loop_cons.
    destruct (inner_loop_degenerate l1 stop (length cs) cs 0%nat
                (mkInner base NegInf None None 0) tr Hne eq_refl eq_refl)
      as (tr1 & ist & -> & Hw & [s Hs] & Hb).
    cbv zeta.
    assert (Hinv' : degenerate_best predict (best_model (update_best ist st))
                      (best_pred (update_best ist st))).
    { unfold update_best. rewrite Hs.
      destruct Hinv as [->|Hinv]; [done|].
      by destruct (fge _ _). }
    destruct (time_limit_exceeded tr1) eqn:Ht.
    + exists 1%nat, tr1, (update_best ist st). cbn.
      split; [done|]. split; [lia|]. split; [lia|]. split; [done|].
      split; [done|]. intros Hnever. by rewrite Hnever in Ht.
    + destruct (IH (update_best ist st) tr1 Hne (or_intror Hinv'))
        as (k & tr' & st' & Hrun & Hk & Hk1 & Hw' & Hb' & Hall).
      rewrite Hrun.
      exists (S k), tr', st'. split; [done|]. cbn [length firstn map].
      split; [lia|]. split; [lia|]. split.
      { rewrite Hw', Hw, <- app_assoc. done. }
      split.
      { intros _. destruct rest as [|l2 rest]; [|by apply Hb'].
        rewrite outer_loop_nil in Hrun. injection Hrun as <- <-. done. }
      intros Hnever. by rewrite Hall.
Qed.
End AllDegenerate.


End Facts.

(** *** The properties on concrete runs *)

Import PathScenarios.

(** C2. On a regression task with ratios [(0.9, 0.1)] and one strength, the
    solver is called once per outer value, and both times with the same
    estimator, whose [l1_ratio] is [0.5]: neither [0.9] nor [0.1] reaches
    the solver, and the fit of a cell does not depend on its outer value. *)
Theorem outer_value_dropped_at_fit :
  fit_calls
    (fit_predict_single_fold solve_by_ratio predict_id metric_table
       no_time_limit bw_id "reg" (grid [3 # 1]%Q [9 # 10; 1 # 10]%Q)).1
  = [EvFit (with_param P_alpha (3 # 1) elastic_base);
     EvFit (with_param P_alpha (3 # 1) elastic_base)]
  /\ l1_ratio (with_param P_alpha (3 # 1) elastic_base) = Some (1 # 2)%Q.
Proof. split; vm_compute; reflexivity. Qed.

(** C3, as stated, fails: on an empty list of strengths the search returns
    [(None, None)]; nothing is raised. *)
Lemma empty_cs_returns_none :
  fit_predict_single_fold solve_sparse predict_id metric_table
    no_time_limit bw_id "binary" (grid [] [1 # 1]%Q)
  = ([], Ok (None, None)).
Proof. vm_compute. reflexivity. Qed.

(** The same run, from the theorem. *)
Lemma empty_cs_no_fit_no_check_witness :
  (fit_predict_single_fold solve_sparse predict_id metric_table
     no_time_limit bw_id "binary" (grid [] [1 # 1]%Q)).1 = [] /\
  (fit_predict_single_fold solve_sparse predict_id metric_table
     no_time_limit bw_id "binary" (grid [] [1 # 1]%Q)).2 = Ok (None, None).
Proof.
  destruct (empty_cs_no_fit_no_check solve_sparse estimator predict_id
              metric_table no_time_limit bw_id "binary" (grid [] [1 # 1]%Q)
              eq_refl) as (Htr & Hres & _).
  split; [exact Htr|]. apply Hres. left. reflexivity.
Defined.



(** C5, as stated, fails: the first cell fits, the solver fails at the
    second, and the search raises the solver's exception. *)
Lemma one_cell_fits_search_raises :
  exists m,
    In (EvFit m)
      (fit_predict_single_fold (solve_fail_at (2 # 1)) predict_id metric_table
         no_time_limit bw_id "binary" (grid [1 # 1; 2 # 1]%Q [1 # 1]%Q)).1 /\
    is_raise (solve_fail_at (2 # 1) m) = false /\
    (fit_predict_single_fold (solve_fail_at (2 # 1)) predict_id metric_table
       no_time_limit bw_id "binary" (grid [1 # 1; 2 # 1]%Q [1 # 1]%Q)).2
    = Raise (OtherError 1).
Proof.
  exists (with_param P_C (1 # 1) binary_base).
  split; [left; vm_compute; reflexivity|]. split; vm_compute; reflexivity.
Qed.

(** The same run, from the theorem: the failing call, at strength 2 and
    warm-started from the fit at strength 1, is the last event. *)
Lemma solver_error_aborts_search_witness :
  (fit_predict_single_fold (solve_fail_at (2 # 1)) predict_id metric_table
     no_time_limit bw_id "binary" (grid [1 # 1; 2 # 1]%Q [1 # 1]%Q)).2
  = Raise (OtherError 1) /\
  last
    (fit_predict_single_fold (solve_fail_at (2 # 1)) predict_id metric_table
       no_time_limit bw_id "binary" (grid [1 # 1; 2 # 1]%Q [1 # 1]%Q)).1
  = Some (EvFit (with_param P_C (2 # 1)
                   (with_coef [1 # 1; 0 # 1]%Q (with_param P_C (1 # 1) binary_base)))).
Proof.
  apply (solver_error_aborts_search (solve_fail_at (2 # 1)) estimator predict_id
           metric_table no_time_limit bw_id "binary"
           (grid [1 # 1; 2 # 1]%Q [1 # 1]%Q)).
  - right. left. vm_compute. reflexivity.
  - vm_compute. reflexivity.
Defined.

End PathSearchFacts.

(** * Properties of [OptunaTuner] *)

Module TunerFacts.

Import OptunaTuning.

Section Facts.

Variables Params Preds Iterator AlgoRest : Type.
Variable estimate_tuner_time : ml_algo Params AlgoRest -> nat -> Q.
Variable iter_len : Iterator -> nat.
Variable is_holdout : Iterator -> bool.
Variable convert_to_holdout_iterator : Iterator -> result Iterator.
Variable trial_params_values :
  ml_algo Params AlgoRest -> pynum -> Iterator -> Z -> list (frozen_trial Params) -> Params.
Variable fit_predict :
  ml_algo Params AlgoRest -> Iterator -> result (ml_algo Params AlgoRest * Preds).
Variable score : ml_algo Params AlgoRest -> Preds -> Q.
Variable trial_duration : nat -> Q.
Variable duration_mean : list Q -> PrimFloat.float.

Abbreviation objective := (objective trial_params_values fit_predict score).
Abbreviation update_trial_time := (update_trial_time duration_mean).
Abbreviation optimize_loop :=
  (optimize_loop trial_params_values fit_predict score trial_duration duration_mean).
Abbreviation optimize :=
  (optimize trial_params_values fit_predict score trial_duration duration_mean).
Abbreviation tune :=
  (tune trial_params_values fit_predict score trial_duration duration_mean).
Abbreviation fit :=
  (fit estimate_tuner_time iter_len is_holdout convert_to_holdout_iterator
     trial_params_values fit_predict score trial_duration duration_mean).

Implicit Types (w : world Params AlgoRest) (h : gmap nat (ml_algo Params AlgoRest)).

(** *** The store *)

Lemma fresh_not_allocated h l : is_Some (h !! l) -> fresh (dom h) <> l.
Proof.
  intros Hl Heq. apply elem_of_dom in Hl. rewrite <- Heq in Hl.
  by apply is_fresh in Hl.
Qed.

Lemma objective_frame algo est0 it seed trials h l :
  is_Some (h !! l) ->
  (objective algo est0 it seed trials h).1 !! l = h !! l.
Proof.
  intros Hl. unfold OptunaTuning.objective.
  destruct (h !! algo) as [a|]; [|done].
  unfold alloc. pose proof (fresh_not_allocated h l Hl) as Hne.
  destruct (fit_predict _ _) as [[a2 out]|e]; cbn;
    by rewrite !lookup_insert_ne.
Qed.

Lemma update_trial_time_frame algo w l :
  l <> algo -> heap (update_trial_time algo w).1 !! l = heap w !! l.
Proof.
  intros Hne. unfold OptunaTuning.update_trial_time.
  destruct (floordiv _ _); cbn; by rewrite lookup_alter_ne.
Qed.

Lemma same_settings_refl (s : tuner Params) : same_settings s s.
Proof. by repeat split. Qed.

Lemma same_settings_trans (s1 s2 s3 : tuner Params) :
  same_settings s1 s2 -> same_settings s2 s3 -> same_settings s1 s3.
Proof. unfold same_settings. intros ? ?. intuition congruence. Qed.

Lemma update_trial_time_self algo w :
  same_settings (self w) (self (update_trial_time algo w).1) /\
  study (self (update_trial_time algo w).1) = study (self w) /\
  ((update_trial_time algo w).2 = Ok tt ->
   estimate_of duration_mean (self w)
     (estimated_n_trials (self (update_trial_time algo w).1))).
Proof.
  unfold OptunaTuning.update_trial_time, estimate_of.
  destruct (floordiv _ _) as [q|e] eqn:Hq; cbn; repeat split; try done.
  intros _. by exists q.
Qed.

Lemma optimize_loop_frame algo est0 it tmo fuel :
  forall elapsed w l,
    l <> algo -> is_Some (heap w !! l) ->
    heap (optimize_loop algo est0 it tmo fuel elapsed w).1 !! l = heap w !! l.
Proof.
  induction fuel as [|fuel IH]; intros elapsed w l Hne Hl; [done|].
  cbn [OptunaTuning.optimize_loop].
  destruct (Qle_bool tmo elapsed); [done|].
  pose proof (objective_frame algo est0 it (random_state (self w))
                (study (self w)) (heap w) l Hl) as Hobj.
  destruct (objective _ _ _ _ _ _) as [h1 [[p v]|e]]; cbn [fst] in Hobj; [|done].
  set (w1 := mkWorld h1 _).
  pose proof (update_trial_time_frame algo w1 l Hne) as Hupd.
  destruct (update_trial_time algo w1) as [w2 [u|e]]; cbn [fst] in Hupd.
  - rewrite IH; [|done|]; rewrite Hupd; cbn; [done|by rewrite Hobj].
  - cbn. by rewrite Hupd.
Qed.

Lemma tune_frame algo it flg w l :
  l <> algo -> is_Some (heap w !! l) ->
  heap (tune algo it flg w).1 !! l = heap w !! l.
Proof.
  intros Hne Hl. unfold OptunaTuning.tune, OptunaTuning.optimize.
  set (w0 := mkWorld (heap w) _).
  pose proof (optimize_loop_frame algo (estimated_n_trials (self w0)) it
                (timeout (self w0)) (Z.to_nat (n_trials (self w0))) (0 # 1)%Q
                w0 l Hne Hl) as Hopt.
  destruct (optimize_loop _ _ _ _ _ _ _) as [w1 [u|e]]; cbn [fst] in Hopt; [|done].
  destruct (best_trial _ _) as [bt|e]; [|done].
  destruct (heap w1 !! algo) as [a|]; [|done].
  destruct (fit_predict _ _) as [[a2 preds]|e]; [destruct flg|]; cbn;
    by rewrite ?lookup_insert_ne.
Qed.

Lemma fit_setup_frame a it w l :
  heap w !! l = Some a ->
  heap (fit_setup estimate_tuner_time iter_len is_holdout
          convert_to_holdout_iterator a it w).1 !! l = Some a /\
  forall copy it' flg,
    (fit_setup estimate_tuner_time iter_len is_holdout
       convert_to_holdout_iterator a it w).2 = Ok (copy, it', flg) ->
    copy <> l.
Proof.
  intros Hl. unfold fit_setup, alloc, deepcopy.
  pose proof (fresh_not_allocated (heap w) l (mk_is_Some _ _ Hl)) as Hne.
  destruct (_ && _); [destruct (convert_to_holdout_iterator it)|]; cbn;
    (split; [by rewrite lookup_insert_ne|]); intros; simplify_eq; done.
Qed.

(** C9. [fit] leaves the object the caller passes as it was: whatever the
    run does, the store holds at [ml_algo] what it held before (so its
    [params] and [is_fitted] are unchanged), all writes going to the copy
    made on line 138; and an algo that is already fitted is rejected by
    the assertion of line 131 before anything is done. *)
Theorem fit_keeps_callers_algo ml_algo it w :
  heap (fit ml_algo it w).1 !! ml_algo = heap w !! ml_algo /\
  (forall a, heap w !! ml_algo = Some a -> is_fitted a = true ->
             fit ml_algo it w = (w, Raise AssertionError)).
Proof.
  unfold OptunaTuning.fit. split.
  - destruct (heap w !! ml_algo) as [a|] eqn:Hl; [|exact Hl].
    destruct (is_fitted a); [exact Hl|].
    destruct (fit_setup_frame a it w ml_algo Hl) as [Hw1 Hcopy].
    destruct (fit_setup _ _ _ _ _ _ _) as [w1 [[[copy it'] flg]|e]];
      cbn [fst snd] in *; [|exact Hw1].
    specialize (Hcopy _ _ _ eq_refl).
    pose proof (tune_frame copy it' flg w1 ml_algo (not_eq_sym Hcopy)
                  (mk_is_Some _ _ Hw1)) as Ht.
    destruct (tune _ _ _ _) as [w2 [r|e]]; cbn [fst] in Ht |- *.
    + by rewrite Ht.
    + destruct e; cbn; by rewrite Ht.
  - intros a -> ->. done.
Qed.

(** *** The loop *)

Lemma estimate_of_eq (s s' : tuner Params) est :
  same_settings s s' -> study s' = study s ->
  estimate_of duration_mean s est -> estimate_of duration_mean s' est.
Proof.
  unfold estimate_of. intros (Ht & Hn & _) Hs. by rewrite Ht, Hn, Hs.
Qed.

Lemma optimize_loop_run algo est0 it tmo fuel :
  forall elapsed w w',
    optimize_loop algo est0 it tmo fuel elapsed w = (w', Ok tt) ->
    same_settings (self w) (self w') /\
    exists k before,
      (k <= fuel)%nat /\
      study (self w') = study (self w) ++ before /\ length before = k /\
      (forall j, (j < k)%nat ->
         (elapsed + elapsed_after trial_duration (length (study (self w))) j < tmo)%Q) /\
      (k = fuel \/
       (tmo <= elapsed + elapsed_after trial_duration (length (study (self w))) k)%Q) /\
      (k = 0%nat -> w' = w) /\
      ((0 < k)%nat ->
       estimate_of duration_mean (self w') (estimated_n_trials (self w'))).
Proof.
  induction fuel as [|fuel IH]; intros elapsed w w' Hrun.
  - cbn in Hrun. injection Hrun as <-. split; [apply same_settings_refl|].
    exists 0%nat, []. rewrite app_nil_r.
    split; [lia|]. split; [done|]. split; [done|]. split; [intros; lia|].
    split; [by left|]. split; [done|lia].
  - cbn [OptunaTuning.optimize_loop] in Hrun.
    destruct (Qle_bool tmo elapsed) eqn:Hstop.
    { injection Hrun as <-. split; [apply same_settings_refl|].
      exists 0%nat, []. rewrite app_nil_r.
      split; [lia|]. split; [done|]. split; [done|]. split; [intros; lia|].
      split; [|split; [done|lia]].
      right. apply Qle_bool_iff in Hstop. cbn. lra. }
    assert (Hlt : (elapsed < tmo)%Q).
    { apply Qnot_le_lt. intros Hle. apply Qle_bool_iff in Hle. congruence. }
    destruct (objective _ _ _ _ _ _) as [h1 [[p v]|e]]; [|done].
    set (t := mkTrial (length (study (self w))) p v
                (trial_duration (length (study (self w))))) in *.
    set (w1 := mkWorld h1 (with_study (study (self w) ++ [t]) (self w))) in *.
    destruct (update_trial_time_self algo w1) as (Hset & Hstudy & Hest).
    destruct (update_trial_time algo w1) as [w2 [[]|e]]; [|done].
    cbn [fst snd] in *. specialize (Hest eq_refl).
    destruct (IH _ _ _ Hrun) as (Hset' & k & before & Hk & Hst & Hlen & Hbefore & Hend & Hzero & Hpos).
    assert (Hset1 : same_settings (self w) (self w1)) by (by repeat split).
    split; [eauto using same_settings_trans|].
    assert (Hlen2 : length (study (self w2)) = S (length (study (self w)))).
    { rewrite Hstudy. unfold w1. cbn. rewrite length_app. cbn. lia. }
    rewrite Hlen2 in Hbefore, Hend.
    exists (S k), (t :: before). split; [lia|]. split.
    { rewrite Hst, Hstudy. unfold w1. cbn. by rewrite <- app_assoc. }
    split; [cbn; lia|]. split.
    { intros [|j] Hj; cbn [elapsed_after]; [lra|].
      specialize (Hbefore j ltac:(lia)). lra. }
    split.
    { destruct Hend as [->|Hend]; [by left|right]. cbn [elapsed_after]. lra. }
    split; [done|]. intros _.
    destruct k as [|k].
    + rewrite (Hzero eq_refl). by eapply estimate_of_eq; [| |exact Hest].
    + apply Hpos. lia.
Qed.

(** C1 (amended). After every completed trial the callback stores the
    mean duration of all trials so far, as pandas gives it, in the tuner's
    copy of the algo, and sets [estimated_n_trials] to
    [min(n_trials, timeout // mean)]: the floor division is Python's on
    floats (so [1 // 0.1] is [9.0]), and [timeout] is the whole budget of
    the tuner, not the time that remains. This holds at every step:
    whenever the loop, with any number of trials allowed, has run at
    least one trial and returns, the estimate is that value for the
    trials run. *)
Theorem estimate_uses_whole_timeout algo est0 it tmo fuel elapsed w w' :
  ((update_trial_time algo w).2 = Ok tt ->
     (exists q,
        floordiv (timeout (self w))
          (duration_mean (map duration (study (self w)))) = Ok q /\
        q = PyFloat.floor_div (PyFloat.of_Q (timeout (self w)))
              (duration_mean (map duration (study (self w)))) /\
        estimated_n_trials (self (update_trial_time algo w).1) =
          num_min (Int (n_trials (self w))) (Float q)) /\
     forall a, heap w !! algo = Some a ->
       mean_trial_time <$> heap (update_trial_time algo w).1 !! algo =
         Some (Some (duration_mean (map duration (study (self w)))))) /\
  (optimize_loop algo est0 it tmo fuel elapsed w = (w', Ok tt) ->
   study (self w') <> study (self w) ->
   exists q,
     floordiv (timeout (self w'))
       (duration_mean (map duration (study (self w')))) = Ok q /\
     q = PyFloat.floor_div (PyFloat.of_Q (timeout (self w')))
           (duration_mean (map duration (study (self w')))) /\
     estimated_n_trials (self w') =
       num_min (Int (n_trials (self w'))) (Float q)).
Proof.
  assert (Hq : forall x y q, floordiv x y = Ok q ->
                 q = PyFloat.floor_div (PyFloat.of_Q x) y).
  { intros x y q. unfold floordiv.
    destruct (PrimFloat.is_infinity _); [done|].
    destruct (PrimFloat.eqb _ _); [done|]. by intros [= <-]. }
  split.
  - intros Hok. split.
    + destruct (update_trial_time_self algo w) as (_ & _ & Hest).
      destruct (Hest Hok) as (q & Hdiv & Heq). exists q. eauto.
    + intros a Ha. unfold OptunaTuning.update_trial_time.
      destruct (floordiv _ _); cbn; rewrite lookup_alter_eq, Ha; done.
  - intros Hrun Hne.
    destruct (optimize_loop_run _ _ _ _ _ _ _ _ Hrun)
      as (_ & k & before & _ & Hst & Hlen & _ & _ & Hzero & Hpos).
    destruct k as [|k]; [by rewrite (Hzero eq_refl) in Hne|].
    destruct (Hpos ltac:(lia)) as (q & Hdiv & Heq). exists q. eauto.
Qed.

Lemma elapsed_after_const d i0 k :
  (forall i, trial_duration i == d)%Q ->
  (elapsed_after trial_duration i0 k == inject_Z (Z.of_nat k) * d)%Q.
Proof.
  intros Hd. revert i0. induction k as [|k IH]; intros i0.
  - cbn [elapsed_after]. change (inject_Z (Z.of_nat 0)) with (0 # 1)%Q. lra.
  - cbn [elapsed_after]. rewrite IH, Hd, Nat2Z.inj_succ. unfold Z.succ.
    rewrite inject_Z_plus. change (inject_Z 1) with (1 # 1)%Q. lra.
Qed.

(** The loop of [study.optimize]: a run that returns has run [k] trials,
    [k] at most the number allowed, the time elapsed before each of them
    was below the timeout, and either [k] is the number allowed or the
    time elapsed after [k] trials has reached the timeout. *)
Lemma optimize_stops algo est0 it n_arg tmo w w' :
  study (self w) = [] ->
  optimize algo est0 it n_arg tmo w = (w', Ok tt) ->
  same_settings (self w) (self w') /\
  (length (study (self w')) <= Z.to_nat n_arg)%nat /\
  (forall j, (j < length (study (self w')))%nat ->
     (elapsed_after trial_duration 0 j < tmo)%Q) /\
  (length (study (self w')) = Z.to_nat n_arg \/
   (tmo <= elapsed_after trial_duration 0 (length (study (self w'))))%Q).
Proof.
  intros Hempty Hrun. unfold OptunaTuning.optimize in Hrun.
  destruct (optimize_loop_run _ _ _ _ _ _ _ _ Hrun)
    as (Hset & k & before & Hk & Hst & Hlen & Hbefore & Hend & _ & _).
  rewrite Hempty in *. cbn [length app] in *. rewrite Hst, Hlen.
  split; [done|]. split; [done|]. split.
  - intros j Hj. specialize (Hbefore j Hj). lra.
  - destruct Hend as [->|Hend]; [by left|right]. lra.
Qed.

(** What the [try] block of [fit] leaves of the study when it completes:
    the trials of [study.optimize], called on a new study with the
    tuner's [n_trials] and [timeout]. *)
Lemma tune_runs_optimize algo it flg w w2 r :
  tune algo it flg w = (w2, Ok r) ->
  exists w1,
    optimize algo (estimated_n_trials (self w)) it (n_trials (self w))
      (timeout (self w)) (mkWorld (heap w) (with_study [] (self w))) = (w1, Ok tt) /\
    study (self w2) = study (self w1) /\
    same_settings (self w1) (self w2).
Proof.
  unfold OptunaTuning.tune. cbn [self heap estimated_n_trials n_trials timeout with_study].
  destruct (optimize _ _ _ _ _ _) as [w1 [[]|e]] eqn:Hrun; [|done].
  destruct (best_trial _ _) as [bt|e]; [|done].
  destruct (heap w1 !! algo) as [a|]; [|done].
  destruct (fit_predict _ _) as [[a2 preds]|e]; [|done].
  intros Hres. exists w1. split; [done|].
  destruct flg; injection Hres as <- _; by repeat split.
Qed.

(** C6 (amended). [fit] hands [study.optimize] its [n_trials] and its
    [timeout], clamped by the estimate of the algo's timer (lines
    166-174), and [estimated_n_trials] plays no part in stopping: when
    the [try] block of [fit] completes, the study holds [k] trials where
    [k] is at most [n_trials], the time elapsed before each of the [k]
    trials was below the timeout, and either [k] is [n_trials] or the
    time elapsed after [k] trials has reached the timeout. In particular
    with a timeout of 5, every trial lasting 2, and [n_trials = 100], it
    runs exactly 3 trials. *)
Theorem fit_stops_on_n_trials_or_timeout ml_algo it w a w1 copy it' flg w2 r :
  heap w !! ml_algo = Some a -> is_fitted a = false ->
  fit_setup estimate_tuner_time iter_len is_holdout convert_to_holdout_iterator
    a it w = (w1, Ok (copy, it', flg)) ->
  tune copy it' flg w1 = (w2, Ok r) ->
  let tmo := pymin (timeout (self w))
               (pymax (estimate_tuner_time a (iter_len it)) (1 # 1)) in
  let k := length (study (self w2)) in
  fit ml_algo it w = (w2, Ok r) /\
  timeout (self w2) = tmo /\
  n_trials (self w2) = n_trials (self w) /\
  (k <= Z.to_nat (n_trials (self w)))%nat /\
  (forall j, (j < k)%nat -> (elapsed_after trial_duration 0 j < tmo)%Q) /\
  (k = Z.to_nat (n_trials (self w)) \/
   (tmo <= elapsed_after trial_duration 0 k)%Q) /\
  ((forall i, trial_duration i == 2 # 1)%Q -> (tmo == 5 # 1)%Q ->
   n_trials (self w) = 100 -> k = 3%nat).
Proof.
  intros Hl Hfit Hsetup Htune tmo k.
  assert (Hs1 : timeout (self w1) = tmo /\ n_trials (self w1) = n_trials (self w)).
  { unfold fit_setup, alloc in Hsetup. cbn in Hsetup.
    destruct (_ && _); [destruct (convert_to_holdout_iterator it)|];
      by simplify_eq. }
  destruct Hs1 as [Htmo Hn].
  destruct (tune_runs_optimize _ _ _ _ _ _ Htune) as (w' & Hrun & Hstudy & Hset).
  apply optimize_stops in Hrun as (Hset' & Hk & Hbefore & Hend); [|done].
  cbn [self with_study timeout n_trials] in Hset'.
  destruct Hset as (Ht2 & Hn2 & _). destruct Hset' as (Ht1 & Hn1 & _).
  unfold with_study in Ht1, Hn1. cbn [timeout n_trials] in Ht1, Hn1.
  rewrite Htmo in *. rewrite Hn in *. fold k in Hstudy.
  rewrite <- Hstudy in Hk, Hbefore, Hend. fold k in Hk, Hbefore, Hend.
  split.
  { unfold OptunaTuning.fit. by rewrite Hl, Hfit, Hsetup, Htune. }
  split; [congruence|]. split; [congruence|].
  split; [done|]. split; [done|]. split; [done|].
  intros Hd Htmo5 Hn100. rewrite Hn100 in *.
  assert (Hk3 : (k <= 3)%nat).
  { destruct (decide (k <= 3)%nat) as [|Hgt]; [done|exfalso].
    specialize (Hbefore 3%nat ltac:(lia)).
    rewrite (elapsed_after_const (2 # 1) 0 3 Hd), Htmo5 in Hbefore.
    vm_compute in Hbefore. discriminate. }
  destruct Hend as [He|He]; [change (Z.to_nat 100) with 100%nat in He; lia|].
  rewrite (elapsed_after_const (2 # 1) 0 k Hd), Htmo5 in He.
  destruct k as [|[|[|k']]]; [vm_compute in He; by destruct He..|lia].
Qed.

(** *** The best trial *)

Lemma better_trans d a b c :
  better d a b = true -> better d b c = true -> better d a c = true.
Proof.
  unfold better. destruct d; rewrite !negb_true_iff;
    intros H1 H2; apply not_true_is_false; intros H3;
    apply not_true_iff_false in H1, H2; rewrite Qle_bool_iff in *;
    apply H1; apply Qnot_le_lt in H2; lra.
Qed.

Lemma better_not d a b c :
  better d a b = true -> better d c b = false -> better d a c = true.
Proof.
  unfold better. destruct d; rewrite !negb_true_iff, negb_false_iff;
    intros H1 H2; apply not_true_is_false; intros H3;
    apply not_true_iff_false in H1; rewrite Qle_bool_iff in *;
    apply H1; lra.
Qed.

Lemma better_irrefl_le d a b :
  better d a b = true -> better d b a = false.
Proof.
  unfold better. destruct d; rewrite !negb_true_iff, negb_false_iff;
    intros H1; apply not_true_iff_false in H1; rewrite Qle_bool_iff in *;
    apply Qnot_le_lt in H1; lra.
Qed.

Lemma best_from_first_best d (l : list (frozen_trial Params)) :
  forall b, first_best d (best_from d b l) (b :: l).
Proof.
  induction l as [|t l IH]; intros b.
  - exists [], []. by repeat split.
  - cbn [best_from].
    destruct (better d (value t) (value b)) eqn:Hb.
    + destruct (IH t) as (before & after & Heq & Hbefore & Hafter).
      exists (b :: before), after. split; [cbn; congruence|]. split; [|done].
      intros x [<-|Hx]; [|by apply Hbefore].
      destruct before as [|t' before]; cbn [app] in Heq.
      * injection Heq as Ht _. congruence.
      * injection Heq as Ht _.
        eapply better_trans; [|exact Hb]. apply Hbefore. left. by symmetry.
    + destruct (IH b) as (before & after & Heq & Hbefore & Hafter).
      destruct before as [|b' before]; cbn [app] in Heq.
      * injection Heq as Ht Hl.
        exists [], (t :: l). split; [cbn; congruence|]. split; [done|].
        intros x [<-|Hx]; [congruence|]. apply Hafter. congruence.
      * injection Heq as Ht Hl.
        exists (b :: t :: before), after. split; [cbn; congruence|]. split; [|done].
        intros x [<-|[<-|Hx]].
        -- apply Hbefore. left. by symmetry.
        -- eapply better_not; [|exact Hb]. apply Hbefore. left. by symmetry.
        -- apply Hbefore. by right.
Qed.

Lemma tune_result algo it flg w :
  (forall x, (tune algo it flg w).2 = Ok x -> (x = None <-> flg = true)) /\
  (forall l preds, (tune algo it flg w).2 = Ok (Some (l, preds)) ->
     l = algo /\
     exists bt a0 a',
       first_best (tuner_direction (self w)) bt (study (self (tune algo it flg w).1)) /\
       _best_params (self (tune algo it flg w).1) = Some (t_params bt) /\
       fit_predict (with_params (t_params bt) a0) it = Ok (a', preds) /\
       heap (tune algo it flg w).1 !! l = Some a').
Proof.
  unfold OptunaTuning.tune, OptunaTuning.optimize.
  set (w0 := mkWorld (heap w) _).
  destruct (optimize_loop _ _ _ _ _ _ _) as [w1 [[]|e]] eqn:Hrun; [|done].
  destruct (optimize_loop_run _ _ _ _ _ _ _ _ Hrun) as ((_ & _ & Hdir & _) & _).
  destruct (best_trial _ _) as [bt|e] eqn:Hbest; [|done].
  assert (Hfirst : first_best (tuner_direction (self w)) bt (study (self w1))).
  { unfold best_trial in Hbest. destruct (study (self w1)) as [|t l]; [done|].
    injection Hbest as <-. rewrite Hdir. apply best_from_first_best. }
  destruct (heap w1 !! algo) as [a|]; [|done].
  destruct (fit_predict _ _) as [[a2 preds]|e] eqn:Hfp; [|done].
  destruct flg; cbn; (split; [intros x [= <-]; done|]); [done|].
  intros l preds' [= <- <-]. split; [done|].
  exists bt, a, a2. by rewrite lookup_insert_eq.
Qed.

End Facts.

(** *** The properties on concrete runs *)

Import TunerScenarios.

(** C1, as stated, fails: with a timeout of 5 and trials lasting 2, 1, 1
    and 1, the estimate after the first trial is [5 // 2.0 = 2.0] while 3
    time units remain and [floor(3 / 2) = 1]; and the budget is used up
    after the fourth trial, so the time remaining over the mean duration is
    0, while the callback has set the estimate to [5 // 1.25 = 4.0]. *)
Lemma estimate_ignores_elapsed_time :
  estimated_n_trials
    (self (run_optimize first_slow 1 (world_of unfitted (5 # 1) 100 true)).1)
  = Float (PyFloat.of_Z 2) /\
  spec_estimated_affordable_trials (5 # 1) [2 # 1]%Q = 1 /\
  estimated_n_trials (self (run_fit first_slow true (world_of unfitted (5 # 1) 100 true)).1)
  = Float (PyFloat.of_Z 4) /\
  spec_estimated_affordable_trials
    (timeout (self (run_fit first_slow true (world_of unfitted (5 # 1) 100 true)).1))
    (map duration
       (study (self (run_fit first_slow true (world_of unfitted (5 # 1) 100 true)).1)))
  = 0.
Proof. repeat split; vm_compute; reflexivity. Qed.

(** With a timeout of 1 and trials lasting a tenth of a second, the
    estimate after three trials is [1 // 0.1], which is [9.0]. *)
Lemma estimate_uses_whole_timeout_witness :
  exists q,
    floordiv (1 # 1) (mean_seconds [1 # 10; 1 # 10; 1 # 10]%Q) = Ok q /\
    q = PyFloat.floor_div (PyFloat.of_Q (1 # 1)) (PyFloat.of_Q (1 # 10)) /\
    estimated_n_trials
      (self (run_optimize always_tenth 3 (world_of unfitted (1 # 1) 100 true)).1)
    = Float (PyFloat.of_Z 9).
Proof.
  pose proof (estimate_uses_whole_timeout nat nat bool unit sampler fit_predict score
                always_tenth mean_seconds 7%nat (Int 100) true (1 # 1)%Q 3%nat (0 # 1)%Q
                (world_of unfitted (1 # 1) 100 true)
                (run_optimize always_tenth 3 (world_of unfitted (1 # 1) 100 true)).1)
    as [_ Hloop].
  destruct Hloop as (q & Hdiv & Hq & Hest).
  - vm_compute. reflexivity.
  - vm_compute. discriminate.
  - exists q. split; [exact Hdiv|]. split; [rewrite Hq; vm_compute; reflexivity|].
    rewrite Hest, Hq. vm_compute. reflexivity.
Defined.

(** C6, as stated, fails: with a timeout of 5, a first trial lasting 2 (after
    which the estimate is 2) and later trials lasting 1, four trials
    run. *)
Lemma four_trials_within_timeout_five :
  first_slow 0 = (2 # 1)%Q /\
  estimated_n_trials
    (self (run_optimize first_slow 1 (world_of unfitted (5 # 1) 100 true)).1)
  = Float (PyFloat.of_Z 2) /\
  length (study (self (run_fit first_slow true (world_of unfitted (5 # 1) 100 true)).1))
  = 4%nat.
Proof. repeat split; vm_compute; reflexivity. Qed.

(** [fit] with a timeout of 5, on an algo whose timer allows 1000, every
    trial lasting 2: three trials run. *)
Lemma fit_stops_on_n_trials_or_timeout_witness :
  length (study (self (run_fit always_two true (world_of unfitted (5 # 1) 100 true)).1))
  = 3%nat.
Proof.
  pose proof (fit_stops_on_n_trials_or_timeout nat nat bool unit
                (fun _ _ => (1000 # 1)%Q) (fun _ => 5%nat) (fun b => b)
                (fun _ => Ok true) sampler fit_predict score always_two mean_seconds
                7%nat true (world_of unfitted (5 # 1) 100 true) unfitted
                (fit_setup (fun _ _ => (1000 # 1)%Q) (fun _ : bool => 5%nat)
                   (fun b => b) (fun _ => Ok true) unfitted true
                   (world_of unfitted (5 # 1) 100 true)).1
                8%nat true false
                (run_fit always_two true (world_of unfitted (5 # 1) 100 true)).1
                (Some (8%nat, 1%nat))) as H.
  destruct H as (Hfit & _ & _ & _ & _ & _ & Hthree).
  - vm_compute. reflexivity.
  - reflexivity.
  - vm_compute. reflexivity.
  - vm_compute. reflexivity.
  - apply Hthree.
    + intros i. reflexivity.
    + vm_compute. reflexivity.
    + reflexivity.
Defined.



(** A fitted algo is rejected; an unfitted one is still unfitted, with its
    parameters, after [fit]. *)
Lemma fit_keeps_callers_algo_witness :
  run_fit first_slow true (world_of fitted (5 # 1) 100 true)
  = (world_of fitted (5 # 1) 100 true, Raise AssertionError) /\
  heap (run_fit first_slow true (world_of unfitted (5 # 1) 100 true)).1 !! 7%nat
  = Some unfitted.
Proof.
  destruct (fit_keeps_callers_algo nat nat bool unit
              (fun _ _ => (1000 # 1)%Q) (fun _ => 5%nat) (fun b => b)
              (fun _ => Ok true) sampler fit_predict score first_slow mean_seconds
              7%nat true (world_of fitted (5 # 1) 100 true)) as [_ Hassert].
  destruct (fit_keeps_callers_algo nat nat bool unit
              (fun _ _ => (1000 # 1)%Q) (fun _ => 5%nat) (fun b => b)
              (fun _ => Ok true) sampler fit_predict score first_slow mean_seconds
              7%nat true (world_of unfitted (5 # 1) 100 true)) as [Hframe _].
  split.
  - apply (Hassert fitted); reflexivity.
  - etrans; [exact Hframe|]. vm_compute. reflexivity.
Defined.

End TunerFacts.

(** * Properties of [concatenate] *)

Module ConcatFacts.

Import DatasetUtils.

Section Facts.

Variable Dataset : Type.
Variable type_of : Dataset -> dataset_type.
Variable concat : dataset_type -> list Dataset -> result Dataset.

Abbreviation get_common_concat := (get_common_concat Dataset type_of).
Abbreviation concatenate := (concatenate Dataset type_of concat).

Lemma elem_of_types (datasets : list Dataset) k :
  k ∈ (list_to_set (map type_of datasets) : gset dataset_type) <->
  exists x, In x datasets /\ type_of x = k.
Proof.
  rewrite elem_of_list_to_set, list_elem_of_In, in_map_iff.
  split; intros (x & ? & ?); eauto.
Qed.

Lemma types_single (datasets : list Dataset) k :
  datasets <> [] -> (forall x, In x datasets -> type_of x = k) ->
  (list_to_set (map type_of datasets) : gset dataset_type) = {[ k ]}.
Proof.
  intros Hne Hall. apply set_eq. intros k'.
  rewrite elem_of_types, elem_of_singleton. split.
  - intros (x & Hx & <-). by apply Hall.
  - intros ->. destruct datasets as [|x l]; [done|].
    exists x. split; [by left|]. apply Hall. by left.
Qed.

Lemma types_numpy_csr (datasets : list Dataset) :
  (forall x, In x datasets ->
     type_of x = NumpyDataset \/ type_of x = CSRSparseDataset) ->
  (exists x, In x datasets /\ type_of x = NumpyDataset) ->
  (exists x, In x datasets /\ type_of x = CSRSparseDataset) ->
  (list_to_set (map type_of datasets) : gset dataset_type)
  = {[ NumpyDataset; CSRSparseDataset ]}.
Proof.
  intros Hall Hn Hc. apply set_eq. intros k.
  rewrite elem_of_types, elem_of_union, !elem_of_singleton. split.
  - intros (x & Hx & <-). by apply Hall.
  - intros [->| ->]; done.
Qed.

(** C10. On a non-empty sequence of datasets [concatenate] dispatches on
    the set of their types: when all have one type [k], it calls
    [k.concat]; when the types are exactly [NumpyDataset] and
    [CSRSparseDataset], it calls [CSRSparseDataset.concat]; for any other
    mix it raises [TypeError] and no [concat] has been called. *)
Theorem concatenate_dispatch (datasets : list Dataset) :
  datasets <> [] ->
  (forall k, (forall x, In x datasets -> type_of x = k) ->
     concatenate datasets = ([(k, datasets)], concat k datasets)) /\
  ((forall x, In x datasets ->
      type_of x = NumpyDataset \/ type_of x = CSRSparseDataset) ->
   (exists x, In x datasets /\ type_of x = NumpyDataset) ->
   (exists x, In x datasets /\ type_of x = CSRSparseDataset) ->
   concatenate datasets
   = ([(CSRSparseDataset, datasets)], concat CSRSparseDataset datasets)) /\
  (~ (exists k, forall x, In x datasets -> type_of x = k) ->
   ~ ((forall x, In x datasets ->
         type_of x = NumpyDataset \/ type_of x = CSRSparseDataset) /\
      (exists x, In x datasets /\ type_of x = NumpyDataset) /\
      (exists x, In x datasets /\ type_of x = CSRSparseDataset)) ->
   concatenate datasets = ([], Raise TypeError)).
Proof.
  intros Hne. unfold DatasetUtils.concatenate, DatasetUtils.get_common_concat.
  split; [|split].
  - intros k Hall. rewrite (types_single datasets k Hne Hall).
    rewrite size_singleton, bool_decide_eq_true_2 by done.
    by rewrite elements_singleton.
  - intros Hall Hn Hc. rewrite (types_numpy_csr datasets Hall Hn Hc).
    rewrite size_union, !size_singleton by set_solver.
    rewrite bool_decide_eq_false_2 by lia.
    by rewrite bool_decide_eq_true_2.
  - intros Hmix Hnc.
    rewrite bool_decide_eq_false_2.
    + rewrite bool_decide_eq_false_2; [done|].
      intros Heq. apply Hnc. split; [|split].
      * intros x Hx.
        assert (Hin : type_of x ∈ (list_to_set (map type_of datasets)
                                    : gset dataset_type)).
        { apply elem_of_types. eauto. }
        rewrite Heq in Hin. set_solver.
      * apply elem_of_types. rewrite Heq. set_solver.
      * apply elem_of_types. rewrite Heq. set_solver.
    + intros Hsize. apply Hmix. apply size_1_elem_of in Hsize as [k Hk].
      exists k. intros x Hx.
      assert (Hin : type_of x ∈ (list_to_set (map type_of datasets)
                                  : gset dataset_type)).
      { apply elem_of_types. eauto. }
      rewrite Hk in Hin. set_solver.
Qed.
End Facts.

(** *** On concrete sequences *)

Import ConcatScenarios.

(** Dense with sparse goes to the sparse [concat]; dense with a third
    class is refused with no [concat] called; one class alone uses its own
    [concat]. *)
Lemma concatenate_dispatch_witness :
  concatenate dataset tag concat_tag [Dense 1; Sparse 2; Dense 3]
  = ([(CSRSparseDataset, [Dense 1; Sparse 2; Dense 3])],
     Ok (Sparse 6)) /\
  concatenate dataset tag concat_tag [Dense 1; Frame 2]
  = ([], Raise TypeError) /\
  concatenate dataset tag concat_tag [Frame 1; Frame 2]
  = ([(OtherDataset 0, [Frame 1; Frame 2])], Ok (Frame 3)).
Proof.
  split; [|split].
  - apply (concatenate_dispatch dataset tag concat_tag [Dense 1; Sparse 2; Dense 3]).
    + discriminate.
    + intros x [<-|[<-|[<-|[]]]]; cbn; auto.
    + exists (Dense 1). split; [left|]; reflexivity.
    + exists (Sparse 2). split; [right; left|]; reflexivity.
  - apply (concatenate_dispatch dataset tag concat_tag [Dense 1; Frame 2]).
    + discriminate.
    + intros [k Hk].
      pose proof (Hk (Dense 1) (or_introl eq_refl)) as H1.
      pose proof (Hk (Frame 2) (or_intror (or_introl eq_refl))) as H2.
      cbn in H1, H2. congruence.
    + intros (Hall & _).
      destruct (Hall (Frame 2) (or_intror (or_introl eq_refl))) as [H|H];
        discriminate H.
  - apply (concatenate_dispatch dataset tag concat_tag [Frame 1; Frame 2]).
    + discriminate.
    + intros x [<-|[<-|[]]]; reflexivity.
Defined.

End ConcatFacts.

(** * More on the regularization path: what the result is *)

Module PathResultFacts.

Import LinearSklearn PathTrace PathSearchFacts.

#[local] Arguments allclose0 : simpl never.
#[local] Arguments all_nonzero : simpl never.
#[local] Arguments update_c_best : simpl never.

Lemma fge_refl s : fge (Fin s) (Fin s) = true.
Proof. cbn. apply Qle_bool_iff, Qle_refl. Qed.

Lemma fge_trans a b c : fge a b = true -> fge b c = true -> fge a c = true.
Proof.
  destruct a as [|x], b as [|y], c as [|z]; cbn; try done.
  rewrite !Qle_bool_iff. intros H1 H2. by apply Qle_trans with y.
Qed.

Lemma fge_total a b : fge a b = false -> fge b a = true.
Proof.
  destruct a as [|x], b as [|y]; cbn; try done.
  intros H. apply Qle_bool_iff. apply Qlt_le_weak, Qnot_le_lt.
  intros Hle. apply Qle_bool_iff in Hle. congruence.
Qed.

Section Facts.

Variable solve : estimator -> result (list Q).
Variable Pred : Type.
Variable predict : estimator -> Pred.
Variable metric : Pred -> Q.
Variable time_limit_exceeded : list event -> bool.
Variable bw_func : option Pred -> result (option Pred).

Abbreviation inner_loop := (inner_loop solve predict metric time_limit_exceeded).
Abbreviation outer_loop := (outer_loop solve predict metric time_limit_exceeded).
Abbreviation path_search := (path_search solve predict metric time_limit_exceeded).
Abbreviation fit_predict_single_fold :=
  (fit_predict_single_fold solve predict metric time_limit_exceeded bw_func).
Abbreviation scored_below := (scored_below solve predict metric).
Abbreviation best_of_run := (best_of_run solve predict metric).

Lemma scored_below_mono b b' ev :
  fge b' b = true -> scored_below b ev -> scored_below b' ev.
Proof.
  intros Hge. destruct ev as [m0|l1]; [|done]. cbn.
  intros H cf Hs Hz. eapply fge_trans; [exact Hge|]. by apply H.
Qed.

Lemma best_of_run_mono tr tr' sc pred best :
  (forall ev, In ev tr -> In ev tr') ->
  best_of_run tr sc pred best -> best_of_run tr' sc pred best.
Proof.
  intros Hsub [H|(m0 & cf & Hin & H)]; [by left|right].
  exists m0, cf. split; [by apply Hsub|done].
Qed.

(** What one pass of the inner loop that scores its cell leaves. *)
Lemma scored_step (st : inner_state Pred) pre cur m0 cf tl :
  best_of_run (pre ++ cur) (c_best_score st) (c_best_pred st) (c_best_model st) ->
  Forall (scored_below (c_best_score st)) cur ->
  solve m0 = Ok cf ->
  Forall (fun ev => is_warn ev = true) tl ->
  let m := with_coef cf m0 in
  let st2 := update_c_best (metric (predict m)) (predict m) m
               (mkInner m (c_best_score st) (c_best_pred st) (c_best_model st)
                  (es st)) in
  best_of_run (pre ++ (cur ++ [EvFit m0] ++ tl))
    (c_best_score st2) (c_best_pred st2) (c_best_model st2) /\
  Forall (scored_below (c_best_score st2)) (cur ++ [EvFit m0] ++ tl) /\
  fge (c_best_score st2) (c_best_score st) = true /\
  c_best_score st2 <> NegInf.
Proof.
  intros Hbest Hcur Hs Htl m st2. unfold st2, update_c_best. cbn [c_best_score].
  assert (Hwarn : forall b, Forall (scored_below b) tl).
  { intros b. eapply Forall_impl; [exact Htl|]. by intros [|]. }
  destruct (fge (Fin (metric (predict m))) (c_best_score st)) eqn:Hge;
    cbn [c_best_score c_best_pred c_best_model].
  - split; [|split; [|split]]; [| |done|done].
    + right. exists m0, cf. unfold deepcopy. split; [|done].
      rewrite !in_app_iff. right. right. left. by left.
    + apply Forall_app. split.
      * eapply Forall_impl; [exact Hcur|]. intros ev. by apply scored_below_mono.
      * apply Forall_app. split; [|done]. constructor; [|done].
        cbn. intros cf' Hs' _. rewrite Hs in Hs'. injection Hs' as <-.
        apply fge_refl.
  - split; [|split; [|split]].
    + eapply best_of_run_mono; [|exact Hbest].
      intros ev. rewrite !in_app_iff. tauto.
    + apply Forall_app. split; [done|].
      apply Forall_app. split; [|done]. constructor; [|done].
      cbn. intros cf' Hs' _. rewrite Hs in Hs'. injection Hs' as <-.
      by apply fge_total.
    + by destruct (c_best_score st); [|apply fge_refl].
    + by destruct (c_best_score st).
Qed.

Lemma inner_loop_best l1 stop len cs :
  forall n (st : inner_state Pred) pre cur tr' st',
    best_of_run (pre ++ cur) (c_best_score st) (c_best_pred st) (c_best_model st) ->
    Forall (scored_below (c_best_score st)) cur ->
    inner_loop l1 stop len n cs st (pre ++ cur) = (tr', Ok st') ->
    exists cur',
      tr' = pre ++ cur' /\
      best_of_run tr' (c_best_score st') (c_best_pred st') (c_best_model st') /\
      Forall (scored_below (c_best_score st')) cur' /\
      fge (c_best_score st') (c_best_score st) = true /\
      (cs <> [] -> (n + length cs = len)%nat -> c_best_score st' <> NegInf).
Proof.
  induction cs as [|c rest IH]; intros n st pre cur tr' st' Hbest Hcur Hrun.
  - cbn in Hrun. injection Hrun as <- <-. exists cur.
    split; [done|]. split; [done|]. split; [done|]. split; [|done].
    by destruct (c_best_score st); [|apply fge_refl].
  - rewrite inner_loop_cons in Hrun. cbv zeta in Hrun.
    set (m0 := strength_set c (model st)) in *.
    destruct (solve m0) as [cf|e] eqn:Hs; [|done].
    set (m := with_coef cf m0) in *.
    destruct (allclose0 cf && negb (n =? len - 1)%nat) eqn:Hskip.
    + (* the cell is skipped *)
      apply andb_true_iff in Hskip as [Hz Hn].
      apply negb_true_iff, Nat.eqb_neq in Hn.
      rewrite <- app_assoc in Hrun.
      apply IH in Hrun as (cur' & -> & Hb' & Hc' & Hge & Hne); cbn [c_best_score c_best_pred c_best_model].
      * exists cur'. split; [done|]. split; [done|]. split; [done|].
        split; [done|]. intros _ Hlen. apply Hne; [|cbn in Hlen; lia].
        destruct rest; [cbn in Hlen; lia|done].
      * eapply best_of_run_mono; [|exact Hbest].
        intros ev. rewrite !in_app_iff. tauto.
      * apply Forall_app. split; [done|]. constructor; [|done].
        cbn. intros cf' Hs' Hz'. fold m0 in Hs'. rewrite Hs in Hs'.
        injection Hs' as <-. congruence.
    + (* the cell is scored *)
      set (tl := if allclose0 cf then [EvWarn l1] else []).
      assert (Htl : Forall (fun ev => is_warn ev = true) tl).
      { unfold tl. destruct (allclose0 cf); repeat constructor. }
      destruct (scored_step st pre cur m0 cf tl Hbest Hcur Hs Htl)
        as (Hb2 & Hc2 & Hge2 & Hne2).
      fold m in Hb2, Hc2, Hge2, Hne2.
      set (st2 := update_c_best _ _ _ _) in *.
      assert (Htr2 : (if allclose0 cf
                      then ((pre ++ cur) ++ [EvFit m0]) ++ [EvWarn l1]
                      else (pre ++ cur) ++ [EvFit m0])
                     = pre ++ (cur ++ [EvFit m0] ++ tl)).
      { unfold tl. destruct (allclose0 cf); rewrite <- ?app_assoc; cbn;
          by rewrite ?app_nil_r. }
      rewrite Htr2 in Hrun.
      assert (Hdone : forall tr'' st'',
                (pre ++ cur ++ [EvFit m0] ++ tl, Ok st2) = (tr'', Ok st'') ->
                exists cur',
                  tr'' = pre ++ cur' /\
                  best_of_run tr'' (c_best_score st'') (c_best_pred st'')
                    (c_best_model st'') /\
                  Forall (scored_below (c_best_score st'')) cur' /\
                  fge (c_best_score st'') (c_best_score st) = true /\
                  (c :: rest <> [] -> (n + length (c :: rest) = len)%nat ->
                   c_best_score st'' <> NegInf)).
      { intros tr'' st'' [= <- <-]. eexists. split; [done|]. by repeat split. }
      destruct (stop <=? es st2)%Z; [by apply Hdone|].
      destruct (time_limit_exceeded _); [by apply Hdone|].
      destruct (all_nonzero cf); [by apply Hdone|].
      apply IH in Hrun as (cur' & -> & Hb' & Hc' & Hge & Hne); [|done..].
      exists cur'. split; [done|]. split; [done|]. split; [done|].
      split; [by eapply fge_trans|].
      intros _ _ Heq. rewrite Heq in Hge.
      by destruct (c_best_score st2).
Qed.

Lemma outer_loop_best base cs stop l1s :
  forall (st : outer_state Pred) tr tr' st',
    best_of_run tr (best_score st) (best_pred st) (best_model st) ->
    Forall (scored_below (best_score st)) tr ->
    outer_loop base cs stop l1s st tr = (tr', Ok st') ->
    best_of_run tr' (best_score st') (best_pred st') (best_model st') /\
    Forall (scored_below (best_score st')) tr' /\
    fge (best_score st') (best_score st) = true /\
    (cs <> [] -> l1s <> [] -> best_score st' <> NegInf).
Proof.
  induction l1s as [|l1 rest IH]; intros st tr tr' st' Hbest Hall Hrun.
  - cbn in Hrun. injection Hrun as <- <-. repeat split; try done.
    by destruct (best_score st); [|apply fge_refl].
  - rewrite outer_loop_cons in Hrun.
    destruct (inner_loop l1 stop (length cs) 0 cs (mkInner base NegInf None None 0) tr)
      as [tr1 [ist|e]] eqn:Hin; [|done].
    rewrite <- (app_nil_r tr) in Hin.
    apply inner_loop_best in Hin as (cur' & -> & Hb1 & Hc1 & _ & Hne1);
      [|by left|done].
    cbv zeta in Hrun.
    assert (Hinv : best_of_run (tr ++ cur') (best_score (update_best ist st))
                     (best_pred (update_best ist st))
                     (best_model (update_best ist st)) /\
                   Forall (scored_below (best_score (update_best ist st)))
                     (tr ++ cur') /\
                   fge (best_score (update_best ist st)) (best_score st) = true /\
                   (cs <> [] -> best_score (update_best ist st) <> NegInf)).
    { unfold update_best, deepcopy.
      destruct (fge (c_best_score ist) (best_score st)) eqn:Hge;
        cbn [best_score best_pred best_model].
      - split; [done|]. split; [|split; [done|]].
        + apply Forall_app. split; [|done].
          eapply Forall_impl; [exact Hall|]. intros ev.
          by apply scored_below_mono.
        + intros Hcs. by apply Hne1.
      - split; [|split; [|split]].
        + eapply best_of_run_mono; [|exact Hbest].
          intros ev. rewrite in_app_iff. tauto.
        + apply Forall_app. split; [done|].
          eapply Forall_impl; [exact Hc1|]. intros ev.
          apply scored_below_mono. by apply fge_total.
        + by destruct (best_score st); [|apply fge_refl].
        + intros _ Heq. rewrite Heq in Hge. by destruct (c_best_score ist). }
    destruct Hinv as (Hb2 & Hc2 & Hge2 & Hne2).
    destruct (time_limit_exceeded (tr ++ cur')).
    + injection Hrun as <- <-. repeat split; try done. intros Hcs _. by apply Hne2.
    + apply IH in Hrun as (Hb3 & Hc3 & Hge3 & Hne3); [|done..].
      repeat split; try done; [by eapply fge_trans|].
      intros Hcs _ Heq. rewrite Heq in Hge3.
      specialize (Hne2 Hcs). by destruct (best_score (update_best ist st)).
Qed.

Lemma path_search_best base cs l1s stop tr st :
  path_search base cs l1s stop [] = (tr, Ok st) ->
  best_of_run tr (best_score st) (best_pred st) (best_model st) /\
  Forall (scored_below (best_score st)) tr /\
  (cs <> [] -> l1s <> [] -> best_score st <> NegInf).
Proof.
  unfold LinearSklearn.path_search. intros Hrun.
  apply outer_loop_best in Hrun as (H1 & H2 & _ & H4); [|by left|done].
  repeat split; try done. intros Hcs Hl1. apply H4; [done|].
  intros Heq. apply (f_equal length) in Heq.
  rewrite length_sorted_desc in Heq. by destruct l1s.
Qed.

Lemma fit_predict_single_fold_ok task p om v :
  (fit_predict_single_fold task p).2 = Ok (om, v) ->
  exists base st,
    _infer_params task p = Ok (base, p_cs p, p_l1_ratios p, p_early_stopping p) /\
    path_search base (p_cs p) (items (p_l1_ratios p)) (p_early_stopping p) []
    = ((fit_predict_single_fold task p).1, Ok st) /\
    om = best_model st /\ bw_func (best_pred st) = Ok v.
Proof.
  rewrite fit_predict_single_fold_eq.
  destruct (_infer_params task p) as [[[[base cs] l1s] stop]|e0] eqn:Hinf; [|done].
  assert (cs = p_cs p /\ l1s = p_l1_ratios p /\ stop = p_early_stopping p)
    as (-> & -> & ->).
  { unfold _infer_params in Hinf. repeat case_match; by simplify_eq. }
  destruct (path_search _ _ _ _ _) as [tr [st|e]] eqn:Hps; [|done].
  destruct (bw_func (best_pred st)) as [v'|e] eqn:Hbw; [|done].
  cbn. intros [= <- <-]. exists base, st. by repeat split.
Qed.

(** X1. The model [fit_predict_single_fold] returns is the estimator one
    of its own calls of [model.fit] left, and the predictions it returns
    are [bw_func] of the predictions of that same model on the validation
    data. *)
Theorem returned_model_is_a_fit_of_the_run task p m v :
  (fit_predict_single_fold task p).2 = Ok (Some m, v) ->
  exists m0 cf,
    In (EvFit m0) (fit_predict_single_fold task p).1 /\
    solve m0 = Ok cf /\ m = with_coef cf m0 /\
    bw_func (Some (predict m)) = Ok v.
Proof.
  intros Hres.
  apply fit_predict_single_fold_ok in Hres as (base & st & _ & Hrun & Hm & Hbw).
  apply path_search_best in Hrun as ([(_ & _ & Hnone)|Hsome] & _ & _).
  - congruence.
  - destruct Hsome as (m0 & cf & Hin & Hs & Hbm & _ & Hbp).
    exists m0, cf. rewrite Hbm in Hm. injection Hm as ->.
    by rewrite Hbp in Hbw.
Qed.

(** X2. The returned model scores at least as well on the validation data
    as every fit of the run whose coefficients are not all zero. *)
Theorem returned_model_scores_best task p m v m0 cf :
  (fit_predict_single_fold task p).2 = Ok (Some m, v) ->
  In (EvFit m0) (fit_predict_single_fold task p).1 ->
  solve m0 = Ok cf -> allclose0 cf = false ->
  (metric (predict (with_coef cf m0)) <= metric (predict m))%Q.
Proof.
  intros Hres Hin Hs Hz.
  apply fit_predict_single_fold_ok in Hres as (base & st & _ & Hrun & Hm & Hbw).
  apply path_search_best in Hrun as ([(_ & _ & Hnone)|Hsome] & Hall & _).
  - congruence.
  - destruct Hsome as (m1 & cf1 & _ & _ & Hbm & Hsc & _).
    rewrite Hbm in Hm. injection Hm as ->.
    rewrite Forall_forall in Hall. apply list_elem_of_In in Hin.
    specialize (Hall _ Hin cf Hs Hz). rewrite Hsc in Hall.
    by apply Qle_bool_iff in Hall.
Qed.

(** X3. A run that does not raise returns no model exactly when the grid
    is empty: with at least one strength and one ratio there is always a
    best model, since the last cell of a ratio is scored even when its
    coefficients are all zero. *)
Theorem no_model_iff_empty_grid task p om v :
  (fit_predict_single_fold task p).2 = Ok (om, v) ->
  (om = None <-> p_cs p = [] \/ items (p_l1_ratios p) = []).
Proof.
  intros Hres.
  apply fit_predict_single_fold_ok in Hres as (base & st & _ & Hrun & -> & Hbw).
  split.
  - intros Hnone.
    destruct (p_cs p) as [|c cs] eqn:Hcs; [by left|].
    destruct (items (p_l1_ratios p)) as [|l l1s] eqn:Hl1; [by right|]. exfalso.
    apply path_search_best in Hrun as ([(Hsc & _)|Hsome] & _ & Hne).
    + by apply Hne.
    + destruct Hsome as (? & ? & _ & _ & Hbm & _). congruence.
  - unfold LinearSklearn.path_search in Hrun. intros [Hcs|Hl1].
    + rewrite Hcs in Hrun.
      destruct (outer_loop_no_cells solve Pred predict metric time_limit_exceeded base
                  (p_early_stopping p) (sorted_desc (items (p_l1_ratios p)))
                  (mkOuter (deepcopy base) NegInf None None) [] eq_refl eq_refl eq_refl)
        as (st' & Hrun' & _ & Hm).
      rewrite Hrun in Hrun'. by injection Hrun' as _ ->.
    + rewrite Hl1 in Hrun. cbn in Hrun. by injection Hrun as _ <-.
Qed.

(** *** How many calls and warnings *)

Lemma fit_calls_app tr1 tr2 : fit_calls (tr1 ++ tr2) = fit_calls tr1 ++ fit_calls tr2.
Proof. apply filter_app. Qed.

Lemma inner_loop_counts l1 stop len cs :
  forall n (st : inner_state Pred) tr,
    (n + length cs = len)%nat ->
    (length (fit_calls (inner_loop l1 stop len n cs st tr).1)
     <= length (fit_calls tr) + length cs)%nat /\
    (length (warnings (inner_loop l1 stop len n cs st tr).1)
     <= length (warnings tr) + 1)%nat.
Proof.
  induction cs as [|c rest IH]; intros n st tr Hlen;
    [unfold LinearSklearn.inner_loop, ret; cbn [fst length]; lia|].
  rewrite inner_loop_cons. cbv zeta.
  set (m0 := strength_set c (model st)).
  assert (Hf : length (fit_calls (tr ++ [EvFit m0])) = S (length (fit_calls tr))).
  { rewrite fit_calls_app, length_app.
    change (length (fit_calls [EvFit m0])) with 1%nat. lia. }
  assert (Hw : warnings (tr ++ [EvFit m0]) = warnings tr).
  { by rewrite warnings_app, app_nil_r. }
  destruct (solve m0) as [cf|e]; [|cbn [fst]; rewrite Hf, Hw; cbn; lia].
  assert (Hf2 : length (fit_calls ((tr ++ [EvFit m0]) ++ [EvWarn l1]))
                = S (length (fit_calls tr))).
  { rewrite fit_calls_app, app_nil_r. exact Hf. }
  assert (Hw2 : length (warnings ((tr ++ [EvFit m0]) ++ [EvWarn l1]))
                = S (length (warnings tr))).
  { rewrite warnings_app, Hw, length_app.
    change (length (warnings [EvWarn l1])) with 1%nat. lia. }
  cbn [length] in *.
  destruct (allclose0 cf); cbn [andb].
  - destruct (n =? len - 1)%nat eqn:Hn; cbn [negb].
    + apply Nat.eqb_eq in Hn.
      assert (rest = []) as -> by (destruct rest; [done|cbn in Hlen; lia]).
      repeat case_match; cbn [fst LinearSklearn.inner_loop ret];
        rewrite Hf2, Hw2; cbn; lia.
    + destruct (IH (S n) (mkInner (with_coef cf m0) (c_best_score st)
                            (c_best_pred st) (c_best_model st) (es st))
                  (tr ++ [EvFit m0]) ltac:(lia)) as [H1 H2].
      rewrite Hf, Hw in *. lia.
  - set (st2 := update_c_best _ _ _ _).
    destruct (IH (S n) st2 (tr ++ [EvFit m0]) ltac:(lia)) as [H1 H2].
    rewrite Hf, Hw in *.
    repeat case_match; cbn [fst]; rewrite ?Hf, ?Hw; lia.
Qed.

Lemma outer_loop_counts base cs stop l1s :
  forall (st : outer_state Pred) tr,
    (length (fit_calls (outer_loop base cs stop l1s st tr).1)
     <= length (fit_calls tr) + length cs * length l1s)%nat /\
    (length (warnings (outer_loop base cs stop l1s st tr).1)
     <= length (warnings tr) + length l1s)%nat /\
    ((forall t, time_limit_exceeded t = true) ->
     (length (fit_calls (outer_loop base cs stop l1s st tr).1)
      <= length (fit_calls tr) + length cs)%nat /\
     (length (warnings (outer_loop base cs stop l1s st tr).1)
      <= length (warnings tr) + 1)%nat).
Proof.
  induction l1s as [|l1 rest IH]; intros st tr;
    [rewrite outer_loop_nil; cbn [fst length]; lia|].
  rewrite outer_loop_cons.
  destruct (inner_loop_counts l1 stop (length cs) cs 0%nat
              (mkInner base NegInf None None 0) tr eq_refl) as [Hf Hw].
  destruct (inner_loop l1 stop (length cs) 0 cs _ tr) as [tr1 [ist|e]];
    cbn [fst] in Hf, Hw; cbn [length].
  - cbv zeta. destruct (time_limit_exceeded tr1) eqn:Ht; cbn [fst].
    + split; [nia|]. split; [lia|]. intros _. lia.
    + destruct (IH (update_best ist st) tr1) as (H1 & H2 & _).
      split; [nia|]. split; [lia|]. intros Hall. by rewrite Hall in Ht.
  - cbn [fst]. split; [nia|]. split; [lia|]. intros _. lia.
Qed.

(** X5. Whatever the solver and the timer do, the search calls
    [model.fit] at most once per cell of the grid and warns at most once
    per mixing ratio; and when the timer reports the limit exceeded at
    every check, only the first ratio is visited: at most [len(cs)] calls
    and one warning. *)
Theorem fit_and_warning_counts task p :
  (length (fit_calls (fit_predict_single_fold task p).1)
   <= length (p_cs p) * length (items (p_l1_ratios p)))%nat /\
  (length (warnings (fit_predict_single_fold task p).1)
   <= length (items (p_l1_ratios p)))%nat /\
  ((forall t, time_limit_exceeded t = true) ->
   (length (fit_calls (fit_predict_single_fold task p).1) <= length (p_cs p))%nat /\
   (length (warnings (fit_predict_single_fold task p).1) <= 1)%nat).
Proof.
  rewrite fit_predict_single_fold_eq.
  destruct (_infer_params task p) as [[[[base cs] l1s] stop]|e0] eqn:Hinf;
    [|cbn; lia].
  assert (cs = p_cs p /\ l1s = p_l1_ratios p) as (-> & ->).
  { unfold _infer_params in Hinf. repeat case_match; by simplify_eq. }
  unfold LinearSklearn.path_search.
  destruct (outer_loop_counts base (p_cs p) stop (sorted_desc (items (p_l1_ratios p)))
              (mkOuter (deepcopy base) NegInf None None) []) as (H1 & H2 & H3).
  rewrite length_sorted_desc in H1, H2.
  change (length (fit_calls [])) with 0%nat in *.
  change (length (warnings [])) with 0%nat in *.
  assert (Htr : forall (x : list event * result (outer_state Pred)),
            (let (tr, r) := x in
             match r with
             | Ok st =>
                 match bw_func (best_pred st) with
                 | Ok v => (tr, Ok (best_model st, v))
                 | Raise e => (tr, Raise e)
                 end
             | Raise e => (tr, Raise e)
             end).1 = x.1).
  { intros [tr [st|e]]; [|done]. by destruct (bw_func _). }
  rewrite Htr. split; [lia|]. split; [lia|]. intros Hall.
  specialize (H3 Hall). lia.
Qed.

(** *** Warm starts *)

Abbreviation fitted := (fitted solve).
Abbreviation fitted_after := (fitted_after solve).
Abbreviation warm_chain := (warm_chain solve).

Lemma fitted_after_app prev tr1 tr2 :
  fitted_after prev (tr1 ++ tr2) = fitted_after (fitted_after prev tr1) tr2.
Proof.
  revert prev. induction tr1 as [|[m|l1] tr1 IH]; intros prev; cbn; auto.
Qed.

Lemma warm_chain_app base cs prev tr1 tr2 :
  warm_chain base cs prev (tr1 ++ tr2) <->
  warm_chain base cs prev tr1 /\ warm_chain base cs (fitted_after prev tr1) tr2.
Proof.
  revert prev. induction tr1 as [|[m|l1] tr1 IH]; intros prev; cbn.
  - tauto.
  - rewrite IH. tauto.
  - apply IH.
Qed.

Abbreviation warm_state := (warm_state solve).

Lemma warm_fit_event base cs0 c m tr :
  In c cs0 -> warm_chain base cs0 None tr -> warm_state base m tr ->
  warm_chain base cs0 None (tr ++ [EvFit (strength_set c m)]).
Proof.
  intros Hc Hch Hst. apply warm_chain_app. split; [done|]. cbn.
  split; [|done]. exists c. split; [done|].
  destruct Hst as [->|Hst]; [by left|right]. by exists m.
Qed.

Lemma inner_loop_warm base cs0 l1 stop len cs :
  forall n (st : inner_state Pred) tr,
    (forall c, In c cs -> In c cs0) ->
    warm_chain base cs0 None tr -> warm_state base (model st) tr ->
    warm_chain base cs0 None (inner_loop l1 stop len n cs st tr).1.
Proof.
  induction cs as [|c rest IH]; intros n st tr Hsub Hch Hst; [done|].
  rewrite inner_loop_cons. cbv zeta.
  set (m0 := strength_set c (model st)).
  assert (Hch1 : warm_chain base cs0 None (tr ++ [EvFit m0])).
  { apply warm_fit_event; [apply Hsub; by left|done..]. }
  destruct (solve m0) as [cf|e] eqn:Hs; [|done].
  assert (Hst1 : warm_state base (with_coef cf m0) (tr ++ [EvFit m0])).
  { right. rewrite fitted_after_app. cbn. unfold PathTrace.fitted. by rewrite Hs. }
  assert (Hch2 : warm_chain base cs0 None ((tr ++ [EvFit m0]) ++ [EvWarn l1])).
  { apply warm_chain_app. by split. }
  assert (Hst2 : warm_state base (with_coef cf m0)
                   ((tr ++ [EvFit m0]) ++ [EvWarn l1])).
  { right. rewrite fitted_after_app. cbn. rewrite fitted_after_app. cbn.
    unfold PathTrace.fitted. by rewrite Hs. }
  assert (Hsub' : forall c', In c' rest -> In c' cs0).
  { intros c' Hc'. apply Hsub. by right. }
  destruct (allclose0 cf); cbn [andb].
  - destruct (negb _); [by apply IH|].
    repeat case_match; try done.
    apply IH; [done..|]. by rewrite model_update_c_best.
  - repeat case_match; try done.
    apply IH; [done..|]. by rewrite model_update_c_best.
Qed.

Lemma outer_loop_warm base cs stop l1s :
  forall (st : outer_state Pred) tr,
    warm_chain base cs None tr ->
    warm_chain base cs None (outer_loop base cs stop l1s st tr).1.
Proof.
  induction l1s as [|l1 rest IH]; intros st tr Hch; [done|].
  rewrite outer_loop_cons.
  pose proof (inner_loop_warm base cs l1 stop (length cs) cs 0%nat
                (mkInner base NegInf None None 0) tr (fun _ H => H) Hch
                (or_introl eq_refl)) as Hin.
  destruct (inner_loop _ _ _ _ _ _ _) as [tr1 [ist|e]]; [|done].
  cbv zeta. cbn [fst] in Hin.
  destruct (time_limit_exceeded tr1); [done|]. by apply IH.
Qed.

(** X4. Warm starts stay inside the path: every call of [model.fit] is
    made either on a fresh copy of [_model] or on the estimator exactly as
    the call just before it left it (its coefficients being the warm
    start), and in both cases only the strength is changed, to a value of
    [cs]. *)
Theorem fits_are_cold_or_warm_from_previous task p base cs l1s stop :
  _infer_params task p = Ok (base, cs, l1s, stop) ->
  warm_chain base cs None (fit_predict_single_fold task p).1.
Proof.
  intros Hinf. rewrite fit_predict_single_fold_eq, Hinf.
  unfold LinearSklearn.path_search.
  pose proof (outer_loop_warm base cs stop (sorted_desc (items l1s))
                (mkOuter (deepcopy base) NegInf None None) [] I) as Hout.
  destruct (outer_loop _ _ _ _ _ _) as [tr [st|e]]; [|done].
  by destruct (bw_func _).
Qed.
End Facts.

(** *** On concrete runs *)

Import PathScenarios PathScenariosMore.

(** On strengths [10, 1, 0.1] the returned model is the third fit, made on
    the second fit with [C] set to [0.1]. *)
Lemma returned_model_is_a_fit_of_the_run_witness :
  exists m0 cf,
    In (EvFit m0)
      (fit_predict_single_fold solve_sparse predict_id metric_table no_time_limit
         bw_id "binary" (grid [10 # 1; 1 # 1; 1 # 10]%Q [1 # 1]%Q)).1 /\
    solve_sparse m0 = Ok cf /\ fit_01 = with_coef cf m0 /\
    bw_id (Some (predict_id fit_01)) = Ok (Some fit_01).
Proof.
  apply (returned_model_is_a_fit_of_the_run solve_sparse estimator predict_id
           metric_table no_time_limit bw_id "binary"
           (grid [10 # 1; 1 # 1; 1 # 10]%Q [1 # 1]%Q) fit_01 (Some fit_01)).
  vm_compute. reflexivity.
Defined.

(** The first fit of that run scores [0.5], the returned one [0.9]. *)
Lemma returned_model_scores_best_witness :
  (metric_table (predict_id fit_10) <= metric_table (predict_id fit_01))%Q.
Proof.
  apply (returned_model_scores_best solve_sparse estimator predict_id
           metric_table no_time_limit bw_id "binary"
           (grid [10 # 1; 1 # 1; 1 # 10]%Q [1 # 1]%Q) fit_01 (Some fit_01)
           (with_param P_C (10 # 1) binary_base) [10 # 1; 0 # 1]%Q).
  - vm_compute. reflexivity.
  - left. vm_compute. reflexivity.
  - reflexivity.
  - reflexivity.
Defined.

(** With strengths and a ratio a model is returned; without strengths
    none. *)
Lemma no_model_iff_empty_grid_witness :
  (Some fit_01 = None <->
   p_cs (grid [10 # 1; 1 # 1; 1 # 10]%Q [1 # 1]%Q) = [] \/
   items (p_l1_ratios (grid [10 # 1; 1 # 1; 1 # 10]%Q [1 # 1]%Q)) = []) /\
  (@None estimator = None <->
   p_cs (grid [] [1 # 1]%Q) = [] \/ items (p_l1_ratios (grid [] [1 # 1]%Q)) = []).
Proof.
  split.
  - apply (no_model_iff_empty_grid solve_sparse estimator predict_id
             metric_table no_time_limit bw_id "binary"
             (grid [10 # 1; 1 # 1; 1 # 10]%Q [1 # 1]%Q) (Some fit_01) (Some fit_01)).
    vm_compute. reflexivity.
  - apply (no_model_iff_empty_grid solve_sparse estimator predict_id
             metric_table no_time_limit bw_id "binary"
             (grid [] [1 # 1]%Q) None None).
    vm_compute. reflexivity.
Defined.

(** With two ratios and two strengths and the timer always exceeded, the
    run stays within two calls and one warning. *)
Lemma fit_and_warning_counts_witness :
  (length (fit_calls
     (fit_predict_single_fold solve_null predict_id metric_table always_exceeded
        bw_id "reg" (grid [1 # 1; 2 # 1]%Q [9 # 10; 1 # 10]%Q)).1) <= 2)%nat /\
  (length (warnings
     (fit_predict_single_fold solve_null predict_id metric_table always_exceeded
        bw_id "reg" (grid [1 # 1; 2 # 1]%Q [9 # 10; 1 # 10]%Q)).1) <= 1)%nat.
Proof.
  destruct (fit_and_warning_counts solve_null estimator predict_id metric_table
              always_exceeded bw_id "reg"
              (grid [1 # 1; 2 # 1]%Q [9 # 10; 1 # 10]%Q)) as (_ & _ & H).
  apply H. intros t. reflexivity.
Defined.

(** The run on strengths [10, 1, 0.1]: a cold start, then two warm
    starts. *)
Lemma fits_are_cold_or_warm_from_previous_witness :
  warm_chain solve_sparse binary_base [10 # 1; 1 # 1; 1 # 10]%Q None
    (fit_predict_single_fold solve_sparse predict_id metric_table no_time_limit
       bw_id "binary" (grid [10 # 1; 1 # 1; 1 # 10]%Q [1 # 1]%Q)).1.
Proof.
  apply (fits_are_cold_or_warm_from_previous solve_sparse estimator predict_id
           metric_table no_time_limit bw_id "binary"
           (grid [10 # 1; 1 # 1; 1 # 10]%Q [1 # 1]%Q) binary_base
           [10 # 1; 1 # 1; 1 # 10]%Q (PyTuple [1 # 1]%Q) 2).
  reflexivity.
Defined.

End PathResultFacts.

(** * More on [get_common_concat], and [roles_parser] *)

Module DatasetUtilsFacts.

Import DatasetUtils ConcatFacts RolesParser.

Section Concat.

Variable Dataset : Type.
Variable type_of : Dataset -> dataset_type.
Variable concat : dataset_type -> list Dataset -> result Dataset.

Abbreviation get_common_concat := (get_common_concat Dataset type_of).
Abbreviation concatenate := (concatenate Dataset type_of concat).

(** X6. Which [concat] is chosen depends only on the set of types of
    the datasets, not on their order, their number or the datasets
    themselves. *)
Theorem common_concat_depends_on_types_only (ds ds' : list Dataset) :
  (forall k, (exists x, In x ds /\ type_of x = k) <->
             (exists y, In y ds' /\ type_of y = k)) ->
  get_common_concat ds = get_common_concat ds'.
Proof.
  intros Hsame. unfold DatasetUtils.get_common_concat.
  assert ((list_to_set (map type_of ds) : gset dataset_type)
          = list_to_set (map type_of ds')) as ->; [|done].
  apply set_eq. intros k. by rewrite !elem_of_types.
Qed.

(** X7. The class whose [concat] is returned is the class of one of the
    datasets, and it is either the class of all of them or
    [CSRSparseDataset]: a sparse dataset is never handed to the [concat]
    of [NumpyDataset]. *)
Theorem common_concat_class_is_present (ds : list Dataset) k :
  get_common_concat ds = Ok k ->
  (exists x, In x ds /\ type_of x = k) /\
  ((forall x, In x ds -> type_of x = k) \/ k = CSRSparseDataset).
Proof.
  unfold DatasetUtils.get_common_concat.
  set (types := list_to_set (map type_of ds) : gset dataset_type).
  case_bool_decide as Hsize.
  - apply size_1_elem_of in Hsize as [k' Hk'].
    assert (Hty : types = {[ k' ]}) by (by apply leibniz_equiv).
    rewrite Hty, elements_singleton. intros [= <-].
    split.
    + apply elem_of_types. fold types. rewrite Hty. set_solver.
    + left. intros x Hx.
      assert (Hin : type_of x ∈ types) by (apply elem_of_types; eauto).
      rewrite Hty in Hin. set_solver.
  - case_bool_decide as Hnc; [|done]. intros [= <-].
    split; [|by right].
    apply elem_of_types. fold types. rewrite Hnc. set_solver.
Qed.

(** X8. On an empty sequence [concatenate] raises [TypeError], and no
    [concat] is called. *)
Theorem concatenate_empty_raises :
  concatenate [] = ([], Raise TypeError).
Proof.
  unfold DatasetUtils.concatenate, DatasetUtils.get_common_concat.
  cbn [map]. rewrite list_to_set_nil, size_empty.
  rewrite bool_decide_eq_false_2 by done.
  rewrite bool_decide_eq_false_2; [done|].
  intros Heq. assert (NumpyDataset ∈ (∅ : gset dataset_type)) as Hin.
  { rewrite Heq. set_solver. }
  set_solver.
Qed.
End Concat.

Section Roles.

Variable Role : Type.

Implicit Types (roles : gmap string Role) (pairs : list (string * Role)).

Lemma roles_parser_listing (init_roles : list (Role * feats)) :
  roles_parser init_roles = assign_all (listing init_roles) ∅.
Proof.
  unfold roles_parser, assign_all. generalize (∅ : gmap string Role).
  induction init_roles as [|[r feat] l IH]; intros roles; [done|].
  cbn [fold_left listing flat_map]. rewrite fold_left_app, IH. f_equal.
  destruct feat as [f|fs]; [done|]. cbn [names].
  revert roles. induction fs as [|f fs IHfs]; intros roles; [done|].
  cbn. apply IHfs.
Qed.

Lemma in_listing (init_roles : list (Role * feats)) f r :
  In (f, r) (listing init_roles) <->
  exists feat, In (r, feat) init_roles /\ In f (names feat).
Proof.
  unfold listing. rewrite in_flat_map. split.
  - intros ([r' feat] & Hin & Hf). apply in_map_iff in Hf as (f' & [= <- <-] & Hf).
    eauto.
  - intros (feat & Hin & Hf). exists (r, feat). split; [done|].
    apply in_map_iff. eauto.
Qed.

Lemma assign_all_is_some pairs :
  forall roles f,
    is_Some (assign_all pairs roles !! f) <->
    is_Some (roles !! f) \/ exists r, In (f, r) pairs.
Proof.
  induction pairs as [|[f' r'] pairs IH]; intros roles f; cbn.
  - split; [by left|]. by intros [?|[? []]].
  - unfold assign_all in *. cbn. rewrite IH, lookup_insert_is_Some. split.
    + intros [[->|[_ H]]|[r H]]; eauto.
    + intros [H|[r [[= -> ->]|H]]]; eauto.
      destruct (decide (f' = f)) as [->|Hne]; eauto.
Qed.

Lemma assign_all_keeps pairs r :
  forall roles f,
    (forall r', In (f, r') pairs -> r' = r) -> roles !! f = Some r ->
    assign_all pairs roles !! f = Some r.
Proof.
  induction pairs as [|[f' r'] pairs IH]; intros roles f Hsame Hf; [done|].
  unfold assign_all in *. cbn. apply IH.
  - intros r'' H. apply Hsame. by right.
  - destruct (decide (f' = f)) as [->|Hne].
    + rewrite lookup_insert_eq. f_equal. apply Hsame. by left.
    + by rewrite lookup_insert_ne.
Qed.

(** X9. The result of [roles_parser] has a role for exactly the features
    that some value of [init_roles] lists (as the one name or in the
    sequence); an empty dict gives an empty dict. *)
Theorem roles_parser_domain (init_roles : list (Role * feats)) f :
  is_Some (roles_parser init_roles !! f) <->
  exists r feat, In (r, feat) init_roles /\ In f (names feat).
Proof.
  rewrite roles_parser_listing, assign_all_is_some, lookup_empty. split.
  - intros [[? [=]]|[r Hin]]. apply in_listing in Hin as (feat & ? & ?). eauto.
  - intros (r & feat & Hin & Hf). right. exists r. apply in_listing. eauto.
Qed.

(** X10. A feature gets the role of its last listing: if [f] is listed
    under [r] and every later key that lists [f] is [r] too, the result
    maps [f] to [r], whatever the keys before say. In particular a feature
    listed once gets the role it is listed under. *)
Theorem roles_parser_last_listing_wins
    (before after : list (Role * feats)) r feat f :
  In f (names feat) ->
  (forall r' feat', In (r', feat') after -> In f (names feat') -> r' = r) ->
  roles_parser (before ++ (r, feat) :: after) !! f = Some r.
Proof.
  intros Hf Hafter. rewrite roles_parser_listing.
  unfold listing. rewrite flat_map_app. cbn [flat_map].
  fold (listing before) (listing after).
  unfold assign_all. rewrite !fold_left_app.
  fold (assign_all (listing before) ∅).
  set (roles0 := assign_all (listing before) ∅).
  fold (assign_all (map (fun f0 => (f0, r)) (names feat)) roles0).
  set (roles1 := assign_all _ roles0).
  fold (assign_all (listing after) roles1).
  apply assign_all_keeps.
  - intros r' Hin. apply in_listing in Hin as (feat' & Hin & Hf'). eauto.
  - unfold roles1. apply in_split in Hf as (n1 & n2 & ->).
    rewrite map_app. cbn [map]. unfold assign_all. rewrite fold_left_app. cbn.
    apply (assign_all_keeps (map (fun f0 => (f0, r)) n2) r).
    + intros r' Hin. apply in_map_iff in Hin as (? & [= _ <-] & _). done.
    + apply lookup_insert_eq.
Qed.
End Roles.

Import ConcatScenarios UtilsScenarios.

(** Dense with sparse, in either order and number, goes to the same
    [concat]. *)
Lemma common_concat_depends_on_types_only_witness :
  get_common_concat dataset tag mixed_a = get_common_concat dataset tag mixed_b.
Proof.
  apply common_concat_depends_on_types_only. intros k. split.
  - intros (x & [<-|[<-|[]]] & <-).
    + exists (Dense 1). split; [right; left|]; reflexivity.
    + exists (Sparse 5). split; [left|]; reflexivity.
  - intros (y & [<-|[<-|[<-|[]]]] & <-).
    + exists (Sparse 2). split; [right; left|]; reflexivity.
    + exists (Dense 1). split; [left|]; reflexivity.
    + exists (Dense 1). split; [left|]; reflexivity.
Defined.

(** Dense with sparse: the class returned is the sparse one, which is
    present. *)
Lemma common_concat_class_is_present_witness :
  (exists x, In x mixed_a /\ tag x = CSRSparseDataset) /\
  ((forall x, In x mixed_a -> tag x = CSRSparseDataset) \/
   CSRSparseDataset = CSRSparseDataset).
Proof.
  apply (common_concat_class_is_present dataset tag mixed_a CSRSparseDataset).
  vm_compute. reflexivity.
Defined.

(** ["age"] is listed under two roles and gets the later one; ["city"] is
    listed once. *)
Lemma roles_parser_last_listing_wins_witness :
  roles_parser old_roles !! "age" = Some "datetime" /\
  roles_parser old_roles !! "city" = Some "category".
Proof.
  split.
  - apply (roles_parser_last_listing_wins string
             [("numeric", Many ["age"; "income"]); ("category", One "city")]
             [] "datetime" (Many ["age"; "joined"]) "age").
    + left. reflexivity.
    + intros r' feat' [].
  - apply (roles_parser_last_listing_wins string
             [("numeric", Many ["age"; "income"])]
             [("datetime", Many ["age"; "joined"])] "category" (One "city") "city").
    + left. reflexivity.
    + intros r' feat' [[= <- <-]|[]] Hin. cbn in Hin.
      destruct Hin as [Hx|[Hx|[]]]; discriminate Hx.
Defined.

End DatasetUtilsFacts.

(** * More on [OptunaTuner.fit]: what it keeps *)

Module TunerInvariants.

Import OptunaTuning TunerState TunerFacts.

Section Facts.

Variables Params Preds Iterator AlgoRest : Type.
Variable estimate_tuner_time : ml_algo Params AlgoRest -> nat -> Q.
Variable iter_len : Iterator -> nat.
Variable is_holdout : Iterator -> bool.
Variable convert_to_holdout_iterator : Iterator -> result Iterator.
Variable trial_params_values :
  ml_algo Params AlgoRest -> pynum -> Iterator -> Z -> list (frozen_trial Params) -> Params.
Variable fit_predict :
  ml_algo Params AlgoRest -> Iterator -> result (ml_algo Params AlgoRest * Preds).
Variable score : ml_algo Params AlgoRest -> Preds -> Q.
Variable trial_duration : nat -> Q.
Variable duration_mean : list Q -> PrimFloat.float.

Abbreviation objective := (objective trial_params_values fit_predict score).
Abbreviation optimize_loop :=
  (optimize_loop trial_params_values fit_predict score trial_duration duration_mean).
Abbreviation optimize :=
  (optimize trial_params_values fit_predict score trial_duration duration_mean).
Abbreviation update_trial_time := (update_trial_time duration_mean).
Abbreviation tune :=
  (tune trial_params_values fit_predict score trial_duration duration_mean).
Abbreviation fit_setup :=
  (fit_setup estimate_tuner_time iter_len is_holdout convert_to_holdout_iterator).
Abbreviation fit :=
  (fit estimate_tuner_time iter_len is_holdout convert_to_holdout_iterator
     trial_params_values fit_predict score trial_duration duration_mean).

Implicit Types (w : world Params AlgoRest) (h : gmap nat (ml_algo Params AlgoRest))
  (a : ml_algo Params AlgoRest) (s : tuner Params).

(** *** The tuner's settings and its estimate *)

Lemma update_trial_time_bounded algo w :
  bounded_estimate (self w) ->
  bounded_estimate (self (update_trial_time algo w).1).
Proof.
  unfold OptunaTuning.update_trial_time, bounded_estimate.
  destruct (floordiv _ _) as [q|e]; cbn; [|done]. intros _.
  unfold num_min, num_lt.
  destruct (PyFloat.int_compare (n_trials (self w)) q) as [[]|] eqn:Hc;
    cbn; rewrite ?Hc; try done; apply Z.leb_refl.
Qed.

Lemma optimize_loop_settings algo est0 it tmo fuel :
  forall elapsed w,
    same_settings (self w) (self (optimize_loop algo est0 it tmo fuel elapsed w).1) /\
    (bounded_estimate (self w) ->
     bounded_estimate (self (optimize_loop algo est0 it tmo fuel elapsed w).1)).
Proof.
  induction fuel as [|fuel IH]; intros elapsed w.
  - cbn. split; [apply same_settings_refl|done].
  - cbn [OptunaTuning.optimize_loop].
    destruct (Qle_bool tmo elapsed); [split; [apply same_settings_refl|done]|].
    destruct (objective _ _ _ _ _ _) as [h1 [[p v]|e]];
      [|split; [apply same_settings_refl|done]].
    set (w1 := mkWorld h1 _).
    destruct (update_trial_time_self _ _ duration_mean algo w1) as (Hset & _ & _).
    pose proof (update_trial_time_bounded algo w1) as Hb.
    assert (Hset1 : same_settings (self w) (self w1)) by (by repeat split).
    destruct (update_trial_time algo w1) as [w2 [[]|e]]; cbn [fst] in *.
    + destruct (IH (elapsed + trial_duration (length (study (self w))))%Q w2)
        as [Hs Hbe].
      split; [eauto using same_settings_trans|]. intros H. apply Hbe, Hb. exact H.
    + split; [eauto using same_settings_trans|]. intros H. apply Hb. exact H.
Qed.

Lemma tune_settings algo it flg w :
  same_settings (self w) (self (tune algo it flg w).1) /\
  (bounded_estimate (self w) -> bounded_estimate (self (tune algo it flg w).1)).
Proof.
  unfold OptunaTuning.tune, OptunaTuning.optimize.
  set (w0 := mkWorld (heap w) _).
  destruct (optimize_loop_settings algo (estimated_n_trials (self w0)) it
              (timeout (self w0)) (Z.to_nat (n_trials (self w0))) (0 # 1)%Q w0)
    as [Hs Hb].
  assert (Hs0 : same_settings (self w) (self w0)) by (by repeat split).
  assert (Hb0 : bounded_estimate (self w) -> bounded_estimate (self w0)) by done.
  destruct (optimize_loop _ _ _ _ _ _ _) as [w1 [[]|e]]; cbn [fst] in *;
    [|split; [eauto using same_settings_trans|auto]].
  destruct (best_trial _ _) as [bt|e]; cbn [fst];
    [|split; [eauto using same_settings_trans|auto]].
  assert (Hs3 : same_settings (self w) (with_best_params (t_params bt) (self w1))).
  { eapply same_settings_trans; [exact Hs0|].
    eapply same_settings_trans; [exact Hs|]. by repeat split. }
  assert (Hb3 : bounded_estimate (self w) ->
                bounded_estimate (with_best_params (t_params bt) (self w1))).
  { intros H. apply Hb, Hb0, H. }
  destruct (heap w1 !! algo) as [a|]; [|done].
  destruct (fit_predict _ _) as [[a2 preds]|e]; [destruct flg|]; done.
Qed.

Lemma fit_setup_self a it w :
  self (fit_setup a it w).1
  = _upd_timeout (self w) (pymax (estimate_tuner_time a (iter_len it)) (1 # 1)).
Proof.
  unfold OptunaTuning.fit_setup, alloc.
  destruct (_ && _); [destruct (convert_to_holdout_iterator it)|]; done.
Qed.

Lemma pymin_le_l (x y : Q) : (pymin x y <= x)%Q.
Proof.
  unfold pymin. destruct (Qle_bool x y) eqn:H; [apply Qle_refl|].
  apply Qlt_le_weak, Qnot_le_lt. intros Hle. apply Qle_bool_iff in Hle. congruence.
Qed.

Lemma pymin_le_r (x y : Q) : (pymin x y <= y)%Q.
Proof.
  unfold pymin. destruct (Qle_bool x y) eqn:H; [by apply Qle_bool_iff|apply Qle_refl].
Qed.

Lemma fit_self ml_algo it w a :
  heap w !! ml_algo = Some a -> is_fitted a = false ->
  same_settings
    (_upd_timeout (self w) (pymax (estimate_tuner_time a (iter_len it)) (1 # 1)))
    (self (fit ml_algo it w).1) /\
  (bounded_estimate (self w) -> bounded_estimate (self (fit ml_algo it w).1)).
Proof.
  intros Hl Hf. unfold OptunaTuning.fit. rewrite Hl, Hf.
  pose proof (fit_setup_self a it w) as Hself.
  destruct (fit_setup a it w) as [w1 [[[copy it'] flg]|e]]; cbn [fst] in *.
  - destruct (tune_settings copy it' flg w1) as [Hs Hb].
    rewrite Hself in Hs, Hb.
    destruct (tune copy it' flg w1) as [w2 [r|e]]; cbn [fst] in *.
    + split; [done|]. intros H. by apply Hb.
    + destruct e; cbn [fst]; (split; [done|]); intros H; by apply Hb.
  - rewrite Hself. split; [apply same_settings_refl|done].
Qed.

(** X11. [fit] never changes [n_trials], and [estimated_n_trials] never
    exceeds it: if the estimate is within [n_trials] before the call (as
    [__init__] leaves it), it is within it afterwards, however the run
    ends. *)
Theorem estimate_stays_within_n_trials ml_algo it w :
  n_trials (self (fit ml_algo it w).1) = n_trials (self w) /\
  (num_le (estimated_n_trials (self w)) (Int (n_trials (self w))) = true ->
   num_le (estimated_n_trials (self (fit ml_algo it w).1))
     (Int (n_trials (self (fit ml_algo it w).1))) = true).
Proof.
  destruct (heap w !! ml_algo) as [a|] eqn:Hl.
  - destruct (is_fitted a) eqn:Hf.
    + unfold OptunaTuning.fit. by rewrite Hl, Hf.
    + destruct (fit_self ml_algo it w a Hl Hf) as [(_ & Hn & _) Hb].
      split; [by rewrite Hn|exact Hb].
  - unfold OptunaTuning.fit. by rewrite Hl.
Qed.

(** X12. [fit] on an unfitted algo leaves the tuner's [timeout] at
    [min(timeout, max(estimate, 1))], where [estimate] is what the algo's
    timer gives for the number of folds, however the run ends: the budget
    of the tuner never grows, and a second [fit] starts from the clamped
    value. *)
Theorem fit_clamps_timeout ml_algo it w a :
  heap w !! ml_algo = Some a -> is_fitted a = false ->
  timeout (self (fit ml_algo it w).1)
  = pymin (timeout (self w)) (pymax (estimate_tuner_time a (iter_len it)) (1 # 1)) /\
  (timeout (self (fit ml_algo it w).1) <= timeout (self w))%Q /\
  (timeout (self (fit ml_algo it w).1)
   <= pymax (estimate_tuner_time a (iter_len it)) (1 # 1))%Q.
Proof.
  intros Hl Hf. destruct (fit_self ml_algo it w a Hl Hf) as [(Ht & _) _].
  rewrite Ht. cbn. split; [done|]. split; [apply pymin_le_l|apply pymin_le_r].
Qed.

(** *** The store *)

Lemma fit_setup_heap a it w :
  heap (fit_setup a it w).1 = <[fresh (dom (heap w)) := a]> (heap w) /\
  forall copy it' flg,
    (fit_setup a it w).2 = Ok (copy, it', flg) ->
    copy = fresh (dom (heap w)) /\
    (flg = false -> it' = it).
Proof.
  unfold OptunaTuning.fit_setup, alloc, deepcopy.
  destruct (_ && _); [destruct (convert_to_holdout_iterator it)|]; cbn;
    (split; [done|]); intros ? ? ? [= <- <- <-]; done.
Qed.

(** X13. [fit] touches no object that existed before the call: every
    algo in the store is afterwards what it was, not only the one that
    is tuned; and the algo [fit] returns is a new object. *)
Theorem fit_touches_no_existing_object ml_algo it w :
  (forall l, is_Some (heap w !! l) ->
             heap (fit ml_algo it w).1 !! l = heap w !! l) /\
  (forall l preds, (fit ml_algo it w).2 = Ok (Some (l, preds)) ->
                   heap w !! l = None /\ is_Some (heap (fit ml_algo it w).1 !! l)).
Proof.
  unfold OptunaTuning.fit.
  destruct (heap w !! ml_algo) as [a|] eqn:Hl; [|done].
  destruct (is_fitted a) eqn:Hf; [done|].
  destruct (fit_setup_heap a it w) as [Hh Hcopy].
  destruct (fit_setup a it w) as [w1 [[[copy it'] flg]|e]]; cbn [fst snd] in *.
  - destruct (Hcopy _ _ _ eq_refl) as [-> _].
    assert (Hframe : forall l, is_Some (heap w !! l) ->
              heap (tune (fresh (dom (heap w))) it' flg w1).1 !! l = heap w !! l).
    { intros l Hsome.
      pose proof (fresh_not_allocated _ _ (heap w) l Hsome) as Hne.
      rewrite (tune_frame _ _ _ _ trial_params_values fit_predict score
                 trial_duration duration_mean (fresh (dom (heap w))) it' flg w1 l);
        rewrite ?Hh, ?lookup_insert_ne; done. }
    destruct (tune_result _ _ _ _ trial_params_values fit_predict score
                trial_duration duration_mean (fresh (dom (heap w))) it' flg w1) as [_ Hsome].
    destruct (tune _ it' flg w1) as [w2 [r|e]]; cbn [fst snd] in *.
    + split; [exact Hframe|]. intros l preds [= ->].
      destruct (Hsome _ _ eq_refl) as (-> & _ & _ & a' & _ & _ & _ & Ha').
      split; [|by rewrite Ha'].
      apply not_elem_of_dom, is_fresh.
    + destruct e; cbn [fst snd]; (split; [exact Hframe|]); done.
  - split; [|done]. intros l Hsome. rewrite Hh.
    rewrite lookup_insert_ne; [done|]. by apply fresh_not_allocated.
Qed.

Lemma with_mean_same_but_time t a : same_but_time a (with_mean_trial_time t a).
Proof. by repeat split. Qed.

Lemma same_but_time_trans a1 a2 a3 :
  same_but_time a1 a2 -> same_but_time a2 a3 -> same_but_time a1 a3.
Proof. unfold same_but_time. intuition congruence. Qed.

Lemma update_trial_time_algo algo w a :
  heap w !! algo = Some a ->
  exists a', heap (update_trial_time algo w).1 !! algo = Some a' /\
             same_but_time a a'.
Proof.
  intros Ha. unfold OptunaTuning.update_trial_time.
  destruct (floordiv _ _); cbn; rewrite lookup_alter_eq, Ha; cbn;
    eexists; (split; [done|]); apply with_mean_same_but_time.
Qed.

Lemma optimize_loop_algo algo est0 it tmo fuel :
  forall elapsed w a,
    heap w !! algo = Some a ->
    exists a', heap (optimize_loop algo est0 it tmo fuel elapsed w).1 !! algo = Some a' /\
               same_but_time a a'.
Proof.
  induction fuel as [|fuel IH]; intros elapsed w a Ha.
  - exists a. by repeat split.
  - cbn [OptunaTuning.optimize_loop].
    destruct (Qle_bool tmo elapsed); [exists a; by repeat split|].
    pose proof (objective_frame _ _ _ _ trial_params_values fit_predict score
                  algo est0 it (random_state (self w)) (study (self w)) (heap w)
                  algo (mk_is_Some _ _ Ha)) as Hobj.
    rewrite Ha in Hobj.
    destruct (objective _ _ _ _ _ _) as [h1 [[p v]|e]]; cbn [fst] in Hobj;
      [|exists a; by repeat split].
    set (w1 := mkWorld h1 _).
    destruct (update_trial_time_algo algo w1 a Hobj) as (a1 & Ha1 & Hsame1).
    destruct (update_trial_time algo w1) as [w2 [[]|e]]; cbn [fst] in *.
    + destruct (IH (elapsed + trial_duration (length (study (self w))))%Q w2 a1 Ha1)
        as (a' & Ha' & Hsame').
      exists a'. split; [done|]. by eapply same_but_time_trans.
    + by exists a1.
Qed.

Lemma tune_refit algo it flg w a l preds :
  heap w !! algo = Some a ->
  (tune algo it flg w).2 = Ok (Some (l, preds)) ->
  exists bt mt a',
    In bt (study (self (tune algo it flg w).1)) /\
    fit_predict (mkAlgo (t_params bt) (is_fitted a) mt (rest a)) it = Ok (a', preds) /\
    heap (tune algo it flg w).1 !! l = Some a'.
Proof.
  intros Ha. unfold OptunaTuning.tune, OptunaTuning.optimize.
  set (w0 := mkWorld (heap w) _).
  destruct (optimize_loop_algo algo (estimated_n_trials (self w0)) it
              (timeout (self w0)) (Z.to_nat (n_trials (self w0))) (0 # 1)%Q w0 a Ha)
    as (a1 & Ha1 & Hp & Hf & Hr).
  destruct (optimize_loop _ _ _ _ _ _ _) as [w1 [[]|e]]; cbn [fst] in *; [|done].
  destruct (best_trial _ _) as [bt|e] eqn:Hbest; [|done].
  assert (Hin : In bt (study (self w1))).
  { unfold best_trial in Hbest. destruct (study (self w1)) as [|t tl]; [done|].
    injection Hbest as <-.
    destruct (best_from_first_best _ (tuner_direction (self w1)) tl t)
      as (before & after & Heq & _).
    rewrite Heq. apply in_elt. }
  rewrite Ha1.
  assert (Heq : with_params (t_params bt) a1
                = mkAlgo (t_params bt) (is_fitted a) (mean_trial_time a1) (rest a)).
  { unfold with_params. by rewrite Hf, Hr. }
  rewrite Heq.
  destruct (fit_predict _ _) as [[a2 preds']|e] eqn:Hfp; [|done].
  destruct flg; cbn [fst snd]; [done|]. intros [= <- <-].
  exists bt, (mean_trial_time a1), a2. cbn [heap self study with_best_params].
  split; [exact Hin|]. split; [done|]. apply lookup_insert_eq.
Qed.

(** X14. No state of a trial reaches the algo [fit] returns: it is what
    [fit_predict], on the iterator the caller gave, leaves of an algo
    that has the parameters of one trial of the study and otherwise the
    attributes of the caller's algo (unfitted), only [mean_trial_time]
    set by the callback. *)
Theorem returned_algo_is_refit_of_callers ml_algo it w a l preds :
  heap w !! ml_algo = Some a ->
  (fit ml_algo it w).2 = Ok (Some (l, preds)) ->
  exists bt mt a',
    In bt (study (self (fit ml_algo it w).1)) /\
    fit_predict (mkAlgo (t_params bt) false mt (rest a)) it = Ok (a', preds) /\
    heap (fit ml_algo it w).1 !! l = Some a'.
Proof.
  intros Hl. unfold OptunaTuning.fit. rewrite Hl.
  destruct (is_fitted a) eqn:Hf; [done|].
  destruct (fit_setup_heap a it w) as [Hh Hcopy].
  destruct (fit_setup a it w) as [w1 [[[copy it'] flg]|e]]; cbn [fst snd] in *;
    [|done].
  destruct (Hcopy _ _ _ eq_refl) as [-> Hit].
  assert (Ha : heap w1 !! fresh (dom (heap w)) = Some a).
  { by rewrite Hh, lookup_insert_eq. }
  pose proof (tune_refit (fresh (dom (heap w))) it' flg w1 a l preds Ha) as Hre.
  destruct (tune_result _ _ _ _ trial_params_values fit_predict score
              trial_duration duration_mean (fresh (dom (heap w))) it' flg w1) as [Hnone _].
  destruct (tune _ it' flg w1) as [w2 [r|e]]; cbn [fst snd] in *.
  - intros [= ->]. rewrite Hf in Hre.
    assert (flg = false) as Hflg.
    { destruct flg; [|done].
      pose proof (proj2 (Hnone _ eq_refl) eq_refl) as Habs. discriminate Habs. }
    rewrite (Hit Hflg) in Hre. by apply Hre.
  - by destruct e.
Qed.
End Facts.

(** *** On concrete runs *)

Import TunerScenarios.

(** After the run with trials lasting 2, 1, 1 and 1 the estimate, 4, is
    within the 100 trials asked for. *)
Lemma estimate_stays_within_n_trials_witness :
  num_le
    (estimated_n_trials
       (self (run_fit first_slow true (world_of unfitted (5 # 1) 100 true)).1))
    (Int (n_trials (self (run_fit first_slow true (world_of unfitted (5 # 1) 100 true)).1)))
  = true.
Proof.
  apply (estimate_stays_within_n_trials nat nat bool unit
           (fun _ _ => (1000 # 1)%Q) (fun _ => 5%nat) (fun b => b)
           (fun _ => Ok true) sampler fit_predict score first_slow mean_seconds
           7%nat true (world_of unfitted (5 # 1) 100 true)).
  vm_compute. reflexivity.
Defined.

(** A tuner with a timeout of 5000 and an algo whose timer allows 1000
    ends with a timeout of 1000. *)
Lemma fit_clamps_timeout_witness :
  timeout (self (run_fit first_slow true (world_of unfitted (5000 # 1) 2 true)).1)
  = pymin (5000 # 1) (pymax (1000 # 1) (1 # 1)) /\
  (timeout (self (run_fit first_slow true (world_of unfitted (5000 # 1) 2 true)).1)
   <= 5000 # 1)%Q /\
  (timeout (self (run_fit first_slow true (world_of unfitted (5000 # 1) 2 true)).1)
   <= pymax (1000 # 1) (1 # 1))%Q.
Proof.
  apply (fit_clamps_timeout nat nat bool unit
           (fun _ _ => (1000 # 1)%Q) (fun _ => 5%nat) (fun b => b)
           (fun _ => Ok true) sampler fit_predict score first_slow mean_seconds
           7%nat true (world_of unfitted (5000 # 1) 2 true) unfitted).
  - vm_compute. reflexivity.
  - reflexivity.
Defined.

(** The algo returned by the run is at address 8, which was free, and the
    algo at address 7 is as before. *)
Lemma fit_touches_no_existing_object_witness :
  heap (run_fit first_slow true (world_of unfitted (5 # 1) 100 true)).1 !! 7%nat
  = heap (world_of unfitted (5 # 1) 100 true) !! 7%nat /\
  heap (world_of unfitted (5 # 1) 100 true) !! 8%nat = None.
Proof.
  destruct (fit_touches_no_existing_object nat nat bool unit
              (fun _ _ => (1000 # 1)%Q) (fun _ => 5%nat) (fun b => b)
              (fun _ => Ok true) sampler fit_predict score first_slow mean_seconds
              7%nat true (world_of unfitted (5 # 1) 100 true)) as [Hold Hnew].
  split.
  - apply Hold. exists unfitted. vm_compute. reflexivity.
  - apply (Hnew 8%nat 1%nat). vm_compute. reflexivity.
Defined.

(** The algo returned by the run is the refit of an unfitted algo with the
    parameters of a trial. *)
Lemma returned_algo_is_refit_of_callers_witness :
  exists bt mt a',
    In bt (study (self (run_fit first_slow true (world_of unfitted (5 # 1) 100 true)).1)) /\
    fit_predict (mkAlgo (t_params bt) false mt (rest unfitted)) true = Ok (a', 1%nat) /\
    heap (run_fit first_slow true (world_of unfitted (5 # 1) 100 true)).1 !! 8%nat
    = Some a'.
Proof.
  apply (returned_algo_is_refit_of_callers nat nat bool unit
           (fun _ _ => (1000 # 1)%Q) (fun _ => 5%nat) (fun b => b)
           (fun _ => Ok true) sampler fit_predict score first_slow mean_seconds
           7%nat true (world_of unfitted (5 # 1) 100 true) unfitted 8%nat 1%nat).
  - vm_compute. reflexivity.
  - vm_compute. reflexivity.
Defined.

End TunerInvariants.

(** * Parameters of the linear models *)

(** ** Doubling a float *)

Module FloatFacts.

Import SpecFloat.

Lemma digits2_size p : digits2_pos p = Pos.size p.
Proof. induction p as [p IH|p IH|]; cbn; by rewrite ?IH. Qed.

Lemma digits2_le p : 2 ^ (Zpos (digits2_pos p) - 1) <= Zpos p.
Proof.
  rewrite digits2_size.
  pose proof (Pos.size_le p) as H.
  apply Pos2Z.pos_le_pos in H. rewrite Pos2Z.inj_pow in H.
  change (Z.pos p~0) with (2 * Z.pos p) in H.
  replace (Z.pos (Pos.size p)) with (1 + (Z.pos (Pos.size p) - 1)) in H by lia.
  rewrite Z.pow_add_r in H by lia. change (2 ^ 1) with 2 in H. lia.
Qed.

Lemma shr_1_m mrs : 0 <= shr_m mrs ->
  shr_m (shr_1 mrs) = shr_m mrs / 2 /\ 0 <= shr_m (shr_1 mrs).
Proof.
  destruct mrs as [m r s]. cbn [shr_m]. intros Hm.
  destruct m as [|p|p]; [by cbn| |lia].
  destruct p as [p|p|]; cbn [shr_1 shr_m].
  - split; [|lia]. change (Z.pos p~1) with (2 * Z.pos p + 1).
    apply Z.div_unique with 1; lia.
  - split; [|lia]. change (Z.pos p~0) with (2 * Z.pos p).
    apply Z.div_unique with 0; lia.
  - by split.
Qed.

Lemma iter_shr_m p : forall mrs, 0 <= shr_m mrs ->
  shr_m (iter_pos shr_1 p mrs) = shr_m mrs / 2 ^ Zpos p /\
  0 <= shr_m (iter_pos shr_1 p mrs).
Proof.
  induction p as [p IH|p IH|]; intros mrs Hm; cbn [iter_pos].
  - destruct (shr_1_m mrs Hm) as [H1 H1'].
    destruct (IH _ H1') as [H2 H2']. destruct (IH _ H2') as [H3 H3'].
    split; [|done]. rewrite H3, H2, H1.
    rewrite !Z.div_div by lia. f_equal.
    rewrite (Pos2Z.inj_xI p).
    replace (2 * Z.pos p + 1) with (1 + Z.pos p + Z.pos p) by lia.
    rewrite (Z.pow_add_r 2 (1 + Z.pos p) (Z.pos p)), (Z.pow_add_r 2 1 (Z.pos p)) by lia.
    change (2 ^ 1) with 2. ring.
  - destruct (IH _ Hm) as [H2 H2']. destruct (IH _ H2') as [H3 H3'].
    split; [|done]. rewrite H3, H2.
    rewrite !Z.div_div by lia. f_equal.
    rewrite (Pos2Z.inj_xO p).
    replace (2 * Z.pos p) with (Z.pos p + Z.pos p) by lia.
    by rewrite (Z.pow_add_r 2 (Z.pos p) (Z.pos p)) by lia.
  - destruct (shr_1_m mrs Hm) as [H1 H1']. split; [|done]. by rewrite H1.
Qed.

Lemma shr_record_of_loc_m m l : shr_m (shr_record_of_loc m l) = m.
Proof. by destruct l as [|[]]. Qed.

(** Rounding a value that is at least the smallest subnormal does not give
    zero. *)
Lemma shr_fexp_pos q E l :
  -1074 < Zpos (digits2_pos q) + E ->
  0 < shr_m (shr_fexp 53 1024 (Zpos q) E l).1 /\
  -1074 <= (shr_fexp 53 1024 (Zpos q) E l).2.
Proof.
  intros Hd. unfold shr_fexp, shr. cbn [Zdigits2].
  set (d := Zpos (digits2_pos q)) in *.
  assert (Hf : -1074 <= fexp 53 1024 (d + E) <= d + E - 1).
  { unfold fexp, emin. lia. }
  destruct (fexp 53 1024 (d + E) - E) as [|p|p] eqn:Hn; cbn [fst snd].
  - rewrite shr_record_of_loc_m. lia.
  - destruct (iter_shr_m p (shr_record_of_loc (Zpos q) l)) as [Hm _].
    { rewrite shr_record_of_loc_m. lia. }
    rewrite Hm, shr_record_of_loc_m. split; [|lia].
    pose proof (digits2_le q) as Hq. fold d in Hq.
    assert (2 ^ Zpos p <= 2 ^ (d - 1)) by (apply Z.pow_le_mono_r; lia).
    apply Z.div_str_pos. lia.
  - rewrite shr_record_of_loc_m. lia.
Qed.

Lemma round_nearest_even_ge m l : m <= round_nearest_even m l.
Proof. destruct l as [|[]]; cbn; try lia. destruct (Z.even m); lia. Qed.

Lemma binary_round_aux_not_zero sx q E :
  -1074 < Zpos (digits2_pos q) + E ->
  match binary_round_aux 53 1024 sx (Zpos q) E loc_Exact with
  | S754_zero _ | S754_nan => False
  | _ => True
  end.
Proof.
  intros Hd. unfold binary_round_aux.
  destruct (shr_fexp_pos q E loc_Exact Hd) as [Hm1 He1].
  destruct (shr_fexp 53 1024 (Zpos q) E loc_Exact) as [mrs' e']. cbn [fst snd] in *.
  pose proof (round_nearest_even_ge (shr_m mrs') (loc_of_shr_record mrs')) as Hr.
  destruct (round_nearest_even (shr_m mrs') (loc_of_shr_record mrs')) as [|m2|m2] eqn:Hm2;
    try lia.
  destruct (shr_fexp_pos m2 e' loc_Exact) as [Hm3 _]; [lia|].
  destruct (shr_fexp 53 1024 (Zpos m2) e' loc_Exact) as [mrs'' e'']. cbn [fst] in *.
  destruct (shr_m mrs'') as [|m3|m3]; try lia.
  by destruct (e'' <=? 1024 - 53).
Qed.

Import PrimFloat.

(** [2.0 * f] is zero only for a zero [f]: doubling is exact below the
    range, and gives an infinity beyond it. *)
Lemma double_is_zero (f : float) :
  (two * f =? zero)%float = (f =? zero)%float.
Proof.
  rewrite !FloatAxioms.eqb_spec, FloatAxioms.mul_spec.
  pose proof (FloatAxioms.Prim2SF_valid f) as Hv.
  change (FloatOps.Prim2SF two) with (S754_finite false 4503599627370496 (-51)).
  change (FloatOps.Prim2SF zero) with (S754_zero false).
  destruct (FloatOps.Prim2SF f) as [s|s| |s m e]; try reflexivity.
  unfold FloatAxioms.SF64mul, SFmul.
  cbn [valid_binary] in Hv. unfold bounded, canonical_mantissa in Hv.
  apply andb_true_iff in Hv as [Hc _]. apply Z.eqb_eq in Hc.
  assert (He : -1074 <= e).
  { rewrite <- Hc. unfold fexp, emin. change FloatOps.prec with 53.
    change FloatOps.emax with 1024. lia. }
  pose proof (binary_round_aux_not_zero (xorb false s) (4503599627370496 * m) (-51 + e))
    as Hnz.
  change FloatOps.prec with 53. change FloatOps.emax with 1024.
  destruct (binary_round_aux 53 1024 (xorb false s) (Z.pos (4503599627370496 * m))
              (-51 + e) loc_Exact) as [s'|s'| |s' m' e'] eqn:Hr.
  - exfalso. apply Hnz.
    pose proof (digits2_le (4503599627370496 * m)) as Hd.
    assert (2 ^ 52 <= Zpos (4503599627370496 * m)) by (rewrite Pos2Z.inj_mul; lia).
    assert (52 < Zpos (digits2_pos (4503599627370496 * m))).
    { destruct (Z_lt_le_dec 52 (Zpos (digits2_pos (4503599627370496 * m)))) as [|Hle]; [done|].
      exfalso. pose proof (Pos.size_gt (4503599627370496 * m)) as Hgt.
      rewrite <- digits2_size in Hgt. apply Pos2Z.pos_lt_pos in Hgt.
      rewrite Pos2Z.inj_pow in Hgt.
      assert (2 ^ Zpos (digits2_pos (4503599627370496 * m)) <= 2 ^ 52)
        by (apply Z.pow_le_mono_r; lia).
      lia. }
    lia.
  - destruct s, s'; reflexivity.
  - exfalso. apply Hnz.
    assert (2 ^ 52 <= Zpos (4503599627370496 * m)) by (rewrite Pos2Z.inj_mul; lia).
    assert (52 < Zpos (digits2_pos (4503599627370496 * m))).
    { destruct (Z_lt_le_dec 52 (Zpos (digits2_pos (4503599627370496 * m)))) as [|Hle]; [done|].
      exfalso. pose proof (Pos.size_gt (4503599627370496 * m)) as Hgt.
      rewrite <- digits2_size in Hgt. apply Pos2Z.pos_lt_pos in Hgt.
      rewrite Pos2Z.inj_pow in Hgt.
      assert (2 ^ Zpos (digits2_pos (4503599627370496 * m)) <= 2 ^ 52)
        by (apply Z.pow_le_mono_r; lia).
      lia. }
    lia.
  - destruct s, s'; reflexivity.
Qed.

End FloatFacts.

Module LinearParamsFacts.

Import LinearSklearn LinearParams.

Lemma half_inverse_cases x :
  (num_is_zero x = true /\ half_inverse x = Raise ZeroDivisionError) \/
  (num_is_zero x = false /\ exists y, half_inverse x = Ok y).
Proof.
  destruct x as [z|f]; cbn [half_inverse num_is_zero].
  - destruct (Z.eqb_spec z 0) as [->|Hz]; [by left|right].
    split; [done|]. destruct (Z.eqb_spec (2 * z) 0); [lia|by eexists].
  - change (PyFloat.of_Z 2) with PrimFloat.two.
    rewrite FloatFacts.double_is_zero.
    destruct (PrimFloat.eqb f PrimFloat.zero); [by left|right].
    split; [done|by eexists].
Qed.

(** X17. What [init_params_on_input] raises: [AssertionError] when the
    task has no sklearn loss; otherwise, for a regression task,
    [ZeroDivisionError] exactly when one of the strengths is zero; and for
    any other task it returns the default parameters as they are. *)
Theorem init_params_error_cases p task :
  init_params_on_input p task false = Raise AssertionError /\
  (task <> "reg" -> init_params_on_input p task true = Ok p) /\
  (init_params_on_input p "reg" true = Raise ZeroDivisionError <->
   exists c, In c (d_cs p) /\ num_is_zero c = true) /\
  (forall e, init_params_on_input p "reg" true = Raise e -> e = ZeroDivisionError).
Proof.
  unfold init_params_on_input. cbn [negb]. split; [done|]. split.
  { intros Hne. by rewrite bool_decide_eq_false_2. }
  rewrite bool_decide_eq_true_2 by done.
  assert (Hmap : forall cs,
            (exists c, In c cs /\ num_is_zero c = true) /\
            map_result half_inverse cs = Raise ZeroDivisionError \/
            (~ (exists c, In c cs /\ num_is_zero c = true)) /\
            exists cs', map_result half_inverse cs = Ok cs').
  { induction cs as [|c cs IH].
    - right. split; [by intros (? & [] & _)|by eexists].
    - cbn [map_result].
      destruct (half_inverse_cases c) as [[Hz Hc]|[Hne [y Hc]]]; rewrite Hc.
      + left. split; [|done]. exists c. split; [by left|done].
      + destruct IH as [[(c' & Hin & Hz) ->]|[Hno [cs' ->]]].
        * left. split; [|done]. exists c'. split; [by right|done].
        * right. split; [|by eexists].
          intros (c' & [<-|Hin] & Hz); [congruence|]. apply Hno. eauto. }
  destruct (Hmap (d_cs p)) as [[Hex ->]|[Hno [cs' ->]]].
  - split; [done|]. by intros e [= <-].
  - split; [|done]. split; [done|]. intros Hex. by destruct Hno.
Qed.

(** X18. The task names [_predict_w_model_type] accepts are those
    [_infer_params] accepts, and the method it calls exists on the
    estimator [_infer_params] builds for the task: [predict_proba] is only
    called on a [LogisticRegression], a [Lasso] or [ElasticNet] only gets
    [predict]. *)
Theorem prediction_call_fits_estimator task p :
  (is_raise (_predict_w_model_type task) = is_raise (_infer_params task p)) /\
  (forall m cs l1s stop,
     _infer_params task p = Ok (m, cs, l1s, stop) ->
     exists call, _predict_w_model_type task = Ok call /\
                  has_method (klass m) call = true).
Proof.
  unfold _predict_w_model_type, _infer_params.
  repeat case_bool_decide; subst; cbn; try done; split; try done;
    intros m cs l1s stop [= <- _ _ _]; eexists; (split; [done|]);
    by destruct (is_pure_l1 _).
Qed.

(** A zero among the strengths of a regression raises. *)
Lemma init_params_error_cases_witness :
  init_params_on_input
    (with_cs [Int 1; Float PrimFloat.neg_zero] _default_params) "reg" true
  = Raise ZeroDivisionError /\
  init_params_on_input _default_params "binary" true = Ok _default_params.
Proof.
  destruct (init_params_error_cases
              (with_cs [Int 1; Float PrimFloat.neg_zero] _default_params) "reg")
    as (_ & _ & Hzero & _).
  destruct (init_params_error_cases _default_params "binary") as (_ & Hother & _).
  split.
  - apply Hzero. exists (Float PrimFloat.neg_zero). split; [right; left|]; reflexivity.
  - apply Hother. discriminate.
Defined.

(** A regression with several ratios gets an [ElasticNet], on which
    [predict] is called. *)
Lemma prediction_call_fits_estimator_witness :
  exists call, _predict_w_model_type "reg" = Ok call /\
               has_method ElasticNet call = true.
Proof.
  destruct (prediction_call_fits_estimator "reg"
              (PathScenarios.grid [1 # 1]%Q [9 # 10; 1 # 10]%Q)) as [_ H].
  apply (H PathScenarios.elastic_base [1 # 1]%Q (PyTuple [9 # 10; 1 # 10]%Q) 2).
  reflexivity.
Defined.

End LinearParamsFacts.

(** * Parameters of [LinearLBFGS] *)

Module LbfgsParamsFacts.

Import LbfgsParams.

Lemma category_positions_spec roles_ feats :
  forall n0 idx,
    category_positions roles_ n0 feats = Ok idx ->
    (forall n, In n idx <->
       (n0 <= n)%nat /\
       exists x, feats !! (n - n0)%nat = Some x /\ roles_ !! x = Some "Category") /\
    StronglySorted lt idx.
Proof.
  induction feats as [|x feats IH]; intros n0 idx H; cbn in H.
  - injection H as <-. split; [|constructor].
    intros n. split; [done|]. by intros (_ & x & Hx & _).
  - destruct (roles_ !! x) as [name|] eqn:Hx; [|done].
    destruct (category_positions roles_ (S n0) feats) as [idx'|e] eqn:Hrec; [|done].
    destruct (IH _ _ Hrec) as [Hin Hsorted].
    assert (Htail : forall n, In n idx' <->
              (n0 < n)%nat /\
              exists y, (x :: feats) !! (n - n0)%nat = Some y /\
                        roles_ !! y = Some "Category").
    { intros n. rewrite Hin. split.
      - intros (Hle & y & Hy & Hr). split; [lia|]. exists y. split; [|done].
        replace (n - n0)%nat with (S (n - S n0)) by lia. done.
      - intros (Hlt & y & Hy & Hr). split; [lia|]. exists y. split; [|done].
        replace (n - n0)%nat with (S (n - S n0)) in Hy by lia. done. }
    case_bool_decide as Hname; injection H as <-.
    + subst name. split.
      * intros n. cbn [In]. rewrite Htail. split.
        -- intros [<-|(Hlt & H)]; [|split; [lia|done]].
           split; [lia|]. exists x. by rewrite Nat.sub_diag.
        -- intros (Hle & y & Hy & Hr).
           destruct (decide (n = n0)) as [->|Hne]; [by left|right].
           split; [lia|]. eauto.
      * constructor; [done|]. apply Forall_forall. intros n Hn.
        apply list_elem_of_In, Hin in Hn. lia.
    + split; [|done]. intros n. rewrite Htail. split.
      * intros (Hlt & H). split; [lia|done].
      * intros (Hle & y & Hy & Hr).
        destruct (decide (n = n0)) as [->|Hne]; [|split; [lia|eauto]].
        rewrite Nat.sub_diag in Hy. cbn in Hy. injection Hy as <-. congruence.
Qed.

Lemma category_positions_key_error roles_ feats :
  forall n0,
    (category_positions roles_ n0 feats = Raise KeyError <->
     exists x, In x feats /\ roles_ !! x = None) /\
    (forall e, category_positions roles_ n0 feats = Raise e -> e = KeyError).
Proof.
  induction feats as [|x feats IH]; intros n0; cbn.
  - split; [|done]. split; [done|]. by intros (? & [] & _).
  - destruct (roles_ !! x) as [name|] eqn:Hx.
    + destruct (IH (S n0)) as [Hiff Honly].
      destruct (category_positions roles_ (S n0) feats) as [idx|e].
      * split.
        -- split; [by case_bool_decide|]. intros (y & [<-|Hin] & Hy); [congruence|].
           assert (H : @Ok (list nat) idx = Raise KeyError) by (apply Hiff; eauto).
           done.
        -- intros e. by case_bool_decide.
      * split.
        -- split.
           ++ intros [= ->]. destruct (proj1 Hiff eq_refl) as (y & Hin & Hy).
              exists y. split; [by right|done].
           ++ intros _. f_equal. by apply Honly.
        -- intros e' [= <-]. by apply Honly.
    + split; [|by intros e [= <-]]. split; [|done]. intros _. exists x. split; [by left|done].
Qed.

Lemma column_max_ge a j i :
  (i < n_rows a)%nat -> cell a i j <= column_max a j.
Proof.
  unfold column_max. intros Hi.
  destruct i as [|i].
  - induction (map _ _) as [|v l IH]; cbn; lia.
  - assert (Hin : In (cell a (S i) j)
                    (map (fun i0 => cell a i0 j) (seq 1 (n_rows a - 1)))).
    { apply in_map_iff. exists (S i). split; [done|]. apply in_seq. lia. }
    induction (map _ _) as [|v l IH]; [done|].
    cbn. destruct Hin as [->|Hin]; [lia|]. specialize (IH Hin). lia.
Qed.

Lemma column_max_is_cell a j :
  exists i, (i < Nat.max 1 (n_rows a))%nat /\ column_max a j = cell a i j.
Proof.
  unfold column_max.
  assert (H : forall l, Forall (fun i => i < Nat.max 1 (n_rows a))%nat l ->
            exists i, (i < Nat.max 1 (n_rows a))%nat /\
                      fold_right Z.max (cell a 0 j) (map (fun i0 => cell a i0 j) l)
                      = cell a i j).
  { induction 1 as [|i l Hi _ (i' & Hi' & IH)]; cbn.
    - exists 0%nat. split; [lia|done].
    - rewrite IH. destruct (Z.max_spec (cell a i j) (cell a i' j)) as [[_ ->]|[_ ->]];
        eauto. }
  apply H. apply Forall_forall. intros i Hi. apply list_elem_of_In, in_seq in Hi. lia.
Qed.

Lemma lookup_map {A B} (f : A -> B) (l : list A) k x :
  l !! k = Some x -> map f l !! k = Some (f x).
Proof.
  revert k. induction l as [|y l IH]; intros [|k] H; try done.
  - by injection H as ->.
  - cbn in *. by apply IH.
Qed.

Lemma wrap32_id z : - 2 ^ 31 <= z < 2 ^ 31 -> wrap32 z = z.
Proof.
  intros Hz. unfold wrap32. rewrite Z.mod_small; lia.
Qed.

(** X19. The categorical indices that [init_params_on_input] returns are
    exactly the positions of the features whose role is ['Category'], in
    increasing order, and [data_size] is the second component of the shape
    of the dataset. *)
Theorem categorical_idx_are_category_positions train s :
  init_params_on_input train = Ok s ->
  (forall n, In n (categorical_idx s) <->
     exists x, features train !! n = Some x /\
               roles train !! x = Some "Category") /\
  StronglySorted lt (categorical_idx s) /\
  data_size s = shape_1 train.
Proof.
  unfold init_params_on_input.
  destruct (category_positions _ _ _) as [idx|e] eqn:Hpos; [|done].
  destruct (category_positions_spec _ _ _ _ Hpos) as [Hin Hsorted].
  assert (Hin' : forall n, In n idx <->
            exists x, features train !! n = Some x /\
                      roles train !! x = Some "Category").
  { intros n. rewrite Hin, Nat.sub_0_r. split; [by intros [_ ?]|].
    intros H. split; [lia|done]. }
  destruct (0 <? length idx)%nat.
  - destruct (select_columns _ _) as [cols|e]; [|done].
    destruct (max_axis0 _ _) as [mx|e]; [|done].
    by intros [= <-].
  - by intros [= <-].
Qed.

(** X20. The embedding sizes cover the codes: there is one size for each
    categorical index, in the same order, and when the codes of such a
    column are within [0, 2^31 - 2], its size is larger than every code of
    the column and is the largest code plus one. *)
Theorem embed_sizes_cover_codes train s k j :
  init_params_on_input train = Ok s ->
  categorical_idx s !! k = Some j ->
  (forall i, (i < n_rows (data train))%nat ->
             0 <= cell (data train) i j < 2 ^ 31 - 1) ->
  length (embed_sizes s) = length (categorical_idx s) /\
  (j < n_cols (data train))%nat /\
  exists e,
    embed_sizes s !! k = Some e /\
    (forall i, (i < n_rows (data train))%nat -> cell (data train) i j < e) /\
    (exists i, (i < n_rows (data train))%nat /\ e = cell (data train) i j + 1).
Proof.
  unfold init_params_on_input.
  destruct (category_positions _ _ _) as [idx|e] eqn:Hpos; [|done].
  destruct (0 <? length idx)%nat eqn:Hlen.
  - unfold select_columns, max_axis0.
    destruct (forallb _ idx) eqn:Hcols; [|done].
    destruct (n_rows (data train) =? 0)%nat eqn:Hrows; [done|].
    apply Nat.eqb_neq in Hrows.
    intros [= <-]. cbn [categorical_idx embed_sizes]. intros Hk Hrange.
    split; [by rewrite !length_map|]. split.
    { rewrite forallb_forall in Hcols. apply Nat.ltb_lt, Hcols.
      apply list_elem_of_In. by eapply list_elem_of_lookup_2. }
    destruct (column_max_is_cell (data train) j) as (i0 & Hi0 & Hmax).
    assert (Hi0' : (i0 < n_rows (data train))%nat) by lia.
    pose proof (Hrange i0 Hi0') as Hr0.
    assert (Hsize : wrap32 (wrap32 (column_max (data train) j) + 1)
                    = column_max (data train) j + 1).
    { rewrite (wrap32_id (column_max (data train) j)) by (rewrite Hmax; lia).
      apply wrap32_id. rewrite Hmax. lia. }
    exists (column_max (data train) j + 1). split.
    { rewrite <- Hsize.
      apply (lookup_map (fun v => wrap32 (wrap32 v + 1))).
      by apply lookup_map. }
    split.
    + intros i Hi. pose proof (column_max_ge (data train) j i Hi). lia.
    + exists i0. split; [done|]. by rewrite Hmax.
  - intros [= <-]. cbn [categorical_idx]. intros Hk.
    apply Nat.ltb_ge in Hlen. destruct idx; [done|cbn in Hlen; lia].
Qed.

(** X21. What [init_params_on_input] raises and when it needs no data:
    [KeyError] exactly when a feature has no role; when no feature is a
    category the array is not read at all, so the call succeeds with no
    embedding size even on an array without rows; whereas when every
    feature has a role, one of them is a category and the array has a
    column for every feature but no row, the call raises [ValueError]. So
    a call that succeeds with a category has a row. *)
Theorem lbfgs_params_error_cases train :
  (init_params_on_input train = Raise KeyError <->
   exists x, In x (features train) /\ roles train !! x = None) /\
  ((forall x, In x (features train) ->
      exists name, roles train !! x = Some name /\ name <> "Category") ->
   init_params_on_input train = Ok (mkSuggested [] [] (shape_1 train))) /\
  ((forall x, In x (features train) -> is_Some (roles train !! x)) ->
   (exists x, In x (features train) /\ roles train !! x = Some "Category") ->
   (length (features train) <= n_cols (data train))%nat ->
   n_rows (data train) = 0%nat ->
   init_params_on_input train = Raise ValueError) /\
  (forall s, init_params_on_input train = Ok s ->
     categorical_idx s <> [] -> n_rows (data train) <> 0%nat).
Proof.
  unfold init_params_on_input. split; [|split; [|split]].
  - destruct (category_positions_key_error (roles train) (features train) 0)
      as [Hiff Honly].
    destruct (category_positions _ _ _) as [idx|e] eqn:Hpos.
    + rewrite <- Hiff. split; [|done].
      destruct (0 <? length idx)%nat; [|done].
      unfold select_columns, max_axis0.
      destruct (forallb _ idx); [|done].
      by destruct (n_rows (data train) =? 0)%nat.
    + rewrite <- Hiff. split; intros [= ->]; done.
  - intros Hall.
    assert (Hpos : forall feats n0,
              (forall x, In x feats ->
                 exists name, roles train !! x = Some name /\ name <> "Category") ->
              category_positions (roles train) n0 feats = Ok []).
    { induction feats as [|x feats IH]; intros n0 Hf; [done|]. cbn.
      destruct (Hf x (or_introl eq_refl)) as (name & -> & Hne).
      rewrite IH by (intros y Hy; apply Hf; by right).
      by rewrite bool_decide_eq_false_2. }
    by rewrite Hpos.
  - intros Hroles (x & Hx & Hcat) Hcols Hrows.
    destruct (category_positions_key_error (roles train) (features train) 0)
      as [Hiff Honly].
    destruct (category_positions _ _ _) as [idx|e] eqn:Hpos.
    2:{ rewrite (Honly e eq_refl) in Hiff.
        destruct (proj1 Hiff eq_refl) as (y & Hy & Hnone).
        destruct (Hroles y Hy) as [? ?]. congruence. }
    destruct (category_positions_spec _ _ _ _ Hpos) as [Hin _].
    apply list_elem_of_In, list_elem_of_lookup in Hx as [i Hi].
    assert (Hi_in : In i idx).
    { apply Hin. split; [lia|]. exists x. by rewrite Nat.sub_0_r. }
    assert (Hlen : (0 <? length idx)%nat = true).
    { apply Nat.ltb_lt. destruct idx; [done|cbn; lia]. }
    rewrite Hlen. unfold select_columns, max_axis0.
    assert (Hall : forallb (fun j => (j <? n_cols (data train))%nat) idx = true).
    { apply forallb_forall. intros j Hj. apply Hin in Hj as (_ & y & Hy & _).
      rewrite Nat.sub_0_r in Hy. apply lookup_lt_Some in Hy.
      apply Nat.ltb_lt. lia. }
    rewrite Hall, Hrows. done.
  - intros s.
    destruct (category_positions _ _ _) as [idx|e]; [|done].
    destruct (0 <? length idx)%nat eqn:Hlen.
    + unfold select_columns, max_axis0.
      destruct (forallb _ idx); [|done].
      destruct (n_rows (data train) =? 0)%nat eqn:Hrows; [done|].
      intros _ _. by apply Nat.eqb_neq.
    + intros [= <-]. cbn. apply Nat.ltb_ge in Hlen. by destruct idx; [|cbn in Hlen; lia].
Qed.

(** *** On a small dataset *)

Import LbfgsScenarios.

(** Features at positions 0 and 2 are categories. *)
Lemma categorical_idx_are_category_positions_witness :
  (forall n, In n [0; 2]%nat <->
     exists x, features small_train !! n = Some x /\
               roles small_train !! x = Some "Category") /\
  StronglySorted lt [0; 2]%nat /\
  3%nat = shape_1 small_train.
Proof.
  apply (categorical_idx_are_category_positions small_train
           (mkSuggested [0; 2]%nat [4; 8] 3)).
  vm_compute. reflexivity.
Defined.

(** The codes of column 2 are 0 and 7: its embedding size is 8. *)
Lemma embed_sizes_cover_codes_witness :
  exists e,
    [4; 8] !! 1%nat = Some e /\
    (forall i, (i < 2)%nat -> codes i 2 < e) /\
    (exists i, (i < 2)%nat /\ e = codes i 2 + 1).
Proof.
  apply (embed_sizes_cover_codes small_train (mkSuggested [0; 2]%nat [4; 8] 3)
           1%nat 2%nat).
  - vm_compute. reflexivity.
  - reflexivity.
  - intros [|[|i]] Hi; [vm_compute; split; [discriminate|reflexivity]..|].
    cbn in Hi. lia.
Defined.

(** Without a category the call succeeds on an array without rows; with
    one it raises [ValueError]. *)
Lemma lbfgs_params_error_cases_witness :
  init_params_on_input no_rows = Ok (mkSuggested [] [] 1) /\
  init_params_on_input no_rows_category = Raise ValueError.
Proof.
  destruct (lbfgs_params_error_cases no_rows) as (_ & Hnone & _).
  destruct (lbfgs_params_error_cases no_rows_category) as (_ & _ & Hval & _).
  split.
  - apply Hnone. intros x [<-|[]]. exists "Numeric". split; [|discriminate].
    vm_compute. reflexivity.
  - apply Hval.
    + intros x [<-|[]]. vm_compute. eauto.
    + exists "city". split; [by left|]. vm_compute. reflexivity.
    + vm_compute. lia.
    + reflexivity.
Defined.

End LbfgsParamsFacts.

(** * The builders of [TabularDataFeatures] *)

Module FeaturesBaseFacts.

Import FeaturesBase.

Lemma list_remove_first x kept rest :
  x ∉ kept -> list_remove x (kept ++ x :: rest) = Ok (kept ++ rest).
Proof.
  induction kept as [|y kept IH]; intros Hx; cbn.
  - by rewrite bool_decide_eq_true_2.
  - rewrite bool_decide_eq_false_2.
    + rewrite IH; [done|]. intros ?; apply Hx; by right.
    + intros ->. apply Hx; by left.
Qed.

Lemma slice_to_sublist n (l : list string) : slice_to n l `sublist_of` l.
Proof. unfold slice_to. case_match; apply sublist_take. Qed.

Lemma slice_to_length n (l : list string) :
  0 <= n -> length (slice_to n l) = Nat.min (Z.to_nat n) (length l).
Proof.
  intros Hn. unfold slice_to.
  destruct (Z.leb_spec 0 n); [|lia]. apply length_take.
Qed.

Section Builders.

Context {Role : Type} (numeric_float32 : Role) {Train : Type}.
Context (get_columns_by_role : Train -> string -> list (string * kwval) -> list string).
Context (roles_of : Train -> gmap string datetime_role).
Context (sorted_by_importance : settings -> Train -> list string -> result (list string)).

Abbreviation get_cols_for_datetime := (get_cols_for_datetime Train get_columns_by_role).
Abbreviation get_datetime_diffs := (get_datetime_diffs Role Train get_columns_by_role).
Abbreviation get_datetime_seasons :=
  (get_datetime_seasons Role numeric_float32 Train get_columns_by_role roles_of).
Abbreviation get_numeric_data :=
  (get_numeric_data Role numeric_float32 Train get_columns_by_role).
Abbreviation get_freq_encoding := (get_freq_encoding Role Train get_columns_by_role).
Abbreviation get_ordinal_encoding := (get_ordinal_encoding Role Train get_columns_by_role).
Abbreviation get_categorical_raw := (get_categorical_raw Role Train get_columns_by_role).
Abbreviation get_binned_data := (get_binned_data Role Train get_columns_by_role).
Abbreviation get_top_categories :=
  (get_top_categories Train get_columns_by_role sorted_by_importance).
Abbreviation get_categorical_intersections :=
  (get_categorical_intersections Role Train get_columns_by_role sorted_by_importance).

(** The loop of lines 180-182, started on the columns [todo] that are
    still to visit, with the columns [kept] before them all seasonal. *)
Lemma drop_unseasonal_filter roles_ todo kept :
  (forall c, c ∈ todo -> is_Some (roles_ !! c)) ->
  (forall c, c ∈ kept -> seasonal roles_ c = true) ->
  drop_unseasonal roles_ todo (kept ++ todo)
  = Ok (kept ++ List.filter (seasonal roles_) todo).
Proof.
  revert kept. induction todo as [|col todo IH]; intros kept Hroles Hkept.
  - done.
  - cbn [drop_unseasonal List.filter].
    destruct (Hroles col) as [r Hr]; [by left|].
    assert (Hs : seasonal roles_ col = negb (unseasonal r))
      by (unfold seasonal; by rewrite Hr).
    rewrite Hr, Hs.
    destruct (unseasonal r) eqn:Hu; cbn [negb].
    + rewrite list_remove_first.
      * apply IH; [|done]. intros c Hc. apply Hroles. by right.
      * intros Hin. apply Hkept in Hin. unfold seasonal in Hin.
        rewrite Hr, Hu in Hin. discriminate.
    + replace (kept ++ col :: todo) with ((kept ++ [col]) ++ todo)
        by (by rewrite <- app_assoc).
      rewrite IH.
      * by rewrite <- app_assoc.
      * intros c Hc. apply Hroles. by right.
      * intros c [Hc | Hc%list_elem_of_singleton]%elem_of_app; [by apply Hkept|].
        subst c. unfold seasonal. by rewrite Hr, Hu.
Qed.

Lemma drop_unseasonal_missing roles_ todo kept :
  (exists c, c ∈ todo /\ roles_ !! c = None) ->
  (forall c, c ∈ kept -> seasonal roles_ c = true) ->
  drop_unseasonal roles_ todo (kept ++ todo) = Raise KeyError.
Proof.
  revert kept. induction todo as [|col todo IH]; intros kept (c & Hc & Hnone) Hkept.
  - by apply elem_of_nil in Hc.
  - cbn [drop_unseasonal].
    destruct (roles_ !! col) as [r|] eqn:Hr; [|done].
    assert (Hrest : exists c, c ∈ todo /\ roles_ !! c = None).
    { apply elem_of_cons in Hc as [-> | Hc]; [congruence|]. eauto. }
    destruct (unseasonal r) eqn:Hu.
    + rewrite list_remove_first.
      * by apply IH.
      * intros Hin. apply Hkept in Hin. unfold seasonal in Hin.
        rewrite Hr, Hu in Hin. discriminate.
    + replace (kept ++ col :: todo) with ((kept ++ [col]) ++ todo)
        by (by rewrite <- app_assoc).
      apply IH; [done|].
      intros c' [Hc' | Hc'%list_elem_of_singleton]%elem_of_app; [by apply Hkept|].
      subst c'. unfold seasonal. by rewrite Hr, Hu.
Qed.

(** X22 ([get_datetime_seasons], lines 179-196): when every datetime
    column has a role, the removal loop never fails and leaves, in their
    order, exactly the columns that have a seasonality or a country; the
    pipeline selects these columns, and there is no pipeline when none is
    left. *)
Theorem datetime_seasons_keeps_seasonal_columns train outp_role :
  (forall col, col ∈ (get_cols_for_datetime train).2 ->
               is_Some (roles_of train !! col)) ->
  get_datetime_seasons train outp_role
  = Ok (match List.filter (seasonal (roles_of train))
                (get_cols_for_datetime train).2 with
        | [] => None
        | keep =>
            Some (SequentialTransformer
                    [ColumnsSelector keep;
                     DateSeasons (default numeric_float32 outp_role)])
        end).
Proof.
  intros Hroles. unfold FeaturesBase.get_datetime_seasons.
  destruct (get_cols_for_datetime train) as [bd dts] eqn:Hcols. cbn [snd] in *.
  pose proof (drop_unseasonal_filter (roles_of train) dts [] Hroles) as Hloop.
  cbn [app] in Hloop. rewrite Hloop.
  - destruct (List.filter _ dts) as [|c keep]; [done|].
    cbn. by destruct outp_role.
  - intros c Hc. by apply elem_of_nil in Hc.
Qed.

(** X23 ([get_datetime_seasons], lines 180-181): a datetime column
    missing from the roles makes the call raise [KeyError], whatever the
    other columns are. *)
Theorem datetime_seasons_unknown_column_raises train outp_role col :
  col ∈ (get_cols_for_datetime train).2 ->
  roles_of train !! col = None ->
  get_datetime_seasons train outp_role = Raise KeyError.
Proof.
  intros Hcol Hnone. unfold FeaturesBase.get_datetime_seasons.
  destruct (get_cols_for_datetime train) as [bd dts] eqn:Hcols. cbn [snd] in *.
  pose proof (drop_unseasonal_missing (roles_of train) dts []) as Hloop.
  cbn [app] in Hloop. rewrite Hloop; [done|by eauto|].
  intros c Hc. by apply elem_of_nil in Hc.
Qed.

(** X24 (lines 146-354): whichever of [get_datetime_diffs],
    [get_datetime_seasons], [get_numeric_data], [get_freq_encoding],
    [get_ordinal_encoding], [get_categorical_raw] and [get_binned_data]
    returns a pipeline, the pipeline starts by selecting at least one
    column. *)
Theorem simple_builders_select_a_column self train feats prob outp_role t :
  get_datetime_diffs train = Some t \/
  get_datetime_seasons train outp_role = Ok (Some t) \/
  get_numeric_data train feats prob = Some t \/
  get_freq_encoding train feats = Some t \/
  get_ordinal_encoding self train feats = Some t \/
  get_categorical_raw self train feats = Some t \/
  get_binned_data self train feats = Some t ->
  exists keys, selected t = Some keys /\ keys <> [].
Proof.
  assert (Hlen : forall l : list string, Nat.eqb (length l) 0 = false -> l <> []).
  { intros [|] ?; [done|congruence]. }
  intros [H | [H | [H | [H | [H | [H | H]]]]]].
  - unfold FeaturesBase.get_datetime_diffs in H.
    destruct (get_cols_for_datetime train) as [bd dts].
    destruct (Nat.eqb (length dts) 0) eqn:Hd; [done|].
    destruct (Nat.eqb (length bd) 0) eqn:Hb; [done|]. cbn in H.
    injection H as <-. eexists; split; [done|].
    apply Hlen in Hd. by destruct dts.
  - unfold FeaturesBase.get_datetime_seasons in H.
    destruct (get_cols_for_datetime train) as [bd dts].
    destruct (drop_unseasonal _ _ _) as [keep|]; [|done].
    destruct (Nat.eqb (length keep) 0) eqn:Hk; [done|].
    injection H as <-. eexists; split; [done|]. by apply Hlen.
  - unfold FeaturesBase.get_numeric_data in H.
    match type of H with (if Nat.eqb (length ?l) 0 then _ else _) = _ =>
      destruct (Nat.eqb (length l) 0) eqn:Hk; [done|] end.
    injection H as <-. eexists; split; [done|]. by apply Hlen.
  - unfold FeaturesBase.get_freq_encoding in H.
    match type of H with (if Nat.eqb (length ?l) 0 then _ else _) = _ =>
      destruct (Nat.eqb (length l) 0) eqn:Hk; [done|] end.
    injection H as <-. eexists; split; [done|]. by apply Hlen.
  - unfold FeaturesBase.get_ordinal_encoding in H.
    match type of H with (if Nat.eqb (length ?l) 0 then _ else _) = _ =>
      destruct (Nat.eqb (length l) 0) eqn:Hk; [done|] end.
    injection H as <-. eexists; split; [done|]. by apply Hlen.
  - unfold FeaturesBase.get_categorical_raw in H.
    match type of H with (if Nat.eqb (length ?l) 0 then _ else _) = _ =>
      destruct (Nat.eqb (length l) 0) eqn:Hk; [done|] end.
    injection H as <-. eexists; split; [done|]. by apply Hlen.
  - unfold FeaturesBase.get_binned_data in H.
    match type of H with (if Nat.eqb (length ?l) 0 then _ else _) = _ =>
      destruct (Nat.eqb (length l) 0) eqn:Hk; [done|] end.
    injection H as <-. eexists; split; [done|]. by apply Hlen.
Qed.

(** The three ways out of [get_top_categories]. *)
Lemma top_categories_cases self train top_n top :
  get_top_categories self train top_n = Ok top ->
  let cats := get_columns_by_role train "Category" [] in
  ((max_intersection_depth self <=? 1) || (top_intersections self <=? 1) = true
   /\ top = []) \/
  ((max_intersection_depth self <=? 1) || (top_intersections self <=? 1) = false
   /\ ((cats = [] /\ top = []) \/
       exists index, sorted_by_importance self train cats = Ok index /\
                     top = slice_to top_n index)).
Proof.
  intros Htop cats. unfold FeaturesBase.get_top_categories in Htop. fold cats in Htop.
  destruct ((max_intersection_depth self <=? 1) || (top_intersections self <=? 1)).
  { injection Htop as <-. by left. }
  right; split; [done|].
  destruct (Nat.eqb (length cats) 0) eqn:Hlen.
  { injection Htop as <-. apply Nat.eqb_eq in Hlen. left.
    by destruct cats. }
  destruct (sorted_by_importance self train cats) as [index|] eqn:Hidx; [|done].
  injection Htop as <-. right. by exists index.
Qed.

(** X25 ([get_top_categories], lines 430-451): when the sorted frame lists
    the categories, each once, the categories returned are the first ones
    of that frame, in its order: [index[:top_n]], which for a
    non-negative [top_n] is the first [min(top_n, number of categories)]
    entries. So they are category columns, with no repetition when the
    columns have none; and there is none when [max_intersection_depth]
    or [top_intersections] is at most 1, or when there is no category. *)
Theorem top_categories_are_leading_categories self train top_n top :
  (forall index,
      sorted_by_importance self train (get_columns_by_role train "Category" [])
      = Ok index ->
      index ≡ₚ get_columns_by_role train "Category" []) ->
  get_top_categories self train top_n = Ok top ->
  ((max_intersection_depth self <=? 1) || (top_intersections self <=? 1) = true \/
   get_columns_by_role train "Category" [] = [] -> top = []) /\
  ((max_intersection_depth self <=? 1) || (top_intersections self <=? 1) = false ->
   get_columns_by_role train "Category" [] <> [] ->
   exists index,
     sorted_by_importance self train (get_columns_by_role train "Category" [])
     = Ok index /\
     top `prefix_of` index /\
     (0 <= top_n -> top = take (Z.to_nat top_n) index)) /\
  (forall k, k ∈ top -> k ∈ get_columns_by_role train "Category" []) /\
  (NoDup (get_columns_by_role train "Category" []) -> NoDup top) /\
  (0 <= top_n ->
   length top =
     if (max_intersection_depth self <=? 1) || (top_intersections self <=? 1)
     then 0%nat
     else Nat.min (Z.to_nat top_n)
            (length (get_columns_by_role train "Category" []))).
Proof.
  intros Hperm Htop. apply top_categories_cases in Htop. cbn zeta in Htop.
  set (cats := get_columns_by_role train "Category" []) in *.
  destruct Htop as [[-> ->] | [-> [[Hc ->] | (index & Hidx & ->)]]].
  - split; [done|]. split; [done|].
    repeat split; [by intros k ?%elem_of_nil|constructor].
  - split; [done|]. split; [done|].
    repeat split; [by intros k ?%elem_of_nil|constructor|].
    intros _. rewrite Hc. cbn. lia.
  - pose proof (Hperm index Hidx) as Hp.
    pose proof (slice_to_sublist top_n index) as Hpre.
    split.
    { intros [?|Hc]; [done|]. rewrite Hc in Hp.
      apply Permutation_nil_r in Hp. subst index.
      unfold slice_to. by destruct (0 <=? top_n); rewrite take_nil. }
    split.
    { intros _ _. exists index. split; [done|]. split.
      - unfold slice_to. case_match; apply prefix_take.
      - intros Hn. unfold slice_to. by destruct (Z.leb_spec 0 top_n); [|lia]. }
    repeat split.
    + intros k Hk. rewrite <- Hp. by eapply elem_of_sublist.
    + intros Hnd. eapply sublist_NoDup; [|done]. by rewrite Hp.
    + intros Hn. rewrite slice_to_length by done.
      by rewrite (Permutation_length Hp).
Qed.

(** X26 ([get_categorical_intersections], lines 369-391): without
    [feats_to_select], with [top_intersections] and
    [max_intersection_depth] at least 2 and a sorted frame that lists the
    categories, a pipeline that is returned selects at least two and at
    most [top_intersections] columns, all of them category columns. *)
Theorem intersections_select_top_categories self train t :
  (forall index,
      sorted_by_importance self train (get_columns_by_role train "Category" [])
      = Ok index ->
      index ≡ₚ get_columns_by_role train "Category" []) ->
  2 <= top_intersections self ->
  2 <= max_intersection_depth self ->
  get_categorical_intersections self train None = Ok (Some t) ->
  exists keys,
    t = SequentialTransformer
          [ColumnsSelector keys;
           CatIntersectstions (subsample self) (random_state self)
             (max_intersection_depth self)] /\
    (2 <= length keys)%nat /\
    Z.of_nat (length keys) <= top_intersections self /\
    (forall k, k ∈ keys -> k ∈ get_columns_by_role train "Category" []).
Proof.
  intros Hperm Htop Hdepth Hres.
  unfold FeaturesBase.get_categorical_intersections in Hres.
  set (cats := get_columns_by_role train "Category" []) in *.
  destruct (Nat.leb_spec (length cats) 1) as [|Hlen]; [done|].
  destruct (Z.ltb_spec (top_intersections self) (Z.of_nat (length cats))) as [Hmore|Hfew].
  - destruct (get_top_categories self train (top_intersections self))
      as [top|] eqn:Htc; [|done].
    injection Hres as <-.
    apply top_categories_cases in Htc. cbn zeta in Htc. fold cats in Htc.
    destruct (Z.leb_spec (max_intersection_depth self) 1); [lia|].
    destruct (Z.leb_spec (top_intersections self) 1); [lia|].
    destruct Htc as [[? _] | [_ [[Hc _] | (index & Hidx & ->)]]]; [done| |].
    { rewrite Hc in Hlen. cbn in Hlen. lia. }
    specialize (Hperm index Hidx).
    pose proof (slice_to_length (top_intersections self) index ltac:(lia)) as Hl.
    rewrite (Permutation_length Hperm) in Hl.
    eexists. repeat split; [lia|lia|].
    intros k Hk. rewrite <- Hperm.
    eapply elem_of_sublist; [done|apply slice_to_sublist].
  - injection Hres as <-. exists cats. repeat split; [lia|lia|done].
Qed.

(** X27 ([get_categorical_intersections], lines 374-386, with
    [get_top_categories], lines 430-431): without [feats_to_select], with
    more categories than [top_intersections] and [top_intersections] or
    [max_intersection_depth] at most 1, the pipeline returned selects no
    column at all, however many categories there are. *)
Theorem intersections_on_no_column self train :
  top_intersections self <= 1 \/ max_intersection_depth self <= 1 ->
  (2 <= length (get_columns_by_role train "Category" []))%nat ->
  top_intersections self < Z.of_nat (length (get_columns_by_role train "Category" [])) ->
  get_categorical_intersections self train None
  = Ok (Some (SequentialTransformer
                [ColumnsSelector [];
                 CatIntersectstions (subsample self) (random_state self)
                   (max_intersection_depth self)])).
Proof.
  intros Hone Hlen Hmore.
  unfold FeaturesBase.get_categorical_intersections, FeaturesBase.get_top_categories.
  set (cats := get_columns_by_role train "Category" []) in *.
  destruct (Nat.leb_spec (length cats) 1); [lia|].
  destruct (Z.ltb_spec (top_intersections self) (Z.of_nat (length cats))); [|lia].
  replace ((max_intersection_depth self <=? 1) || (top_intersections self <=? 1))
    with true; [done|].
  symmetry. apply orb_true_iff.
  destruct Hone; [right|left]; by apply Z.leb_le.
Qed.

End Builders.

Import FeaturesScenarios.

Lemma toy_rank_lists_categories s t cats index :
  toy_rank s t cats = Ok index -> index ≡ₚ cats.
Proof.
  unfold toy_rank. intros H. injection H as <-.
  symmetry. apply Permutation_rev.
Qed.

Lemma datetime_seasons_keeps_seasonal_columns_witness :
  get_datetime_seasons unit tt toy_train toy_columns date_roles calendar None
  = Ok (Some (SequentialTransformer
                [ColumnsSelector ["d2"; "d3"; "d2"]; DateSeasons tt])).
Proof.
  etrans.
  - apply (datetime_seasons_keeps_seasonal_columns tt toy_columns date_roles
             calendar None).
    intros col Hc.
    change (col ∈ ["d1"; "d2"; "d3"; "d2"]) in Hc.
    repeat (apply elem_of_cons in Hc as [-> | Hc]);
      [vm_compute; eauto .. | by apply elem_of_nil in Hc].
  - vm_compute; reflexivity.
Defined.

Lemma datetime_seasons_unknown_column_raises_witness :
  get_datetime_seasons unit tt toy_train toy_columns date_roles calendar_unknown None
  = Raise KeyError.
Proof.
  apply (datetime_seasons_unknown_column_raises tt toy_columns date_roles
           calendar_unknown None "d9").
  - change ("d9" ∈ ["d1"; "d9"]). repeat constructor.
  - vm_compute; reflexivity.
Defined.

Lemma simple_builders_select_a_column_witness :
  exists keys,
    selected (SequentialTransformer
                [ColumnsSelector ["n1"]; ConvertDataset_NumpyDataset; ChangeRoles tt])
    = Some keys /\ keys <> [].
Proof.
  apply (simple_builders_select_a_column tt toy_columns date_roles
           default_settings calendar None None None).
  right; right; left. vm_compute; reflexivity.
Defined.

Lemma top_categories_are_leading_categories_witness :
  exists index,
    toy_rank top_two calendar (toy_columns calendar "Category" []) = Ok index /\
    ["c4"; "c3"; "c2"] `prefix_of` index /\
    (0 <= 3 -> ["c4"; "c3"; "c2"] = take (Z.to_nat 3) index).
Proof.
  destruct (top_categories_are_leading_categories toy_columns toy_rank
              top_two calendar 3 ["c4"; "c3"; "c2"]) as (_ & Hlead & _).
  - intros index. apply toy_rank_lists_categories.
  - vm_compute; reflexivity.
  - apply Hlead; [vm_compute; reflexivity|vm_compute; discriminate].
Defined.

Lemma intersections_select_top_categories_witness :
  exists keys,
    SequentialTransformer
      [ColumnsSelector ["c4"; "c3"];
       CatIntersectstions (Some (10000 # 1)%Q) 42 3]
    = SequentialTransformer (Role := unit)
        [ColumnsSelector keys;
         CatIntersectstions (subsample top_two) (random_state top_two)
           (max_intersection_depth top_two)] /\
    (2 <= length keys)%nat /\
    Z.of_nat (length keys) <= top_intersections top_two /\
    (forall k, k ∈ keys -> k ∈ toy_columns calendar "Category" []).
Proof.
  apply (intersections_select_top_categories toy_columns toy_rank
           top_two calendar).
  - intros index. apply toy_rank_lists_categories.
  - vm_compute; discriminate.
  - vm_compute; discriminate.
  - vm_compute; reflexivity.
Defined.

Lemma intersections_on_no_column_witness :
  get_categorical_intersections unit toy_train toy_columns toy_rank
    top_one calendar None
  = Ok (Some (SequentialTransformer
                [ColumnsSelector [];
                 CatIntersectstions (Some (10000 # 1)%Q) 42 3])).
Proof.
  apply (intersections_on_no_column toy_columns toy_rank top_one calendar).
  - left. vm_compute; discriminate.
  - vm_compute. lia.
  - vm_compute; reflexivity.
Defined.

End FeaturesBaseFacts.

(** * Ties on the regularization path *)

Module PathTieFacts.

Import LinearSklearn PathTrace PathTies PathSearchFacts PathResultFacts.

#[local] Arguments allclose0 : simpl never.
#[local] Arguments all_nonzero : simpl never.
#[local] Arguments update_c_best : simpl never.

Section Facts.

Variable solve : estimator -> result (list Q).
Variable Pred : Type.
Variable predict : estimator -> Pred.
Variable metric : Pred -> Q.
Variable time_limit_exceeded : list event -> bool.
Variable bw_func : option Pred -> result (option Pred).

Abbreviation inner_loop := (inner_loop solve predict metric time_limit_exceeded).
Abbreviation outer_loop := (outer_loop solve predict metric time_limit_exceeded).
Abbreviation path_search := (path_search solve predict metric time_limit_exceeded).
Abbreviation fit_predict_single_fold :=
  (fit_predict_single_fold solve predict metric time_limit_exceeded bw_func).
Abbreviation scored_below := (scored_below solve predict metric).
Abbreviation best_of_run := (best_of_run solve predict metric).
Abbreviation scored_strictly_below := (scored_strictly_below solve predict metric).
Abbreviation last_best := (last_best solve predict metric).

Lemma warn_strictly_below b tl :
  Forall (fun ev => is_warn ev = true) tl -> Forall (scored_strictly_below b) tl.
Proof. intros H. eapply Forall_impl; [exact H|]. by intros [|]. Qed.

(** A score that is at most [c], itself strictly below [b], is strictly
    below [b]. *)
Lemma below_strictly_below c b ev :
  fge c b = false -> scored_below c ev -> scored_strictly_below b ev.
Proof.
  intros Hlt. destruct ev as [m0|l1]; [|done]. cbn.
  intros H cf Hs Hz. specialize (H cf Hs Hz).
  destruct (fge (Fin (metric (predict (with_coef cf m0)))) b) eqn:Hge; [|done].
  by rewrite (fge_trans _ _ _ H Hge) in Hlt.
Qed.

Lemma last_best_app_l pre tr sc best :
  last_best tr sc best -> last_best (pre ++ tr) sc best.
Proof.
  intros [H|(pre' & m0 & cf & post & -> & H)]; [by left|right].
  exists (pre ++ pre'), m0, cf, post. by rewrite <- app_assoc.
Qed.

Lemma last_best_app_r tr tl sc best :
  sc <> NegInf -> Forall (scored_strictly_below sc) tl ->
  last_best tr sc best -> last_best (tr ++ tl) sc best.
Proof.
  intros Hsc Htl [[H _]|(pre & m0 & cf & post & -> & Hs & Hb & Hsc' & Hpost)];
    [done|right].
  exists pre, m0, cf, (post ++ tl). rewrite <- app_assoc. cbn.
  split; [done|]. split; [done|]. split; [done|]. split; [done|].
  by apply Forall_app.
Qed.

(** What scoring one cell leaves. *)
Lemma last_step (st : inner_state Pred) cur m0 cf tl :
  last_best cur (c_best_score st) (c_best_model st) ->
  solve m0 = Ok cf ->
  Forall (fun ev => is_warn ev = true) tl ->
  let m := with_coef cf m0 in
  let st2 := update_c_best (metric (predict m)) (predict m) m
               (mkInner m (c_best_score st) (c_best_pred st) (c_best_model st)
                  (es st)) in
  last_best (cur ++ [EvFit m0] ++ tl) (c_best_score st2) (c_best_model st2).
Proof.
  intros Hlast Hs Htl m st2. unfold st2, update_c_best. cbn [c_best_score].
  destruct (fge (Fin (metric (predict m))) (c_best_score st)) eqn:Hge;
    cbn [c_best_score c_best_model].
  - right. exists cur, m0, cf, tl. unfold deepcopy.
    split; [done|]. split; [done|]. split; [done|]. split; [done|].
    by apply warn_strictly_below.
  - apply last_best_app_r; [|  |done].
    + intros Heq. by rewrite Heq in Hge.
    + constructor; [|by apply warn_strictly_below].
      cbn. intros cf' Hs' _. rewrite Hs in Hs'. by injection Hs' as <-.
Qed.

Lemma inner_loop_last l1 stop len cs :
  forall n (st : inner_state Pred) pre cur tr' st',
    last_best cur (c_best_score st) (c_best_model st) ->
    inner_loop l1 stop len n cs st (pre ++ cur) = (tr', Ok st') ->
    exists cur',
      tr' = pre ++ cur' /\
      last_best cur' (c_best_score st') (c_best_model st').
Proof.
  induction cs as [|c rest IH]; intros n st pre cur tr' st' Hlast Hrun.
  - cbn in Hrun. injection Hrun as <- <-. by exists cur.
  - rewrite inner_loop_cons in Hrun. cbv zeta in Hrun.
    set (m0 := strength_set c (model st)) in *.
    destruct (solve m0) as [cf|e] eqn:Hs; [|done].
    set (m := with_coef cf m0) in *.
    destruct (allclose0 cf && negb (n =? len - 1)%nat) eqn:Hskip.
    + apply andb_true_iff in Hskip as [Hz _].
      rewrite <- app_assoc in Hrun.
      apply IH in Hrun as (cur' & -> & Hl'); [by exists cur'|].
      cbn [c_best_score c_best_model].
      destruct Hlast as [H|(pre' & m1 & cf1 & post & -> & Hs1 & Hb & Hsc & Hpost)];
        [by left|right].
      exists pre', m1, cf1, (post ++ [EvFit m0]). rewrite <- app_assoc. cbn.
      split; [done|]. split; [done|]. split; [done|]. split; [done|].
      apply Forall_app. split; [done|]. constructor; [|done].
      cbn. intros cf' Hs' Hz'. fold m0 in Hs'. rewrite Hs in Hs'.
      injection Hs' as <-. congruence.
    + set (tl := if allclose0 cf then [EvWarn l1] else []).
      assert (Htl : Forall (fun ev => is_warn ev = true) tl).
      { unfold tl. destruct (allclose0 cf); repeat constructor. }
      pose proof (last_step st cur m0 cf tl Hlast Hs Htl) as Hl2.
      cbv zeta in Hl2. fold m in Hl2.
      set (st2 := update_c_best _ _ _ _) in *.
      assert (Htr2 : (if allclose0 cf
                      then ((pre ++ cur) ++ [EvFit m0]) ++ [EvWarn l1]
                      else (pre ++ cur) ++ [EvFit m0])
                     = pre ++ (cur ++ [EvFit m0] ++ tl)).
      { unfold tl. destruct (allclose0 cf); rewrite <- ?app_assoc; cbn;
          by rewrite ?app_nil_r. }
      rewrite Htr2 in Hrun.
      assert (Hdone : forall tr'' st'',
                (pre ++ cur ++ [EvFit m0] ++ tl, Ok st2) = (tr'', Ok st'') ->
                exists cur',
                  tr'' = pre ++ cur' /\
                  last_best cur' (c_best_score st'') (c_best_model st'')).
      { intros tr'' st'' [= <- <-]. by eexists. }
      destruct (stop <=? es st2)%Z; [by apply Hdone|].
      destruct (time_limit_exceeded _); [by apply Hdone|].
      destruct (all_nonzero cf); [by apply Hdone|].
      by apply IH in Hrun.
Qed.

Lemma outer_loop_last base cs stop l1s :
  forall (st : outer_state Pred) tr tr' st',
    last_best tr (best_score st) (best_model st) ->
    outer_loop base cs stop l1s st tr = (tr', Ok st') ->
    last_best tr' (best_score st') (best_model st').
Proof.
  induction l1s as [|l1 rest IH]; intros st tr tr' st' Hlast Hrun.
  - cbn in Hrun. by injection Hrun as <- <-.
  - rewrite outer_loop_cons in Hrun.
    destruct (inner_loop l1 stop (length cs) 0 cs (mkInner base NegInf None None 0) tr)
      as [tr1 [ist|e]] eqn:Hin; [|done].
    rewrite <- (app_nil_r tr) in Hin.
    pose proof Hin as Hin2.
    apply (inner_loop_best solve Pred predict metric time_limit_exceeded) in Hin
      as (cur' & -> & _ & Hc1 & _ & _); [|by left|done].
    apply inner_loop_last in Hin2 as (cur'' & Heq & Hl1); [|by left].
    apply app_inv_head in Heq as <-.
    cbv zeta in Hrun.
    assert (Hinv : last_best (tr ++ cur') (best_score (update_best ist st))
                     (best_model (update_best ist st))).
    { unfold update_best, deepcopy.
      destruct (fge (c_best_score ist) (best_score st)) eqn:Hge;
        cbn [best_score best_model].
      - by apply last_best_app_l.
      - apply last_best_app_r; [| |done].
        + intros Heq. by rewrite Heq in Hge; destruct (c_best_score ist).
        + eapply Forall_impl; [exact Hc1|]. intros ev.
          by apply below_strictly_below. }
    destruct (time_limit_exceeded (tr ++ cur')).
    + by injection Hrun as <- <-.
    + by apply IH in Hrun.
Qed.

(** C8 (amended). The comparisons of lines 220 and 241 are not strict: a
    score at least the best so far replaces the best and resets [es], a
    lower one leaves the best and counts against early stopping. So the
    model returned is the last of the fits that attain the best score:
    every fit before it whose coefficients are not all zero has a score
    at most its own, and every such fit after it has a score strictly
    below. Which of two tied cells is the more strongly regularized plays
    no part. *)
Theorem ties_go_to_the_later_fit task p m v :
  (fit_predict_single_fold task p).2 = Ok (Some m, v) ->
  (forall s pred m' (st : inner_state Pred),
      update_c_best s pred m' st =
        if fge (Fin s) (c_best_score st)
        then mkInner m' (Fin s) (Some pred) (Some m') 0
        else mkInner m' (c_best_score st) (c_best_pred st) (c_best_model st)
               (es st + 1)) /\
  exists pre m0 cf post,
    (fit_predict_single_fold task p).1 = pre ++ EvFit m0 :: post /\
    solve m0 = Ok cf /\ m = with_coef cf m0 /\
    Forall (scored_below (Fin (metric (predict m)))) pre /\
    Forall (scored_strictly_below (Fin (metric (predict m)))) post.
Proof.
  intros Hres. split; [done|].
  apply (fit_predict_single_fold_ok solve Pred predict metric time_limit_exceeded
           bw_func) in Hres as (base & st & _ & Hrun & Hm & _).
  pose proof (path_search_best solve Pred predict metric time_limit_exceeded
                _ _ _ _ _ _ Hrun) as (_ & Hall & _).
  unfold LinearSklearn.path_search in Hrun.
  apply outer_loop_last in Hrun; [|by left].
  destruct Hrun as [[_ Hnone]|(pre & m0 & cf & post & Htr & Hs & Hb & Hsc & Hpost)];
    [congruence|].
  rewrite Hb in Hm. injection Hm as ->.
  exists pre, m0, cf, post. rewrite Htr in Hall |- *.
  apply Forall_app in Hall as [Hpre _]. rewrite Hsc in Hpre, Hpost.
  by repeat split.
Qed.

End Facts.

(** *** On the run of scenario A *)

Import PathScenarios PathScenariosMore TieScenarios.

(** C8, as stated, fails: on a regression the strengths [10, 1, 0.1] are the
    penalty weights [alpha] of a [Lasso]; the cells at 1 and at 0.1 tie
    with score 0.9, and the model returned is the one at 0.1, the later
    and the more weakly regularized of the two. On a binary task with
    increasing [C], as the default ones are, the cells at 0.1 and 1 tie and
    the later, more weakly regularized one is returned as well, the cell at
    10 that comes after them with a lower score leaving it in place. *)
Lemma tie_won_by_weaker_penalty :
  (fit_predict_single_fold solve_sparse predict_id metric_table no_time_limit bw_id
     "reg" (grid [10 # 1; 1 # 1; 1 # 10]%Q [1 # 1]%Q)).2
  = Ok (Some lasso_01, Some lasso_01) /\
  metric_table lasso_1 = metric_table lasso_01 /\
  (regularization lasso_01 < regularization lasso_1)%Q /\
  exists later_10 tied_1 tied_01,
    (fit_predict_single_fold solve_sparse predict_id metric_table no_time_limit bw_id
       "binary" (grid [1 # 10; 1 # 1; 10 # 1]%Q [1 # 1]%Q)).1
    = [EvFit tied_01; EvFit tied_1; EvFit later_10] /\
    (fit_predict_single_fold solve_sparse predict_id metric_table no_time_limit bw_id
       "binary" (grid [1 # 10; 1 # 1; 10 # 1]%Q [1 # 1]%Q)).2
    = Ok (fitted solve_sparse tied_1, fitted solve_sparse tied_1) /\
    (C tied_01 == 1 # 10)%Q /\ (C tied_1 == 1 # 1)%Q /\
    (regularization tied_1 < regularization tied_01)%Q.
Proof.
  split; [vm_compute; reflexivity|]. split; [vm_compute; reflexivity|].
  split; [vm_compute; reflexivity|].
  eexists _, _, _. split; [vm_compute; reflexivity|].
  split; [vm_compute; reflexivity|].
  split; [vm_compute; reflexivity|]. split; vm_compute; reflexivity.
Qed.

(** Scenario A on a binary task with the sparse solver: the strengths
    [10, 1, 0.1] score 0.5, 0.9 and 0.9, and the model returned is the third
    fit, at [C = 0.1]: the two fits before it score at most 0.9 and nothing
    comes after it. *)
Lemma ties_go_to_the_later_fit_witness :
  (fit_predict_single_fold solve_sparse predict_id metric_table no_time_limit bw_id
     "binary" (grid [10 # 1; 1 # 1; 1 # 10]%Q [1 # 1]%Q)).2
  = Ok (Some fit_01, Some fit_01) /\
  exists pre m0 cf post,
    (fit_predict_single_fold solve_sparse predict_id metric_table no_time_limit bw_id
       "binary" (grid [10 # 1; 1 # 1; 1 # 10]%Q [1 # 1]%Q)).1
    = pre ++ EvFit m0 :: post /\
    solve_sparse m0 = Ok cf /\ fit_01 = with_coef cf m0 /\
    Forall (scored_below solve_sparse predict_id metric_table
              (Fin (metric_table (predict_id fit_01)))) pre /\
    Forall (scored_strictly_below solve_sparse predict_id metric_table
              (Fin (metric_table (predict_id fit_01)))) post.
Proof.
  split; [vm_compute; reflexivity|].
  apply (ties_go_to_the_later_fit solve_sparse estimator predict_id metric_table
           no_time_limit bw_id "binary" (grid [10 # 1; 1 # 1; 1 # 10]%Q [1 # 1]%Q)
           fit_01 (Some fit_01)).
  vm_compute. reflexivity.
Defined.

End PathTieFacts.
